(** * UAV strategic deconfliction: trajectories, sampling and conflict checks

    A shallow embedding of [deconflict/traject.py], [deconflict/temporal.py]
    and [deconflict/spatial.py].

    Number model.  Python floats are idealised as the real numbers of the
    Standard Library: every arithmetic operation is exact, [1e-6] is the
    real number 1/1000000, and [np.linalg.norm] is the real square root of
    the sum of squares.  A [datetime] is carried by its POSIX timestamp.

    Arrays are lists; an (N,3) array is a list of triples where the code
    addresses columns by name and a list of rows where it slices columns.
    Python exceptions are the [Err] results of an error monad; a message
    that embeds formatted numbers is kept without them. *)

From Stdlib Require Import String Reals Lra Lia ZArith Bool List.
Import ListNotations.
Open Scope R_scope.

(** ** Errors *)

Inductive error : Type :=
| ValueError (msg : string)
| NotImplementedError (msg : string)
| IndexError
| AttributeError.

Inductive result (A : Type) : Type :=
| Ok (a : A)
| Err (e : error).
Arguments Ok {A} a.
Arguments Err {A} e.

Definition bind {A B : Type} (m : result A) (k : A -> result B) : result B :=
  match m with
  | Ok a => k a
  | Err e => Err e
  end.

Notation "x <- m ;; k" := (bind m (fun x => k))
  (at level 61, m at next level, right associativity).
Notation "' p <- m ;; k" := (bind m (fun p => k))
  (at level 61, p pattern, m at next level, right associativity).

Fixpoint mapM {A B : Type} (f : A -> result B) (l : list A) : result (list B) :=
  match l with
  | [] => Ok []
  | a :: l' => b <- f a ;; bs <- mapM f l' ;; Ok (b :: bs)
  end.

Definition is_ok {A : Type} (m : result A) : bool :=
  match m with Ok _ => true | Err _ => false end.

(** ** Comparisons and rounding on the number model *)

Definition Rleb (x y : R) : bool := if Rle_dec x y then true else false.
Definition Rltb (x y : R) : bool := if Rlt_dec x y then true else false.
Definition Reqb (x y : R) : bool := if Req_dec_T x y then true else false.

(** [np.floor] followed by [int], and the ceiling [np.arange] uses for its
    length. *)
Definition Rfloor (x : R) : Z := Int_part x.
Definition Rceil (x : R) : Z := (- Int_part (- x))%Z.

(** ** numpy primitives *)

(** [np.diff] on a 1-D array. *)
Fixpoint np_diff (l : list R) : list R :=
  match l with
  | a :: (b :: _) as tl => (b - a) :: np_diff tl
  | _ => []
  end.

Definition np_sum (l : list R) : R := fold_right Rplus 0 l.

(** [np.cumsum]: running totals, carried from the left. *)
Fixpoint cumsum_from (acc : R) (l : list R) : list R :=
  match l with
  | [] => []
  | a :: l' => (acc + a) :: cumsum_from (acc + a) l'
  end.
Definition np_cumsum (l : list R) : list R := cumsum_from 0 l.

(** [np.linspace(start, stop, num)] with the default [endpoint=True]:
    [arange(0, num) * step + start] with [step = (stop - start) / (num - 1)],
    and, when [num > 1], the last entry overwritten by [stop]. *)
Definition linspace_nat (start stop : R) (num : nat) : list R :=
  match num with
  | O => []
  | S O => [start]
  | S (S _ as div) =>
      map (fun i => INR i * ((stop - start) / INR div) + start) (seq 0 div)
        ++ [stop]
  end.

Definition np_linspace (start stop : R) (num : Z) : result (list R) :=
  if (num <? 0)%Z
  then Err (ValueError "Number of samples must be non-negative.")
  else Ok (linspace_nat start stop (Z.to_nat num)).

(** [np.arange(start, stop, step)] on floats: [ceil((stop - start) / step)]
    values [start + i * step], none when that count is negative; a zero
    step is refused. *)
Definition np_arange (start stop step : R) : result (list R) :=
  if Reqb step 0 then Err (ValueError "Maximum allowed size exceeded")
  else
    let n := Z.to_nat (Rceil ((stop - start) / step)) in
    Ok (map (fun i => start + INR i * step) (seq 0 n)).

(** [np.interp(x, xp, fp)] at one abscissa, for increasing [xp]: the left
    value below [xp[0]], the right value from [xp[-1]] on, and between
    [xp[j]] and [xp[j+1]] the value
    [slope * (x - xp[j]) + fp[j]]. *)
Fixpoint interp_scan (x xj fj : R) (xp fp : list R) : R :=
  match xp, fp with
  | x1 :: xp', f1 :: fp' =>
      if Rltb x x1
      then (f1 - fj) / (x1 - xj) * (x - xj) + fj
      else interp_scan x x1 f1 xp' fp'
  | _, _ => fj
  end.

Definition np_interp (x : R) (xp fp : list R) : result R :=
  if negb (length xp =? length fp)%nat
  then Err (ValueError "fp and xp are not of the same length.")
  else
    match xp, fp with
    | x0 :: xp', f0 :: fp' =>
        Ok (if Rltb x x0 then f0 else interp_scan x x0 f0 xp' fp')
    | _, _ => Err (ValueError "array of sample points is empty")
    end.

(** ** traject.py: the Trajectory class *)

Record datetime : Type := mk_datetime { timestamp : R }.

Definition vec3 : Type := (R * R * R)%type.
Definition vx (p : vec3) : R := fst (fst p).
Definition vy (p : vec3) : R := snd (fst p).
Definition vz (p : vec3) : R := snd p.

Record Trajectory : Type := mk_Trajectory {
  times : list R;
  positions : list vec3;
  flight_id : string
}.

(** [Trajectory(times=..., positions=..., flight_id=...)]: the dataclass
    constructor followed by [__post_init__].  The two dimension tests are
    carried by the types. *)
Definition Trajectory_new (ts : list R) (ps : list vec3) (fid : string)
  : result Trajectory :=
  if negb (length ts =? length ps)%nat
  then Err (ValueError "times and positions length mismatch")
  else if existsb (fun d => Rleb d 0) (np_diff ts)
  then Err (ValueError "times must be strictly increasing")
  else Ok (mk_Trajectory ts ps fid).

(** Python indexing [a[0]] and [a[-1]]. *)
Definition index_first {A : Type} (l : list A) : result A :=
  match l with
  | [] => Err IndexError
  | a :: _ => Ok a
  end.

Definition index_last {A : Type} (l : list A) : result A :=
  match l with
  | [] => Err IndexError
  | a :: l' => Ok (last l' a)
  end.

Definition time_range (tr : Trajectory) : result (R * R) :=
  t0 <- index_first (times tr) ;;
  t1 <- index_last (times tr) ;;
  Ok (t0, t1).

(** The argument of [sample_position_at] is a float or a datetime. *)
Inductive time_arg : Type :=
| TFloat (t : R)
| TDatetime (d : datetime).

Definition sample_position_at (tr : Trajectory) (t : time_arg) : result vec3 :=
  let t_val := match t with
               | TDatetime d => timestamp d
               | TFloat v => v
               end in
  first_t <- index_first (times tr) ;;
  if Rleb t_val first_t then index_first (positions tr)
  else
    last_t <- index_last (times tr) ;;
    if Rleb last_t t_val then index_last (positions tr)
    else
      x <- np_interp t_val (times tr) (map vx (positions tr)) ;;
      y <- np_interp t_val (times tr) (map vy (positions tr)) ;;
      z <- np_interp t_val (times tr) (map vz (positions tr)) ;;
      Ok (x, y, z).

(** [np.stack([xs, ys, zs], axis=1)]. *)
Fixpoint stack3 (xs ys zs : list R) : list vec3 :=
  match xs, ys, zs with
  | x :: xs', y :: ys', z :: zs' => (x, y, z) :: stack3 xs' ys' zs'
  | _, _, _ => []
  end.

Definition sample_uniform (tr : Trajectory) (dt_s : R)
  : result (list R * list vec3) :=
  if Rleb dt_s 0 then Err (ValueError "dt_s must be positive")
  else
    '(t0, t1) <- time_range tr ;;
    if Rleb t1 t0 then Err (ValueError "Invalid time range")
    else
      let n_steps := (Rfloor ((t1 - t0) / dt_s) + 1)%Z in
      times_out <- np_linspace t0 t1 n_steps ;;
      xs <- mapM (fun t => np_interp t (times tr) (map vx (positions tr))) times_out ;;
      ys <- mapM (fun t => np_interp t (times tr) (map vy (positions tr))) times_out ;;
      zs <- mapM (fun t => np_interp t (times tr) (map vz (positions tr))) times_out ;;
      Ok (times_out, stack3 xs ys zs).

(** ** models.py: waypoints *)

Record Waypoint : Type := mk_Waypoint {
  x : R;
  y : R;
  z : option R;
  t : option datetime;
  id : option string
}.

(** ** traject.py: building a trajectory from waypoints *)

Definition _waypoints_to_positions (waypoints : list Waypoint) : list vec3 :=
  map (fun wp => (x wp, y wp, match z wp with None => 0 | Some v => v end))
      waypoints.

(** [np.diff(positions, axis=0)]: differences of consecutive rows. *)
Fixpoint np_diff_rows (l : list vec3) : list vec3 :=
  match l with
  | a :: (b :: _) as tl =>
      (vx b - vx a, vy b - vy a, vz b - vz a) :: np_diff_rows tl
  | _ => []
  end.

(** [np.linalg.norm] of one row of three. *)
Definition norm3 (d : vec3) : R :=
  sqrt (vx d * vx d + vy d * vy d + vz d * vz d).

Definition seg_lengths_of (ps : list vec3) : list R :=
  map norm3 (np_diff_rows ps).

Definition _compute_times_from_window
  (ps : list vec3) (mission_window : datetime * datetime)
  (max_speed_mps : option R) : result (list R) :=
  let '(start_dt, end_dt) := mission_window in
  let duration_s := timestamp end_dt - timestamp start_dt in
  if Rleb duration_s 0
  then Err (ValueError "mission_window duration must be positive")
  else
    let seg_lengths := seg_lengths_of ps in
    let total_dist := np_sum seg_lengths in
    if Rleb total_dist 0
    then np_linspace (timestamp start_dt) (timestamp end_dt)
                     (Z.of_nat (length ps))
    else
      let required_speed := total_dist / duration_s in
      if match max_speed_mps with
         | Some m => Rltb (m + 1 / 1000000) required_speed
         | None => false
         end
      then Err (ValueError "Required speed exceeds max_speed_mps")
      else
        let cum_dist := 0 :: np_cumsum seg_lengths in
        let fractions := map (fun c => c / total_dist) cum_dist in
        Ok (map (fun f => timestamp start_dt + f * duration_s) fractions).

Definition has_t (wp : Waypoint) : bool :=
  match t wp with Some _ => true | None => false end.

Definition interpolate_from_waypoints
  (waypoints : list Waypoint) (method : string)
  (mission_window : option (datetime * datetime))
  (max_speed_mps : option R) (fid : string) : result Trajectory :=
  if negb (String.eqb method "linear")
  then Err (NotImplementedError
              "Only linear interpolation is supported at this stage")
  else if (length waypoints <? 2)%nat
  then Err (ValueError "Need at least 2 waypoints to build a trajectory")
  else
    let ps := _waypoints_to_positions waypoints in
    ts <- (if existsb has_t waypoints
           then
             if negb (forallb has_t waypoints)
             then Err (ValueError
                         "Either all or none of the waypoints must have t set")
             else mapM (fun wp => match t wp with
                                  | Some d => Ok (timestamp d)
                                  | None => Err AttributeError
                                  end) waypoints
           else
             match mission_window with
             | None => Err (ValueError
                              "mission_window is required when waypoints have no times")
             | Some w => _compute_times_from_window ps w max_speed_mps
             end) ;;
    Trajectory_new ts ps fid.

(** ** temporal.py: the spatio-temporal conflict detector *)

(** One entry of the report's [conflicts] list. *)
Record Conflict : Type := mk_Conflict {
  c_flight_id : string;
  conflict_times : list string;
  conflict_positions : list (list R * list R);
  min_distance_m : R;
  time_of_min : string;
  explanation : string
}.

Inductive Status : Type := clear | conflict.

Record Report : Type := mk_Report {
  status : Status;
  conflicts : list Conflict
}.

(** A sampled position as a row of an (N,3) array. *)
Definition row_of (p : vec3) : list R := [vx p; vy p; vz p].

(** [np.linalg.norm(a - b)] for two rows of equal width. *)
Fixpoint sub_rows (a b : list R) : list R :=
  match a, b with
  | u :: a', v :: b' => (u - v) :: sub_rows a' b'
  | _, _ => []
  end.

Definition norm_row (d : list R) : R :=
  sqrt (np_sum (map (fun u => u * u) d)).

(** Python's [max] and [min] of two floats. *)
Definition py_max (a b : R) : R := if Rltb a b then b else a.
Definition py_min (a b : R) : R := if Rltb b a then b else a.

(** [np.where(dists < buffer)[0]]: the indices, in increasing order, of the
    entries under the buffer. *)
Fixpoint where_lt_from (i : nat) (dists : list R) (bound : R) : list nat :=
  match dists with
  | [] => []
  | d :: ds =>
      if Rltb d bound then i :: where_lt_from (S i) ds bound
      else where_lt_from (S i) ds bound
  end.
Definition where_lt (dists : list R) (bound : R) : list nat :=
  where_lt_from 0 dists bound.

(** Array indexing [a[idx]] inside the range. *)
Definition index_at {A : Type} (l : list A) (idx : nat) : result A :=
  match nth_error l idx with
  | Some a => Ok a
  | None => Err IndexError
  end.

Section Detector.

(** String rendering is left to the Python runtime:
    [datetime.utcfromtimestamp(t).isoformat()], the [:.2f] format and
    the printing of a list of floats. *)
Variable utc_isoformat : R -> string.
Variable format_2f : R -> string.
Variable format_list : list R -> string.

(** The dictionary built for one violating sample. *)
Definition conflict_details (sim_traj : Trajectory) (t_val : R)
  (p s : list R) (d : R) : Conflict :=
  let t_iso := utc_isoformat t_val in
  mk_Conflict
    (flight_id sim_traj)
    [t_iso]
    [(p, s)]
    d
    t_iso
    ("At " ++ t_iso ++ ", primary and " ++ flight_id sim_traj
       ++ " were within " ++ format_2f d ++ " m at position "
       ++ format_list (firstn 2 p))%string.

(** One turn of [for idx in conflict_indices]. *)
Definition conflict_entry (sim_traj : Trajectory)
  (t_grid : list R) (primary_samples sim_samples : list (list R))
  (dists : list R) (idx : nat) : result Conflict :=
  t_val <- index_at t_grid idx ;;
  p <- index_at primary_samples idx ;;
  s <- index_at sim_samples idx ;;
  d <- index_at dists idx ;;
  Ok (conflict_details sim_traj t_val p s d).

(** The loop body once both [continue] guards are passed: sampling on the
    grid, distances, thresholding and the entries. *)
Definition grid_conflicts
  (primary_traj sim_traj : Trajectory) (safety_buffer_m : R) (use_3d : bool)
  (t_grid : list R) : result (list Conflict) :=
  primary_samples <-
    mapM (fun tv => p <- sample_position_at primary_traj (TFloat tv) ;;
                    Ok (row_of p)) t_grid ;;
  sim_samples <-
    mapM (fun tv => p <- sample_position_at sim_traj (TFloat tv) ;;
                    Ok (row_of p)) t_grid ;;
  let dims := if use_3d then 3%nat else 2%nat in
  let primary_xy := map (firstn dims) primary_samples in
  let sim_xy := map (firstn dims) sim_samples in
  let dists :=
    map (fun ab => norm_row (sub_rows (fst ab) (snd ab)))
        (combine primary_xy sim_xy) in
  let conflict_indices := where_lt dists safety_buffer_m in
  mapM (conflict_entry sim_traj t_grid primary_samples sim_samples dists)
       conflict_indices.

(** The body of the loop over [sim_trajs]: the entries one intruder adds
    to [conflicts]. *)
Definition intruder_conflicts
  (primary_traj : Trajectory) (primary_t0 primary_t1 : R)
  (sim_traj : Trajectory) (safety_buffer_m dt : R) (use_3d : bool)
  : result (list Conflict) :=
  '(sim_t0, sim_t1) <- time_range sim_traj ;;
  let overlap_start := py_max primary_t0 sim_t0 in
  let overlap_end := py_min primary_t1 sim_t1 in
  if Rleb overlap_end overlap_start then Ok []
  else
    t_grid <- np_arange overlap_start overlap_end dt ;;
    match t_grid with
    | [] => Ok []
    | _ :: _ =>
        grid_conflicts primary_traj sim_traj safety_buffer_m use_3d t_grid
    end.

(** The loop itself: [conflicts] is threaded through the intruders and
    only ever appended to. *)
Fixpoint detect_loop
  (primary_traj : Trajectory) (primary_t0 primary_t1 : R)
  (sim_trajs : list Trajectory) (safety_buffer_m dt : R) (use_3d : bool)
  (acc : list Conflict) : result (list Conflict) :=
  match sim_trajs with
  | [] => Ok acc
  | sim_traj :: rest =>
      found <- intruder_conflicts primary_traj primary_t0 primary_t1
                 sim_traj safety_buffer_m dt use_3d ;;
      detect_loop primary_traj primary_t0 primary_t1 rest
                  safety_buffer_m dt use_3d (acc ++ found)
  end.

Definition check_spatiotemporal_conflicts
  (primary_traj : Trajectory) (sim_trajs : list Trajectory)
  (safety_buffer_m dt : R) (use_3d : bool) : result Report :=
  '(primary_t0, primary_t1) <- time_range primary_traj ;;
  found <- detect_loop primary_traj primary_t0 primary_t1 sim_trajs
             safety_buffer_m dt use_3d [] ;;
  match found with
  | _ :: _ => Ok (mk_Report conflict found)
  | [] => Ok (mk_Report clear [])
  end.

End Detector.

(** ** spatial.py: the pairwise spatial checker *)

(** [np.union1d(a, b)] is [np.unique(np.concatenate((a, b)))]: the values
    sorted, each kept once. *)
Fixpoint insert_sorted (v : R) (l : list R) : list R :=
  match l with
  | [] => [v]
  | u :: l' => if Rleb v u then v :: l else u :: insert_sorted v l'
  end.

Definition sort_R (l : list R) : list R := fold_right insert_sorted [] l.

Fixpoint drop_repeats (l : list R) : list R :=
  match l with
  | a :: (b :: _) as tl =>
      if Reqb a b then drop_repeats tl else a :: drop_repeats tl
  | _ => l
  end.

Definition np_unique (l : list R) : list R := drop_repeats (sort_R l).
Definition np_union1d (a b : list R) : list R := np_unique (a ++ b).

(** [np.argmin]: the first index of the least entry; [np.min]: that entry.
    Both fail on an empty array. *)
Fixpoint argmin_from (best_i : nat) (best : R) (i : nat) (l : list R)
  : nat * R :=
  match l with
  | [] => (best_i, best)
  | d :: l' =>
      if Rltb d best then argmin_from i d (S i) l'
      else argmin_from best_i best (S i) l'
  end.

Definition np_argmin (l : list R) : result nat :=
  match l with
  | [] => Err (ValueError "attempt to get argmin of an empty sequence")
  | d :: l' => Ok (fst (argmin_from 0 d 1 l'))
  end.

Definition np_min (l : list R) : result R :=
  match l with
  | [] => Err (ValueError "zero-size array to reduction operation minimum")
  | d :: l' => Ok (fold_left (fun m u => if Rltb u m then u else m) l' d)
  end.

(** The [details] dictionary. *)
Record Details : Type := mk_Details {
  d_min_distance_m : R;
  min_position_A : list R;
  min_position_B : list R;
  t_A_at_min : R;
  t_B_at_min : R;
  conflict_detected : bool
}.

Definition check_spatial_conflict
  (traj_A traj_B : Trajectory) (buffer_m : R) (use_3d : bool)
  : result (bool * Details) :=
  '(times_A, positions_A) <- sample_uniform traj_A 1 ;;
  '(times_B, positions_B) <- sample_uniform traj_B 1 ;;
  let common_times := np_union1d times_A times_B in
  pos_A_resampled <-
    mapM (fun tv => p <- sample_position_at traj_A (TFloat tv) ;;
                    Ok (firstn 2 (row_of p))) common_times ;;
  pos_B_resampled <-
    mapM (fun tv => p <- sample_position_at traj_B (TFloat tv) ;;
                    Ok (firstn 2 (row_of p))) common_times ;;
  let distances :=
    map (fun ab => norm_row (sub_rows (fst ab) (snd ab)))
        (combine pos_A_resampled pos_B_resampled) in
  min_dist <- np_min distances ;;
  min_dist_idx <- np_argmin distances ;;
  tA <- index_at common_times min_dist_idx ;;
  tB <- index_at common_times min_dist_idx ;;
  let detected := Rltb min_dist buffer_m in
  pA <- index_at pos_A_resampled min_dist_idx ;;
  pB <- index_at pos_B_resampled min_dist_idx ;;
  Ok (detected, mk_Details min_dist pA pB tA tB detected).

(** [closest_approach]: the same sampling and minimisation, without the
    buffer; the two positions are returned as tuples of the row entries. *)
Definition closest_approach (traj_A traj_B : Trajectory)
  : result (R * R * R * list R * list R) :=
  '(times_A, positions_A) <- sample_uniform traj_A 1 ;;
  '(times_B, positions_B) <- sample_uniform traj_B 1 ;;
  let common_times := np_union1d times_A times_B in
  pos_A_resampled <-
    mapM (fun tv => p <- sample_position_at traj_A (TFloat tv) ;;
                    Ok (firstn 2 (row_of p))) common_times ;;
  pos_B_resampled <-
    mapM (fun tv => p <- sample_position_at traj_B (TFloat tv) ;;
                    Ok (firstn 2 (row_of p))) common_times ;;
  let distances :=
    map (fun ab => norm_row (sub_rows (fst ab) (snd ab)))
        (combine pos_A_resampled pos_B_resampled) in
  min_dist <- np_min distances ;;
  min_dist_idx <- np_argmin distances ;;
  tA <- index_at common_times min_dist_idx ;;
  tB <- index_at common_times min_dist_idx ;;
  posA <- index_at pos_A_resampled min_dist_idx ;;
  posB <- index_at pos_B_resampled min_dist_idx ;;
  Ok (min_dist, tA, tB, posA, posB).

(** ** models.py: missions and flights *)

(** [constraints] and [metadata] are dictionaries; the only entry read is
    the numeric ["max_speed_mps"], so values are floats here. *)
Record PrimaryMission : Type := mk_PrimaryMission {
  mission_id : string;
  pm_waypoints : list Waypoint;
  start : datetime;
  end_ : datetime;
  constraints : list (string * R)
}.

Record SimulatedFlight : Type := mk_SimulatedFlight {
  sf_flight_id : string;
  sf_waypoints : list Waypoint;
  metadata : list (string * R)
}.

(** [dict.get(key, None)]. *)
Fixpoint dict_get (d : list (string * R)) (key : string) : option R :=
  match d with
  | [] => None
  | (k, v) :: d' => if String.eqb k key then Some v else dict_get d' key
  end.

Definition duration_s (m : PrimaryMission) : R :=
  timestamp (end_ m) - timestamp (start m).

(** Python's [min] and [max] over a non-empty list of datetimes: the
    first least and the first greatest. *)
Definition min_datetime (d0 : datetime) (ds : list datetime) : datetime :=
  fold_left (fun m d => if Rltb (timestamp d) (timestamp m) then d else m) ds d0.

Definition max_datetime (d0 : datetime) (ds : list datetime) : datetime :=
  fold_left (fun m d => if Rltb (timestamp m) (timestamp d) then d else m) ds d0.

Definition time_bounds (f : SimulatedFlight) : result (datetime * datetime) :=
  let times := flat_map (fun wp => match t wp with
                                   | Some d => [d]
                                   | None => []
                                   end) (sf_waypoints f) in
  match times with
  | [] => Err (ValueError "SimulatedFlight has no waypoint times")
  | d0 :: ds => Ok (min_datetime d0 ds, max_datetime d0 ds)
  end.

(** ** analyzer.py *)

Definition naive_conflict_score (distance_m threshold_m : R) : R :=
  if Rleb threshold_m distance_m then 0
  else if Rleb distance_m 0 then 1
  else (threshold_m - distance_m) / threshold_m.

Section Analyzer.

(** The JSON loaders of [io.py] and the string rendering of the detector
    are taken as given. *)
Variable load_primary : string -> result PrimaryMission.
Variable load_simulated_flights : string -> result (list SimulatedFlight).
Variable utc_isoformat : R -> string.
Variable format_2f : R -> string.
Variable format_list : list R -> string.

(** The loop that builds one trajectory per simulated flight. *)
Definition build_sim_trajs (simulated_flights : list SimulatedFlight)
  : result (list Trajectory) :=
  mapM (fun flight =>
          '(start_dt, end_dt) <- time_bounds flight ;;
          interpolate_from_waypoints (sf_waypoints flight) "linear"
            (Some (start_dt, end_dt)) None "primary")
       simulated_flights.

(** The comprehension that attaches each flight's identifier. *)
Definition attach_ids (sim_trajs : list Trajectory)
  (simulated_flights : list SimulatedFlight) : result (list Trajectory) :=
  mapM (fun tf => Trajectory_new (times (fst tf)) (positions (fst tf))
                                 (sf_flight_id (snd tf)))
       (combine sim_trajs simulated_flights).

Definition analyze_mission
  (primary_mission_json simulated_flights_json : string)
  (safety_buffer dt : R) (use_3d : bool) : result (string * Report) :=
  primary_mission <- load_primary primary_mission_json ;;
  simulated_flights <- load_simulated_flights simulated_flights_json ;;
  primary_traj <-
    interpolate_from_waypoints (pm_waypoints primary_mission) "linear"
      (Some (start primary_mission, end_ primary_mission))
      (dict_get (constraints primary_mission) "max_speed_mps") "primary" ;;
  sim_trajs <- build_sim_trajs simulated_flights ;;
  sim_trajs_with_ids <- attach_ids sim_trajs simulated_flights ;;
  conflict_result <-
    check_spatiotemporal_conflicts utc_isoformat format_2f format_list
      primary_traj sim_trajs_with_ids safety_buffer dt use_3d ;;
  match status conflict_result with
  | clear => Ok ("clear"%string, conflict_result)
  | conflict => Ok ("conflict"%string, conflict_result)
  end.

End Analyzer.

(** ** temporal.py: [format_conflict_report] *)

(** The conflict dictionaries as Python values: [None], strings, floats,
    lists and dictionaries with string keys, in insertion order. *)
#[warnings="-register-all"]
Inductive pyvalue : Type :=
| PNone
| PStr (s : string)
| PFloat (r : R)
| PList (l : list pyvalue)
| PDict (d : list (string * pyvalue)).

Definition pydict : Type := list (string * pyvalue).

(** [d.get(key, default)]. *)
Fixpoint py_get (d : pydict) (key : string) (default : pyvalue) : pyvalue :=
  match d with
  | [] => default
  | (k, v) :: d' => if String.eqb k key then v else py_get d' key default
  end.

(** The dictionary literal [conflict_details] of the detector, for a
    record of the report. *)
Definition conflict_dict (c : Conflict) : pydict :=
  [ ("flight_id", PStr (c_flight_id c));
    ("conflict_times", PList (map PStr (conflict_times c)));
    ("conflict_positions",
      PList (map (fun ps =>
                    PDict [ ("primary", PList (map PFloat (fst ps)));
                            ("sim", PList (map PFloat (snd ps))) ])
                 (conflict_positions c)));
    ("min_distance_m", PFloat (min_distance_m c));
    ("time_of_min", PStr (time_of_min c));
    ("explanation", PStr (explanation c)) ]%string.

Definition report_item (conflict_ : pydict) : pydict :=
  [ ("flight_id", py_get conflict_ "flight_id" PNone);
    ("conflict_times", py_get conflict_ "conflict_times" (PList []));
    ("conflict_positions", py_get conflict_ "conflict_positions" (PList []));
    ("min_distance_m", py_get conflict_ "min_distance_m" PNone);
    ("time_of_min", py_get conflict_ "time_of_min" PNone);
    ("explanation", py_get conflict_ "explanation" PNone) ]%string.

Definition format_conflict_report (conflicts_ : list pydict)
  : Status * list pydict :=
  match conflicts_ with
  | [] => (clear, [])
  | _ :: _ => (conflict, map report_item conflicts_)
  end.

(** * Specification vocabulary *)

(** The time invariant of a trajectory: each time is below the next. *)
Fixpoint increasing_from (a : R) (l : list R) : Prop :=
  match l with
  | [] => True
  | b :: l' => a < b /\ increasing_from b l'
  end.

Definition strictly_increasing (l : list R) : Prop :=
  match l with
  | [] => True
  | a :: l' => increasing_from a l'
  end.

(** The straight line through [(a, fa)] and [(b, fb)], read at [tv]. *)
Definition lerp (a b fa fb tv : R) : R := (fb - fa) / (b - a) * (tv - a) + fa.

Definition lerp3 (a b : R) (p q : vec3) (tv : R) : vec3 :=
  (lerp a b (vx p) (vx q) tv, lerp a b (vy p) (vy q) tv, lerp a b (vz p) (vz q) tv).

Definition origin : vec3 := (0, 0, 0).

(** What [__post_init__] establishes, and the non-emptiness every indexing
    of a trajectory relies on. *)
Definition valid (tr : Trajectory) : Prop :=
  length (times tr) = length (positions tr) /\ strictly_increasing (times tr).

Definition nonempty (tr : Trajectory) : Prop := times tr <> [].

(** The position a trajectory reports at a float time. *)
Definition position_of (tr : Trajectory) (tv : R) : vec3 :=
  match sample_position_at tr (TFloat tv) with
  | Ok p => p
  | Err _ => origin
  end.

(** The midpoint of two waypoints, a missing altitude read as 0. *)
Definition waypoint_midpoint (w0 w1 : Waypoint) : vec3 :=
  let alt w := match z w with None => 0 | Some v => v end in
  ((x w0 + x w1) / 2, (y w0 + y w1) / 2, (alt w0 + alt w1) / 2).

(** The float a [sample_position_at] argument stands for. *)
Definition seconds_of (ta : time_arg) : R :=
  match ta with
  | TDatetime d => timestamp d
  | TFloat v => v
  end.

(** The value [np.interp] returns where it returns one. *)
Definition interp_val (v : R) (xp fp : list R) : R :=
  match np_interp v xp fp with
  | Ok r => r
  | Err _ => 0
  end.

(** The number of samples [sample_uniform] asks [np.linspace] for. *)
Definition n_steps_of (t0 t1 dt_s : R) : Z := (Rfloor ((t1 - t0) / dt_s) + 1)%Z.

(** A trajectory every indexing of which succeeds. *)
Definition well_formed (tr : Trajectory) : Prop :=
  nonempty tr /\ length (times tr) = length (positions tr).

(** The separation the detector thresholds: the norm over the first two
    or all three coordinates. *)
Definition separation (use_3d : bool) (p s : vec3) : R :=
  let dims := if use_3d then 3%nat else 2%nat in
  norm_row (sub_rows (firstn dims (row_of p)) (firstn dims (row_of s))).

Definition distance_at (use_3d : bool) (primary sim : Trajectory) (tv : R) : R :=
  separation use_3d (position_of primary tv) (position_of sim tv).

(** The temporal overlap of two trajectories and the sample grid over
    it; no instants where there is no overlap. *)
Definition overlap_of (primary sim : Trajectory) : option (R * R) :=
  match time_range primary, time_range sim with
  | Ok (p0, p1), Ok (s0, s1) => Some (Rmax p0 s0, Rmin p1 s1)
  | _, _ => None
  end.

Definition sample_grid (primary sim : Trajectory) (dt : R) : list R :=
  match overlap_of primary sim with
  | Some (a, b) =>
      if Rleb b a then []
      else match np_arange a b dt with
           | Ok g => g
           | Err _ => []
           end
  | None => []
  end.

(** The grid instants of an intruder whose separation is under the buffer. *)
Definition violating_instants (use_3d : bool) (primary sim : Trajectory)
  (safety_buffer_m dt : R) : list R :=
  filter (fun tv => Rltb (distance_at use_3d primary sim tv) safety_buffer_m)
         (sample_grid primary sim dt).

(** The record the detector owes to intruder [sim] at grid instant [tv]. *)
Definition record_at (utc_isoformat format_2f : R -> string)
  (format_list : list R -> string) (use_3d : bool)
  (primary sim : Trajectory) (tv : R) : Conflict :=
  conflict_details utc_isoformat format_2f format_list sim tv
    (row_of (position_of primary tv)) (row_of (position_of sim tv))
    (distance_at use_3d primary sim tv).

(** No two consecutive positions coincide. *)
Fixpoint consecutive_distinct (ps : list vec3) : Prop :=
  match ps with
  | a :: (b :: _) as tl => a <> b /\ consecutive_distinct tl
  | _ => True
  end.

(** The times window-derived mode assigns: the window start plus the
    fraction of path length flown, scaled by the duration. *)
Definition proportional_times (ps : list vec3) (start_s duration_s : R) : list R :=
  map (fun f => start_s + f * duration_s)
      (map (fun c => c / np_sum (seg_lengths_of ps))
           (0 :: np_cumsum (seg_lengths_of ps))).

(** The average speed a window asks of a path. *)
Definition required_speed (ps : list vec3) (duration_s : R) : R :=
  np_sum (seg_lengths_of ps) / duration_s.

(** The one-second grid [check_spatial_conflict] samples a trajectory on,
    and the comparison instants of a pair. *)
Definition uniform_grid (tr : Trajectory) : list R :=
  match sample_uniform tr 1 with
  | Ok (grid, _) => grid
  | Err _ => []
  end.

Definition common_instants (traj_A traj_B : Trajectory) : list R :=
  np_union1d (uniform_grid traj_A) (uniform_grid traj_B).

(** The first two coordinates of a position, as the checker reports them. *)
Definition planar (p : vec3) : list R := [vx p; vy p].

(** ** Scenarios *)

(** A rendering that prints nothing, for running the detector. *)
Definition no_text {A : Type} (a : A) : string := EmptyString.

(** The crossing paths of the test suite: the primary flies east along
    the x axis, the intruder north through [(5, 0)]. *)
Definition crossing_primary : Trajectory :=
  mk_Trajectory [0; 10] [(0, 0, 0); (10, 0, 0)] "primary".

Definition crossing_sim : Trajectory :=
  mk_Trajectory [0; 10] [(5, -5, 0); (5, 5, 0)] "sim".

(** The same intruder path flown after the primary has landed. *)
Definition late_sim : Trajectory :=
  mk_Trajectory [20; 30] [(5, -5, 0); (5, 5, 0)] "sim".

(** Two half-second flights leaving the same point. *)
Definition brief_primary : Trajectory :=
  mk_Trajectory [0; 1 / 2] [(0, 0, 0); (1, 0, 0)] "primary".

Definition brief_sim : Trajectory :=
  mk_Trajectory [0; 1 / 2] [(0, 0, 0); (0, 1, 0)] "sim".

(** A waypoint without altitude, time or label, and one with a time. *)
Definition untimed (a b : R) : Waypoint := mk_Waypoint a b None None None.

Definition timed (a b tv : R) : Waypoint :=
  mk_Waypoint a b None (Some (mk_datetime tv)) None.

(** A path that repeats its first waypoint before flying ten metres. *)
Definition hover_then_go : list Waypoint :=
  [untimed 0 0; untimed 0 0; untimed 10 0].

(** Two waypoints stamped with the same time. *)
Definition same_stamp : list Waypoint := [timed 0 0 0; timed 10 0 0].

(** The straight ten-metre path of the trajectory tests. *)
Definition straight_path : list Waypoint := [untimed 0 0; untimed 10 0].

Definition window_0_10 : datetime * datetime := (mk_datetime 0, mk_datetime 10).

(** The planar distance of two positions. *)
Definition planar_distance (p q : vec3) : R :=
  sqrt ((vx p - vx q) * (vx p - vx q) + (vy p - vy q) * (vy p - vy q)).

(** Two level flights one above the other, a hundred metres apart. *)
Definition low_flight : Trajectory :=
  mk_Trajectory [0; 10] [(0, 0, 0); (10, 0, 0)] "low".

Definition high_flight : Trajectory :=
  mk_Trajectory [0; 10] [(0, 0, 100); (10, 0, 100)] "high".

(** A list in which no entry is above the next. *)
Fixpoint nondecreasing_from (a : R) (l : list R) : Prop :=
  match l with
  | [] => True
  | b :: l' => a <= b /\ nondecreasing_from b l'
  end.

Definition nondecreasing (l : list R) : Prop :=
  match l with
  | [] => True
  | a :: l' => nondecreasing_from a l'
  end.

(** What [check_spatial_conflict] makes of a closest approach. *)
Definition flagged (buffer_m : R) (approach : R * R * R * list R * list R)
  : bool * Details :=
  let '(min_dist, tA, tB, posA, posB) := approach in
  (Rltb min_dist buffer_m,
   mk_Details min_dist posA posB tA tB (Rltb min_dist buffer_m)).

(** A mission along the straight path and one flight crossing it later,
    as the loaders would return them. *)
Definition demo_mission : PrimaryMission :=
  mk_PrimaryMission "P001" straight_path (mk_datetime 0) (mk_datetime 10) [].

Definition demo_flight : SimulatedFlight :=
  mk_SimulatedFlight "sim" [timed 5 (-5) 20; timed 5 5 30] [].

Definition load_demo_mission (path : string) : result PrimaryMission :=
  Ok demo_mission.

Definition load_demo_flights (path : string) : result (list SimulatedFlight) :=
  Ok [demo_flight].


(** * Properties *)

(** ** Deciding the comparisons *)

Lemma Rleb_true (a b : R) : a <= b -> Rleb a b = true.
Proof. intros H; unfold Rleb; destruct (Rle_dec a b); [reflexivity | contradiction]. Qed.

Lemma Rleb_false (a b : R) : b < a -> Rleb a b = false.
Proof. intros H; unfold Rleb; destruct (Rle_dec a b); [lra | reflexivity]. Qed.

Lemma Rltb_true (a b : R) : a < b -> Rltb a b = true.
Proof. intros H; unfold Rltb; destruct (Rlt_dec a b); [reflexivity | contradiction]. Qed.

Lemma Rltb_false (a b : R) : b <= a -> Rltb a b = false.
Proof. intros H; unfold Rltb; destruct (Rlt_dec a b); [lra | reflexivity]. Qed.

Lemma Reqb_true (a b : R) : a = b -> Reqb a b = true.
Proof. intros H; unfold Reqb; destruct (Req_dec_T a b); [reflexivity | contradiction]. Qed.

Lemma Reqb_false (a b : R) : a <> b -> Reqb a b = false.
Proof. intros H; unfold Reqb; destruct (Req_dec_T a b); [contradiction | reflexivity]. Qed.

Lemma Rleb_spec (a b : R) : Rleb a b = true <-> a <= b.
Proof.
  split; [| apply Rleb_true].
  unfold Rleb; destruct (Rle_dec a b); [trivial | discriminate].
Qed.

Lemma Rltb_spec (a b : R) : Rltb a b = true <-> a < b.
Proof.
  split; [| apply Rltb_true].
  unfold Rltb; destruct (Rlt_dec a b); [trivial | discriminate].
Qed.

Lemma Rleb_false_iff (a b : R) : Rleb a b = false <-> b < a.
Proof.
  split; [| apply Rleb_false].
  unfold Rleb; destruct (Rle_dec a b); [discriminate | lra].
Qed.

Lemma Rltb_false_iff (a b : R) : Rltb a b = false <-> b <= a.
Proof.
  split; [| apply Rltb_false].
  unfold Rltb; destruct (Rlt_dec a b); [discriminate | lra].
Qed.

Lemma Rfloor_unique (v : R) (k : Z) : IZR k <= v -> v < IZR k + 1 -> Rfloor v = k.
Proof.
  intros H1 H2. unfold Rfloor, Int_part.
  assert (E : (k + 1)%Z = up v).
  { apply tech_up; rewrite plus_IZR; simpl; lra. }
  lia.
Qed.

Lemma Rceil_unique (v : R) (k : Z) : IZR k - 1 < v -> v <= IZR k -> Rceil v = k.
Proof.
  intros H1 H2. unfold Rceil, Int_part.
  assert (E : (- k + 1)%Z = up (- v)).
  { apply tech_up; rewrite plus_IZR, opp_IZR; simpl; lra. }
  lia.
Qed.

Lemma Rfloor_bounds (v : R) : IZR (Rfloor v) <= v < IZR (Rfloor v) + 1.
Proof.
  unfold Rfloor, Int_part. destruct (archimed v) as [H1 H2].
  rewrite minus_IZR; simpl. lra.
Qed.

Lemma Rceil_bounds (v : R) : IZR (Rceil v) - 1 < v <= IZR (Rceil v).
Proof.
  unfold Rceil. destruct (Rfloor_bounds (- v)) as [H1 H2].
  unfold Rfloor in *. rewrite opp_IZR. lra.
Qed.

Lemma py_max_Rmax (a b : R) : py_max a b = Rmax a b.
Proof.
  unfold py_max, Rltb, Rmax.
  destruct (Rlt_dec a b), (Rle_dec a b); try reflexivity; lra.
Qed.

Lemma py_min_Rmin (a b : R) : py_min a b = Rmin a b.
Proof.
  unfold py_min, Rltb, Rmin.
  destruct (Rlt_dec b a), (Rle_dec a b); try reflexivity; lra.
Qed.

(** ** The error monad *)

Lemma mapM_total {A B : Type} (f : A -> result B) (g : A -> B) (l : list A) :
  (forall a, In a l -> f a = Ok (g a)) -> mapM f l = Ok (map g l).
Proof.
  induction l as [| a l IH]; intros H; simpl; [reflexivity |].
  rewrite (H a) by (left; reflexivity). simpl.
  rewrite IH by (intros; apply H; right; assumption). reflexivity.
Qed.

Lemma bind_Ok_inv {A B : Type} (m : result A) (k : A -> result B) (b : B) :
  bind m k = Ok b -> exists a, m = Ok a /\ k a = Ok b.
Proof. destruct m as [a | e]; simpl; [eauto | discriminate]. Qed.

(** ** The trajectory invariant *)

Lemma diff_check_increasing (ts : list R) :
  existsb (fun d => Rleb d 0) (np_diff ts) = false <-> strictly_increasing ts.
Proof.
  destruct ts as [| a ts]; [simpl; tauto |].
  revert a. induction ts as [| b ts IH]; intros a; [simpl; tauto |].
  change (np_diff (a :: b :: ts)) with ((b - a) :: np_diff (b :: ts)).
  cbn [existsb]. rewrite orb_false_iff, IH, Rleb_false_iff. simpl.
  split; intros [H1 H2]; split; trivial; lra.
Qed.

Lemma Trajectory_new_Ok (ts : list R) (ps : list vec3) (fid : string) (tr : Trajectory) :
  Trajectory_new ts ps fid = Ok tr <->
  length ts = length ps /\ strictly_increasing ts /\ tr = mk_Trajectory ts ps fid.
Proof.
  unfold Trajectory_new.
  destruct (Nat.eqb_spec (length ts) (length ps)) as [E | E]; simpl.
  - destruct (existsb _ _) eqn:D.
    + split; [discriminate |]. intros (_ & H & _).
      apply diff_check_increasing in H. congruence.
    + apply diff_check_increasing in D.
      split; [intros [= <-]; auto | intros (_ & _ & ->); reflexivity].
  - split; [discriminate | intros (H & _); contradiction].
Qed.

Lemma increasing_from_nth (l : list R) (a : R) (j : nat) :
  increasing_from a l -> (j < length l)%nat -> a < nth j l 0.
Proof.
  revert a j. induction l as [| b l IH]; intros a j H Hj; simpl in *; [lia |].
  destruct H as [H1 H2]. destruct j as [| j]; [assumption |].
  specialize (IH b j H2 ltac:(lia)). lra.
Qed.

Lemma last_cons_head {A : Type} (l : list A) (a d : A) :
  last (a :: l) d = last l a.
Proof.
  revert a d. induction l as [| b l IH]; intros a d; [reflexivity |].
  change (last (a :: b :: l) d) with (last (b :: l) d).
  rewrite (IH b d), (IH b a). reflexivity.
Qed.

Lemma increasing_from_last (l : list R) (a : R) :
  increasing_from a l -> a <= last l a.
Proof.
  revert a. induction l as [| b l IH]; intros a H; [simpl; lra |].
  destruct H as [H1 H2]. specialize (IH b H2).
  rewrite last_cons_head. lra.
Qed.

Lemma Trajectory_new_valid (ts : list R) (ps : list vec3) (fid : string) (tr : Trajectory) :
  Trajectory_new ts ps fid = Ok tr -> valid tr /\ times tr = ts /\ positions tr = ps.
Proof.
  intros H. apply Trajectory_new_Ok in H. destruct H as (H1 & H2 & ->).
  unfold valid; simpl. auto.
Qed.

(** ** Interpolation *)

Lemma interp_scan_segment (xp fp : list R) (xj fj v : R) (j : nat) :
  length xp = length fp -> increasing_from xj xp ->
  (j < length xp)%nat ->
  nth j (xj :: xp) 0 <= v < nth (S j) (xj :: xp) 0 ->
  interp_scan v xj fj xp fp =
  lerp (nth j (xj :: xp) 0) (nth (S j) (xj :: xp) 0)
       (nth j (fj :: fp) 0) (nth (S j) (fj :: fp) 0) v.
Proof.
  revert fp xj fj j.
  induction xp as [| x1 xp IH]; intros fp xj fj j Hlen Hinc Hj Hv; [simpl in Hj; lia |].
  destruct fp as [| f1 fp]; [discriminate |].
  destruct Hinc as [H1 H2]. injection Hlen as Hlen.
  destruct j as [| j].
  - simpl in Hv. simpl. rewrite Rltb_true by lra. reflexivity.
  - assert (Hx1 : x1 <= v).
    { destruct Hv as [Hv _]. change (nth (S j) (xj :: x1 :: xp) 0) with (nth j (x1 :: xp) 0) in Hv.
      destruct j as [| j]; [exact Hv |].
      assert (x1 < nth j xp 0) by (apply increasing_from_nth; [assumption | simpl in Hj; lia]).
      simpl in Hv. lra. }
    cbn [interp_scan]. rewrite Rltb_false by lra.
    rewrite (IH fp x1 f1 j Hlen H2); [reflexivity | simpl in Hj; lia | exact Hv].
Qed.

Lemma interp_scan_right (xp fp : list R) (xj fj v : R) :
  length xp = length fp -> (forall u, In u xp -> u <= v) ->
  interp_scan v xj fj xp fp = last fp fj.
Proof.
  revert fp xj fj.
  induction xp as [| x1 xp IH]; intros fp xj fj Hlen Hall;
    destruct fp as [| f1 fp]; try discriminate; [reflexivity |].
  injection Hlen as Hlen. cbn [interp_scan].
  rewrite Rltb_false by (apply Hall; left; reflexivity).
  rewrite IH by (trivial; intros; apply Hall; right; assumption).
  symmetry. apply last_cons_head.
Qed.

Lemma np_interp_nonempty (v : R) (xp fp : list R) :
  length xp = length fp -> xp <> [] -> exists r, np_interp v xp fp = Ok r.
Proof.
  intros Hlen Hne. unfold np_interp. rewrite Hlen, Nat.eqb_refl. simpl.
  destruct xp as [| x0 xp]; [contradiction |].
  destruct fp as [| f0 fp]; [discriminate |]. eauto.
Qed.

Lemma sample_position_at_total (tr : Trajectory) (ta : time_arg) :
  nonempty tr -> length (times tr) = length (positions tr) ->
  exists p, sample_position_at tr ta = Ok p.
Proof.
  unfold nonempty. intros Hne Hlen. unfold sample_position_at.
  destruct tr as [ts ps fid]; simpl in *.
  destruct ts as [| t0 ts]; [contradiction |].
  destruct ps as [| p0 ps]; [discriminate |].
  set (tv := match ta with TDatetime d => timestamp d | TFloat v => v end).
  simpl index_first. cbn [bind].
  destruct (Rleb tv t0); [eauto |].
  cbn [index_last bind].
  destruct (Rleb _ tv); [eauto |].
  destruct (np_interp_nonempty tv (t0 :: ts) (map vx (p0 :: ps))) as [rx ->];
    [rewrite length_map; assumption | discriminate |].
  destruct (np_interp_nonempty tv (t0 :: ts) (map vy (p0 :: ps))) as [ry ->];
    [rewrite length_map; assumption | discriminate |].
  destruct (np_interp_nonempty tv (t0 :: ts) (map vz (p0 :: ps))) as [rz ->];
    [rewrite length_map; assumption | discriminate |].
  simpl. eauto.
Qed.

Lemma sample_position_at_position_of (tr : Trajectory) (tv : R) :
  nonempty tr -> length (times tr) = length (positions tr) ->
  sample_position_at tr (TFloat tv) = Ok (position_of tr tv).
Proof.
  intros Hne Hlen. unfold position_of.
  destruct (sample_position_at_total tr (TFloat tv) Hne Hlen) as [p ->]. reflexivity.
Qed.

(** ** [sample_position_at]: clamping and segments *)

Lemma sample_clamp_first (tr : Trajectory) (ta : time_arg) (t0 : R) (p0 : vec3) :
  index_first (times tr) = Ok t0 -> index_first (positions tr) = Ok p0 ->
  seconds_of ta <= t0 -> sample_position_at tr ta = Ok p0.
Proof.
  intros Ht Hp Hle. unfold sample_position_at. fold (seconds_of ta).
  rewrite Ht. cbn [bind]. rewrite Rleb_true by assumption. exact Hp.
Qed.

Lemma increasing_from_last_eq (l : list R) (a : R) :
  increasing_from a l -> last l a <= a -> l = [].
Proof.
  destruct l as [| b l]; [reflexivity |]. intros [H1 H2] Hle.
  rewrite last_cons_head in Hle.
  pose proof (increasing_from_last l b H2). lra.
Qed.

Lemma sample_clamp_last (tr : Trajectory) (ta : time_arg) (t1 : R) (p1 : vec3) :
  valid tr ->
  index_last (times tr) = Ok t1 -> index_last (positions tr) = Ok p1 ->
  t1 <= seconds_of ta -> sample_position_at tr ta = Ok p1.
Proof.
  intros [Hlen Hinc] Ht Hp Hle. unfold sample_position_at. fold (seconds_of ta).
  destruct tr as [ts ps fid]; simpl in *.
  destruct ts as [| t0 ts]; [discriminate |].
  destruct ps as [| p0 ps]; [discriminate |].
  simpl in Ht, Hp. injection Ht as Ht. injection Hp as Hp.
  cbn [index_first bind].
  destruct (Rleb (seconds_of ta) t0) eqn:E.
  - apply Rleb_spec in E.
    assert (ts = []) by (apply (increasing_from_last_eq ts t0); [assumption | lra]).
    subst ts. destruct ps; [| discriminate]. simpl in Hp. subst p1. reflexivity.
  - cbn [index_last bind]. rewrite Ht, Rleb_true by assumption. rewrite Hp. reflexivity.
Qed.

Lemma sample_segment (tr : Trajectory) (ta : time_arg) (j : nat) :
  valid tr -> (S j < length (times tr))%nat ->
  nth j (times tr) 0 <= seconds_of ta < nth (S j) (times tr) 0 ->
  sample_position_at tr ta =
  Ok (lerp3 (nth j (times tr) 0) (nth (S j) (times tr) 0)
            (nth j (positions tr) origin) (nth (S j) (positions tr) origin)
            (seconds_of ta)).
Proof.
  intros [Hlen Hinc] Hj Hv. unfold sample_position_at. fold (seconds_of ta).
  destruct tr as [ts ps fid]; simpl in *.
  destruct ts as [| t0 ts]; [simpl in Hj; lia |].
  destruct ps as [| p0 ps]; [discriminate |].
  simpl in Hinc. injection Hlen as Hlen. simpl in Hj.
  set (v := seconds_of ta) in *.
  assert (Ht0 : t0 <= v).
  { destruct Hv as [Hv _]. destruct j as [| j]; [exact Hv |].
    assert (t0 < nth j ts 0) by (apply increasing_from_nth; [assumption | lia]).
    simpl in Hv. lra. }
  assert (Hlast : v < last ts t0).
  { destruct Hv as [_ Hv]. change (nth (S j) (t0 :: ts) 0) with (nth j ts 0) in Hv.
    assert (Hsplit : exists pre suf, ts = pre ++ nth j ts 0 :: suf /\ length pre = j).
    { apply nth_split. lia. }
    destruct Hsplit as (pre & suf & E & _).
    assert (G : forall l a, increasing_from a l -> forall b, In b l -> b <= last l a).
    { clear. induction l as [| c l IH]; intros a H b Hb; [contradiction |].
      destruct H as [H1 H2]. rewrite last_cons_head.
      destruct Hb as [-> | Hb]; [apply increasing_from_last; assumption | apply IH; assumption]. }
    assert (nth j ts 0 <= last ts t0).
    { apply G; [assumption |]. rewrite E at 2. apply in_or_app. right. left. reflexivity. }
    lra. }
  cbn [index_first bind].
  destruct (Rleb v t0) eqn:E0.
  { apply Rleb_spec in E0. assert (Ev : v = t0) by lra.
    assert (Ej : j = O).
    { destruct j as [| j]; [reflexivity |].
      assert (t0 < nth j ts 0) by (apply increasing_from_nth; [assumption | lia]).
      simpl in Hv. lra. }
    subst j. simpl. unfold lerp3, lerp. rewrite Ev.
    destruct p0 as [[a b] c]. unfold vx, vy, vz; simpl. f_equal.
    replace (t0 - t0) with 0 by ring. rewrite !Rmult_0_r, !Rplus_0_l. reflexivity. }
  cbn [index_last bind]. rewrite Rleb_false by assumption.
  unfold np_interp. simpl length. rewrite !length_map, Hlen, Nat.eqb_refl.
  cbn [negb map bind]. rewrite Rltb_false by assumption.
  rewrite !(interp_scan_segment ts _ t0 _ v j);
    try assumption; try lia; try (rewrite length_map; assumption).
  unfold lerp3. f_equal.
  change (vx p0 :: map vx ps) with (map vx (p0 :: ps)).
  change (vy p0 :: map vy ps) with (map vy (p0 :: ps)).
  change (vz p0 :: map vz ps) with (map vz (p0 :: ps)).
  change 0 with (vx origin) at 3 4.
  change 0 with (vy origin) at 5 6.
  change 0 with (vz origin) at 7 8.
  rewrite !map_nth. reflexivity.
Qed.

Lemma segment_cover (l : list R) (a v : R) :
  increasing_from a l -> a <= v < last l a ->
  exists j, (j < length l)%nat /\ nth j (a :: l) 0 <= v < nth (S j) (a :: l) 0.
Proof.
  revert a. induction l as [| b l IH]; intros a Hinc Hv; [simpl in Hv; lra |].
  destruct Hinc as [H1 H2]. rewrite last_cons_head in Hv.
  destruct (Rlt_dec v b) as [Hlt | Hge].
  - exists O. simpl. split; [lia | lra].
  - destruct (IH b H2) as (j & Hj & Hseg); [lra |].
    exists (S j). split; [simpl; lia | exact Hseg].
Qed.

(** ** Two waypoints in window-derived mode *)

Lemma two_waypoint_times (p0 p1 : vec3) (start_dt end_dt : datetime)
      (max_speed_mps : option R) (ts : list R) :
  _compute_times_from_window [p0; p1] (start_dt, end_dt) max_speed_mps = Ok ts ->
  timestamp start_dt < timestamp end_dt /\
  exists a b, ts = [a; b] /\ a = timestamp start_dt /\ b = timestamp end_dt.
Proof.
  unfold _compute_times_from_window.
  destruct (Rleb (timestamp end_dt - timestamp start_dt) 0) eqn:Ed; [discriminate |].
  apply Rleb_false_iff in Ed.
  unfold seg_lengths_of. cbn [np_diff_rows map np_sum fold_right].
  set (L := norm3 _).
  destruct (Rleb (L + 0) 0) eqn:Et.
  - unfold np_linspace. simpl. intros [= <-]. split; [lra |].
    eexists; eexists; split; [reflexivity |]. split; [lra | reflexivity].
  - apply Rleb_false_iff in Et.
    destruct (match max_speed_mps with Some _ => _ | None => _ end); [discriminate |].
    unfold np_cumsum. cbn [cumsum_from map]. intros [= <-]. split; [lra |].
    eexists; eexists; split; [reflexivity |]. split; field; lra.
Qed.

Lemma two_waypoint_build (w0 w1 : Waypoint) (start_dt end_dt : datetime)
      (max_speed_mps : option R) (fid : string) (tr : Trajectory) :
  t w0 = None -> t w1 = None ->
  interpolate_from_waypoints [w0; w1] "linear" (Some (start_dt, end_dt))
                             max_speed_mps fid = Ok tr ->
  timestamp start_dt < timestamp end_dt /\
  tr = mk_Trajectory [timestamp start_dt; timestamp end_dt]
                     (_waypoints_to_positions [w0; w1]) fid.
Proof.
  intros H0 H1. unfold interpolate_from_waypoints.
  cbn [String.eqb Ascii.eqb Bool.eqb negb length Nat.ltb Nat.leb existsb].
  unfold has_t. rewrite H0, H1. cbn [orb].
  intros H. apply bind_Ok_inv in H. destruct H as (ts & Hts & Hnew).
  apply two_waypoint_times in Hts. destruct Hts as (Hlt & a & b & -> & -> & ->).
  apply Trajectory_new_Ok in Hnew. destruct Hnew as (_ & _ & ->). auto.
Qed.

Lemma two_waypoint_midpoint (w0 w1 : Waypoint) (a b : R) (fid : string) :
  a < b ->
  sample_position_at (mk_Trajectory [a; b] (_waypoints_to_positions [w0; w1]) fid)
                     (TFloat (a + (b - a) / 2))
  = Ok (waypoint_midpoint w0 w1).
Proof.
  intros Hlt.
  rewrite (sample_segment _ _ O); simpl.
  - unfold lerp3, lerp, waypoint_midpoint, vx, vy, vz; simpl.
    f_equal. f_equal; [f_equal |]; field; lra.
  - split; [reflexivity | simpl; lra].
  - lia.
  - lra.
Qed.

Lemma two_waypoint_build_ok (w0 w1 : Waypoint) (start_dt end_dt : datetime) (fid : string) :
  t w0 = None -> t w1 = None -> timestamp start_dt < timestamp end_dt ->
  interpolate_from_waypoints [w0; w1] "linear" (Some (start_dt, end_dt)) None fid
  = Ok (mk_Trajectory [timestamp start_dt; timestamp end_dt]
                      (_waypoints_to_positions [w0; w1]) fid).
Proof.
  intros H0 H1 Hlt.
  destruct (interpolate_from_waypoints [w0; w1] "linear" (Some (start_dt, end_dt)) None fid)
    as [tr | e] eqn:E.
  - apply two_waypoint_build in E; trivial. destruct E as [_ ->]. reflexivity.
  - exfalso. revert E. unfold interpolate_from_waypoints.
    cbn [String.eqb Ascii.eqb Bool.eqb negb length Nat.ltb Nat.leb existsb].
    unfold has_t. rewrite H0, H1. cbn [orb].
    destruct (_compute_times_from_window _ _ None) as [ts | e'] eqn:Ec.
    + destruct (two_waypoint_times _ _ _ _ _ _ Ec) as (_ & a & b & -> & -> & ->).
      cbn [bind]. intros Hnew.
      assert (Hok : Trajectory_new [timestamp start_dt; timestamp end_dt]
                      (_waypoints_to_positions [w0; w1]) fid
                    = Ok (mk_Trajectory [timestamp start_dt; timestamp end_dt]
                            (_waypoints_to_positions [w0; w1]) fid)).
      { apply Trajectory_new_Ok. simpl. auto. }
      congruence.
    + revert Ec. unfold _compute_times_from_window.
      rewrite Rleb_false by lra.
      destruct (Rleb _ 0); [unfold np_linspace; simpl |]; discriminate.
Qed.

(** C5.  [sample_position_at] clamps to the first recorded position at or
    before the first time and to the last one at or after the last time;
    strictly between, the time lies in a segment of the time sequence and
    each coordinate is the straight line through that segment's end
    positions.  A two-waypoint path built in window-derived mode over a
    window of positive length is at the midpoint of its waypoints half-way
    through the window. *)
Theorem sample_position_at_policy :
  (forall (tr : Trajectory) (ta : time_arg) (t0 t1 : R) (p0 p1 : vec3),
      valid tr -> time_range tr = Ok (t0, t1) ->
      index_first (positions tr) = Ok p0 -> index_last (positions tr) = Ok p1 ->
      (seconds_of ta <= t0 -> sample_position_at tr ta = Ok p0) /\
      (t1 <= seconds_of ta -> sample_position_at tr ta = Ok p1) /\
      (forall j, (S j < length (times tr))%nat ->
                 nth j (times tr) 0 <= seconds_of ta < nth (S j) (times tr) 0 ->
                 sample_position_at tr ta =
                 Ok (lerp3 (nth j (times tr) 0) (nth (S j) (times tr) 0)
                           (nth j (positions tr) origin)
                           (nth (S j) (positions tr) origin) (seconds_of ta))) /\
      (t0 < seconds_of ta < t1 ->
       exists j, (S j < length (times tr))%nat /\
                 nth j (times tr) 0 <= seconds_of ta < nth (S j) (times tr) 0))
  /\
  (forall (w0 w1 : Waypoint) (start_dt end_dt : datetime) (fid : string),
      t w0 = None -> t w1 = None ->
      let T := timestamp end_dt - timestamp start_dt in
      (0 < T ->
       is_ok (interpolate_from_waypoints [w0; w1] "linear"
                (Some (start_dt, end_dt)) None fid) = true) /\
      (forall (max_speed_mps : option R) (tr : Trajectory),
          interpolate_from_waypoints [w0; w1] "linear"
            (Some (start_dt, end_dt)) max_speed_mps fid = Ok tr ->
          sample_position_at tr (TFloat (timestamp start_dt + T / 2))
          = Ok (waypoint_midpoint w0 w1))).
Proof.
  split.
  - intros tr ta t0 t1 p0 p1 Hv Htr Hp0 Hp1.
    unfold time_range in Htr.
    apply bind_Ok_inv in Htr. destruct Htr as (a & Ha & Htr).
    apply bind_Ok_inv in Htr. destruct Htr as (b & Hb & [= -> ->]).
    repeat split.
    + intros H. eapply sample_clamp_first; eassumption.
    + intros H. eapply sample_clamp_last; eassumption.
    + intros j Hj Hseg. apply sample_segment; assumption.
    + intros Hbetween. destruct Hv as [_ Hinc].
      destruct (times tr) as [| u ts]; [discriminate |].
      simpl in Ha, Hb, Hinc. injection Ha as ->. injection Hb as Hb.
      destruct (segment_cover ts t0 (seconds_of ta) Hinc) as (j & Hj & Hseg); [lra |].
      exists j. split; [simpl; lia | exact Hseg].
  - intros w0 w1 start_dt end_dt fid H0 H1 T. split.
    + intros HT. rewrite two_waypoint_build_ok; trivial. unfold T in HT. lra.
    + intros ms tr Hbuild.
      apply two_waypoint_build in Hbuild; trivial. destruct Hbuild as [Hlt ->].
      apply two_waypoint_midpoint. exact Hlt.
Qed.

Lemma sample_position_at_policy_witness :
  let w0 := mk_Waypoint 0 0 (Some 100) None None in
  let w1 := mk_Waypoint 10 0 (Some 100) None None in
  let tr := mk_Trajectory [0; 10] [(0, 0, 100); (10, 0, 100)] "primary"%string in
  sample_position_at tr (TFloat (-1)) = Ok (0, 0, 100) /\
  sample_position_at tr (TFloat 11) = Ok (10, 0, 100) /\
  sample_position_at tr (TFloat (0 + (10 - 0) / 2)) = Ok (waypoint_midpoint w0 w1).
Proof.
  intros w0 w1 tr.
  assert (Hv : valid tr) by (split; [reflexivity | simpl; lra]).
  destruct (proj1 sample_position_at_policy tr (TFloat (-1)) 0 10
              (0, 0, 100) (10, 0, 100) Hv eq_refl eq_refl eq_refl) as (Hfirst & _).
  destruct (proj1 sample_position_at_policy tr (TFloat 11) 0 10
              (0, 0, 100) (10, 0, 100) Hv eq_refl eq_refl eq_refl) as (_ & Hlast & _).
  split; [apply Hfirst; simpl; lra |].
  split; [apply Hlast; simpl; lra |].
  assert (Hbuild : interpolate_from_waypoints [w0; w1] "linear"
                     (Some (mk_datetime 0, mk_datetime 10)) None "primary" = Ok tr).
  { apply (two_waypoint_build_ok w0 w1 (mk_datetime 0) (mk_datetime 10));
      [reflexivity | reflexivity | simpl; lra]. }
  exact (proj2 (proj2 sample_position_at_policy w0 w1 (mk_datetime 0) (mk_datetime 10)
                  "primary"%string eq_refl eq_refl) None tr Hbuild).
Defined.

(** ** [np.linspace] and [sample_uniform] *)

Lemma linspace_nat_length (a b : R) (n : nat) : length (linspace_nat a b n) = n.
Proof.
  destruct n as [| [| n]]; try reflexivity.
  unfold linspace_nat. rewrite length_app, length_map, length_seq. simpl. lia.
Qed.

Lemma linspace_nat_last (a b : R) (n : nat) (d : R) :
  (2 <= n)%nat -> last (linspace_nat a b n) d = b.
Proof.
  intros Hn. destruct n as [| [| n]]; try lia.
  unfold linspace_nat. apply last_last.
Qed.

Lemma nth_map_in {A B : Type} (f : A -> B) (l : list A) (i : nat) (d : B) (d' : A) :
  (i < length l)%nat -> nth i (map f l) d = f (nth i l d').
Proof.
  revert i. induction l as [| a l IH]; intros i Hi; simpl in *; [lia |].
  destruct i as [| i]; [reflexivity | apply IH; lia].
Qed.

Lemma linspace_nat_nth (a b : R) (n i : nat) :
  (2 <= n)%nat -> (i < n)%nat ->
  nth i (linspace_nat a b n) 0 = a + INR i * ((b - a) / INR (n - 1)).
Proof.
  intros Hn Hi. destruct n as [| [| n]]; try lia.
  unfold linspace_nat. replace (S (S n) - 1)%nat with (S n) by lia.
  assert (Hpos : INR (S n) <> 0) by (apply not_0_INR; lia).
  destruct (Nat.eq_dec i (S n)) as [-> | Hne].
  - rewrite app_nth2 by (rewrite length_map, length_seq; lia).
    rewrite length_map, length_seq, Nat.sub_diag. simpl nth. field. exact Hpos.
  - rewrite app_nth1 by (rewrite length_map, length_seq; lia).
    rewrite (nth_map_in _ _ i 0 O) by (rewrite length_seq; lia).
    rewrite seq_nth by lia. simpl Nat.add. ring.
Qed.

Lemma stack3_map {A : Type} (f g h : A -> R) (l : list A) :
  stack3 (map f l) (map g l) (map h l) = map (fun a => (f a, g a, h a)) l.
Proof. induction l as [| a l IH]; simpl; [reflexivity | rewrite IH; reflexivity]. Qed.

Lemma last_map {A B : Type} (f : A -> B) (l : list A) (d : A) :
  last (map f l) (f d) = f (last l d).
Proof.
  induction l as [| a l IH]; [reflexivity |].
  destruct l as [| b l]; [reflexivity |]. exact IH.
Qed.

Lemma np_interp_val (v : R) (xp fp : list R) :
  length xp = length fp -> xp <> [] -> np_interp v xp fp = Ok (interp_val v xp fp).
Proof.
  intros Hlen Hne. unfold interp_val.
  destruct (np_interp_nonempty v xp fp Hlen Hne) as [r ->]. reflexivity.
Qed.

Lemma increasing_from_le_last (l : list R) (a u : R) :
  increasing_from a l -> In u (a :: l) -> u <= last l a.
Proof.
  revert a. induction l as [| b l IH]; intros a Hinc Hin.
  - destruct Hin as [-> | []]. simpl. lra.
  - destruct Hinc as [H1 H2]. rewrite last_cons_head.
    destruct Hin as [-> | Hin].
    + pose proof (increasing_from_last l b H2). lra.
    + apply IH; assumption.
Qed.

Lemma interp_val_at_end (t0 : R) (ts : list R) (f0 : R) (fs : list R) (v : R) :
  length ts = length fs -> increasing_from t0 ts -> last ts t0 <= v ->
  interp_val v (t0 :: ts) (f0 :: fs) = last fs f0.
Proof.
  intros Hlen Hinc Hv. unfold interp_val, np_interp.
  simpl length. rewrite Hlen, Nat.eqb_refl. cbn [negb].
  pose proof (increasing_from_last ts t0 Hinc).
  rewrite Rltb_false by lra.
  apply interp_scan_right; [assumption |].
  intros u Hu. pose proof (increasing_from_le_last ts t0 u Hinc (or_intror Hu)). lra.
Qed.

Lemma interp_val_at_start (t0 : R) (ts : list R) (f0 : R) (fs : list R) :
  length ts = length fs -> increasing_from t0 ts ->
  interp_val t0 (t0 :: ts) (f0 :: fs) = f0.
Proof.
  intros Hlen Hinc. unfold interp_val, np_interp.
  simpl length. rewrite Hlen, Nat.eqb_refl. cbn [negb].
  rewrite Rltb_false by lra.
  destruct ts as [| t1 ts]; destruct fs as [| f1 fs]; try discriminate; [reflexivity |].
  destruct Hinc as [H1 _]. cbn [interp_scan]. rewrite Rltb_true by assumption.
  replace (t0 - t0) with 0 by ring. ring.
Qed.

(** What [sample_uniform] returns on a trajectory that satisfies the
    invariant: the [np.linspace] grid and the interpolated rows. *)
Lemma sample_uniform_unfold (tr : Trajectory) (dt_s t0 t1 : R) :
  valid tr -> time_range tr = Ok (t0, t1) -> t0 < t1 -> 0 < dt_s ->
  (0 <= Rfloor ((t1 - t0) / dt_s))%Z /\
  let grid := linspace_nat t0 t1 (Z.to_nat (n_steps_of t0 t1 dt_s)) in
  sample_uniform tr dt_s =
  Ok (grid,
      map (fun tv => (interp_val tv (times tr) (map vx (positions tr)),
                      interp_val tv (times tr) (map vy (positions tr)),
                      interp_val tv (times tr) (map vz (positions tr)))) grid).
Proof.
  intros [Hlen Hinc] Htr Hlt Hdt.
  assert (Hfl : (0 <= Rfloor ((t1 - t0) / dt_s))%Z).
  { destruct (Rfloor_bounds ((t1 - t0) / dt_s)) as [_ Hb].
    assert (0 < (t1 - t0) / dt_s) by (apply Rdiv_lt_0_compat; lra).
    apply Z.lt_succ_r. apply lt_IZR. rewrite succ_IZR. lra. }
  split; [exact Hfl |].
  intros grid. unfold sample_uniform. rewrite Rleb_false by assumption.
  rewrite Htr. cbn [bind]. rewrite Rleb_false by assumption.
  unfold np_linspace. fold (n_steps_of t0 t1 dt_s).
  destruct (Z.ltb_spec (n_steps_of t0 t1 dt_s) 0) as [Hneg | _];
    [unfold n_steps_of in Hneg; lia |].
  cbn [bind]. fold grid.
  assert (Hne : times tr <> []).
  { intros E. unfold time_range in Htr. rewrite E in Htr. discriminate. }
  rewrite (mapM_total _ (fun tv => interp_val tv (times tr) (map vx (positions tr))))
    by (intros; apply np_interp_val; [rewrite length_map |]; assumption).
  cbn [bind].
  rewrite (mapM_total _ (fun tv => interp_val tv (times tr) (map vy (positions tr))))
    by (intros; apply np_interp_val; [rewrite length_map |]; assumption).
  cbn [bind].
  rewrite (mapM_total _ (fun tv => interp_val tv (times tr) (map vz (positions tr))))
    by (intros; apply np_interp_val; [rewrite length_map |]; assumption).
  cbn [bind]. rewrite stack3_map. reflexivity.
Qed.

Lemma linspace_nat_snoc (a b : R) (n : nat) :
  (2 <= n)%nat -> exists pre, linspace_nat a b n = pre ++ [b].
Proof.
  intros Hn. destruct n as [| [| n]]; try lia.
  unfold linspace_nat. eauto.
Qed.

Lemma sampled_row_at_end (tr : Trajectory) (t0 t1 : R) (pN : vec3) :
  valid tr -> time_range tr = Ok (t0, t1) -> index_last (positions tr) = Ok pN ->
  (interp_val t1 (times tr) (map vx (positions tr)),
   interp_val t1 (times tr) (map vy (positions tr)),
   interp_val t1 (times tr) (map vz (positions tr))) = pN.
Proof.
  intros [Hlen Hinc] Htr Hp. destruct tr as [ts ps fid]; simpl in *.
  destruct ts as [| u ts]; [discriminate |].
  destruct ps as [| q ps]; [discriminate |].
  unfold time_range in Htr. simpl in Htr, Hp, Hinc.
  injection Htr as -> <-. injection Hp as <-. injection Hlen as Hlen.
  cbn [map].
  rewrite !interp_val_at_end; try (rewrite length_map); try assumption; try lra.
  rewrite !last_map. destruct (last ps q) as [[a b] c]. reflexivity.
Qed.

Lemma sampled_row_at_start (tr : Trajectory) (t0 t1 : R) (p0 : vec3) :
  valid tr -> time_range tr = Ok (t0, t1) -> index_first (positions tr) = Ok p0 ->
  (interp_val t0 (times tr) (map vx (positions tr)),
   interp_val t0 (times tr) (map vy (positions tr)),
   interp_val t0 (times tr) (map vz (positions tr))) = p0.
Proof.
  intros [Hlen Hinc] Htr Hp. destruct tr as [ts ps fid]; simpl in *.
  destruct ts as [| u ts]; [discriminate |].
  destruct ps as [| q ps]; [discriminate |].
  unfold time_range in Htr. simpl in Htr, Hp, Hinc.
  injection Htr as -> _. injection Hp as <-. injection Hlen as Hlen.
  cbn [map].
  rewrite !interp_val_at_start; try (rewrite length_map); try assumption.
  destruct q as [[a b] c]. reflexivity.
Qed.

Lemma n_steps_long (t0 t1 dt_s : R) :
  0 < dt_s -> dt_s <= t1 - t0 -> (2 <= n_steps_of t0 t1 dt_s)%Z.
Proof.
  intros Hdt Hle. unfold n_steps_of.
  destruct (Rfloor_bounds ((t1 - t0) / dt_s)) as [_ Hb].
  assert (1 <= (t1 - t0) / dt_s).
  { apply Rmult_le_reg_r with dt_s; [assumption |].
    unfold Rdiv. rewrite Rmult_assoc, Rinv_l by lra. lra. }
  assert (0 < Rfloor ((t1 - t0) / dt_s))%Z; [| lia].
  apply lt_IZR. lra.
Qed.

Lemma n_steps_short (t0 t1 dt_s : R) :
  t0 < t1 -> t1 - t0 < dt_s -> n_steps_of t0 t1 dt_s = 1%Z.
Proof.
  intros Hlt Hsh. unfold n_steps_of.
  rewrite (Rfloor_unique _ 0); [reflexivity | |].
  - apply Rlt_le. apply Rdiv_lt_0_compat; lra.
  - apply Rmult_lt_reg_r with dt_s; [lra |].
    unfold Rdiv. rewrite Rmult_assoc, Rinv_l by lra. lra.
Qed.

(** C3 (amended).  On a trajectory satisfying the invariant, with
    [t0 < t1] and a positive step, [sample_uniform] returns
    [floor((t1 - t0) / dt) + 1] times and as many positions.  When the
    step does not exceed the duration the times are evenly spaced from
    [t0], the last one is exactly [t1] and the last position is the final
    recorded position.  When the duration is shorter than the step the
    grid is the single time [t0] and the only position is the first
    recorded one. *)
Theorem sample_uniform_grid :
  forall (tr : Trajectory) (dt_s t0 t1 : R) (p0 pN : vec3),
    valid tr -> time_range tr = Ok (t0, t1) ->
    index_first (positions tr) = Ok p0 -> index_last (positions tr) = Ok pN ->
    t0 < t1 -> 0 < dt_s ->
    exists (grid : list R) (poss : list vec3) (n : nat),
      sample_uniform tr dt_s = Ok (grid, poss) /\
      Z.of_nat n = (Rfloor ((t1 - t0) / dt_s) + 1)%Z /\
      length grid = n /\ length poss = n /\
      (dt_s <= t1 - t0 ->
       (forall i, (i < n)%nat ->
                  nth i grid 0 = t0 + INR i * ((t1 - t0) / INR (n - 1))) /\
       last grid 0 = t1 /\ last poss origin = pN) /\
      (t1 - t0 < dt_s -> grid = [t0] /\ poss = [p0]).
Proof.
  intros tr dt_s t0 t1 p0 pN Hv Htr Hp0 HpN Hlt Hdt.
  destruct (sample_uniform_unfold tr dt_s t0 t1 Hv Htr Hlt Hdt) as [Hfl Hsu].
  cbv zeta in Hsu.
  set (n := Z.to_nat (n_steps_of t0 t1 dt_s)) in *.
  eexists; eexists; exists n. split; [exact Hsu |].
  split; [unfold n, n_steps_of; lia |].
  split; [apply linspace_nat_length |].
  split; [rewrite length_map; apply linspace_nat_length |].
  split.
  - intros Hle. pose proof (n_steps_long t0 t1 dt_s Hdt Hle) as H2.
    assert (Hn : (2 <= n)%nat) by (unfold n; lia).
    split; [intros i Hi; apply linspace_nat_nth; assumption |].
    split; [apply linspace_nat_last; assumption |].
    destruct (linspace_nat_snoc t0 t1 n Hn) as [pre ->].
    rewrite map_app. cbn [map]. rewrite last_last.
    apply (sampled_row_at_end tr t0 t1 pN); assumption.
  - intros Hsh. unfold n. rewrite (n_steps_short t0 t1 dt_s Hlt Hsh).
    simpl. split; [reflexivity |].
    rewrite (sampled_row_at_start tr t0 t1 p0); trivial.
Qed.

Lemma sample_uniform_grid_witness :
  let tr := mk_Trajectory [0; 4] [(0, 0, 0); (4, 0, 0)] "primary"%string in
  exists (grid : list R) (poss : list vec3),
    sample_uniform tr 1 = Ok (grid, poss) /\
    length grid = 5%nat /\ last grid 0 = 4 /\ last poss origin = (4, 0, 0).
Proof.
  intros tr.
  assert (Hv : valid tr) by (split; [reflexivity | simpl; lra]).
  destruct (sample_uniform_grid tr 1 0 4 (0, 0, 0) (4, 0, 0) Hv eq_refl eq_refl eq_refl
              ltac:(lra) ltac:(lra))
    as (grid & poss & n & Hsu & Hn & Hlg & _ & Hlong & _).
  destruct (Hlong ltac:(lra)) as (_ & Hlast & Hpos).
  exists grid, poss. repeat split; try assumption.
  rewrite Hlg. apply Nat2Z.inj. rewrite Hn.
  rewrite (Rfloor_unique ((4 - 0) / 1) 4); [reflexivity | lra | lra].
Defined.

(** C3, as stated, fails when the duration is shorter than the step:
    [floor(0.5 / 1) + 1 = 1] and [np.linspace(0, 0.5, 1)] is the single
    time [0], so neither the last time nor the last position is the
    trajectory's. *)
Lemma sample_uniform_short_duration_counterexample :
  let tr := mk_Trajectory [0; 1 / 2] [(0, 0, 0); (1, 0, 0)] "primary"%string in
  Trajectory_new [0; 1 / 2] [(0, 0, 0); (1, 0, 0)] "primary" = Ok tr /\
  time_range tr = Ok (0, 1 / 2) /\
  index_last (positions tr) = Ok (1, 0, 0) /\
  sample_uniform tr 1 = Ok ([0], [(0, 0, 0)]) /\
  last [0] 0 <> 1 / 2 /\
  last [(0, 0, 0)] origin <> (1, 0, 0).
Proof.
  intros tr.
  assert (Hnew : Trajectory_new [0; 1 / 2] [(0, 0, 0); (1, 0, 0)] "primary" = Ok tr).
  { apply Trajectory_new_Ok. simpl. repeat split. lra. }
  assert (Hv : valid tr) by (apply Trajectory_new_valid in Hnew; tauto).
  split; [exact Hnew |]. split; [reflexivity |]. split; [reflexivity |].
  split.
  - destruct (sample_uniform_unfold tr 1 0 (1 / 2) Hv eq_refl ltac:(lra) ltac:(lra))
      as [_ Hsu].
    cbv zeta in Hsu. rewrite Hsu.
    rewrite (n_steps_short 0 (1 / 2) 1) by lra. simpl linspace_nat. cbn [map].
    rewrite (sampled_row_at_start tr 0 (1 / 2) (0, 0, 0) Hv eq_refl eq_refl).
    reflexivity.
  - split; [simpl; lra |]. simpl. intros E.
    apply (f_equal vx) in E. unfold vx in E. simpl in E. lra.
Qed.

(** ** The detector *)

Lemma combine_map_same {A B C : Type} (f : A -> B) (g : A -> C) (l : list A) :
  combine (map f l) (map g l) = map (fun a => (f a, g a)) l.
Proof. induction l as [| a l IH]; simpl; [reflexivity | rewrite IH; reflexivity]. Qed.

Lemma index_at_middle {A : Type} (pre suf : list A) (a : A) (n : nat) :
  length pre = n -> index_at (pre ++ a :: suf) n = Ok a.
Proof.
  intros <-. unfold index_at. rewrite nth_error_app2 by lia.
  rewrite Nat.sub_diag. reflexivity.
Qed.

Lemma sampled_row (tr : Trajectory) (tv : R) :
  well_formed tr ->
  (p <- sample_position_at tr (TFloat tv) ;; Ok (row_of p))
  = Ok (row_of (position_of tr tv)).
Proof.
  intros [Hne Hlen]. rewrite sample_position_at_position_of by assumption. reflexivity.
Qed.

Lemma time_range_well_formed (tr : Trajectory) :
  well_formed tr -> exists t0 t1, time_range tr = Ok (t0, t1).
Proof.
  intros [Hne _]. unfold nonempty in Hne. unfold time_range.
  destruct (times tr) as [| a l]; [contradiction |]. simpl. eauto.
Qed.

Section DetectorFacts.

Variable utc_isoformat : R -> string.
Variable format_2f : R -> string.
Variable format_list : list R -> string.

Lemma entries_of_indices (sim : Trajectory) (fp fs : R -> list R) (fd : R -> R)
      (bound : R) (suf pre : list R) :
  mapM (conflict_entry utc_isoformat format_2f format_list sim (pre ++ suf)
          (map fp (pre ++ suf)) (map fs (pre ++ suf)) (map fd (pre ++ suf)))
       (where_lt_from (length pre) (map fd suf) bound)
  = Ok (map (fun tv => conflict_details utc_isoformat format_2f format_list
                         sim tv (fp tv) (fs tv) (fd tv))
            (filter (fun tv => Rltb (fd tv) bound) suf)).
Proof.
  revert pre. induction suf as [| a suf IH]; intros pre; [reflexivity |].
  specialize (IH (pre ++ [a])).
  rewrite <- app_assoc, length_app in IH. simpl in IH.
  rewrite Nat.add_1_r in IH.
  cbn [map where_lt_from filter].
  destruct (Rltb (fd a) bound).
  - cbn [mapM]. rewrite IH.
    unfold conflict_entry at 1. rewrite !map_app. cbn [map].
    rewrite !index_at_middle by (try apply length_map; reflexivity).
    reflexivity.
  - exact IH.
Qed.

Lemma grid_conflicts_filter (primary sim : Trajectory) (bound : R) (use_3d : bool)
      (grid : list R) :
  well_formed primary -> well_formed sim ->
  grid_conflicts utc_isoformat format_2f format_list primary sim bound use_3d grid
  = Ok (map (record_at utc_isoformat format_2f format_list use_3d primary sim)
            (filter (fun tv => Rltb (distance_at use_3d primary sim tv) bound) grid)).
Proof.
  intros Hp Hs. unfold grid_conflicts.
  rewrite (mapM_total _ (fun tv => row_of (position_of primary tv)))
    by (intros; apply sampled_row; assumption).
  cbn [bind].
  rewrite (mapM_total _ (fun tv => row_of (position_of sim tv)))
    by (intros; apply sampled_row; assumption).
  cbn [bind]. cbv zeta.
  rewrite !map_map, combine_map_same, map_map. cbn [fst snd].
  unfold where_lt.
  exact (entries_of_indices sim
           (fun tv => row_of (position_of primary tv))
           (fun tv => row_of (position_of sim tv))
           (distance_at use_3d primary sim) bound grid []).
Qed.

Lemma intruder_no_overlap (primary sim : Trajectory) (p0 p1 s0 s1 bound dt : R)
      (use_3d : bool) :
  time_range sim = Ok (s0, s1) -> Rmin p1 s1 <= Rmax p0 s0 ->
  intruder_conflicts utc_isoformat format_2f format_list
    primary p0 p1 sim bound dt use_3d = Ok [].
Proof.
  intros Hs Hno. unfold intruder_conflicts. rewrite Hs. cbn [bind].
  rewrite py_max_Rmax, py_min_Rmin, Rleb_true by assumption. reflexivity.
Qed.

Lemma intruder_conflicts_filter (primary sim : Trajectory) (p0 p1 bound dt : R)
      (use_3d : bool) :
  well_formed primary -> well_formed sim ->
  time_range primary = Ok (p0, p1) -> dt <> 0 ->
  intruder_conflicts utc_isoformat format_2f format_list
    primary p0 p1 sim bound dt use_3d
  = Ok (map (record_at utc_isoformat format_2f format_list use_3d primary sim)
            (violating_instants use_3d primary sim bound dt)).
Proof.
  intros Hp Hs Htr Hdt.
  destruct (time_range_well_formed sim Hs) as (s0 & s1 & Hsr).
  unfold intruder_conflicts, violating_instants, sample_grid, overlap_of.
  rewrite Htr, Hsr. cbn [bind]. rewrite py_max_Rmax, py_min_Rmin.
  destruct (Rleb (Rmin p1 s1) (Rmax p0 s0)); [reflexivity |].
  unfold np_arange. rewrite Reqb_false by assumption. cbn [bind].
  destruct (map _ (seq 0 _)) as [| g0 grid] eqn:E; [reflexivity |].
  apply grid_conflicts_filter; assumption.
Qed.

Lemma detect_loop_flat_map (primary : Trajectory) (p0 p1 bound dt : R)
      (use_3d : bool) (F : Trajectory -> list Conflict) (sims : list Trajectory) :
  (forall sim, In sim sims ->
               intruder_conflicts utc_isoformat format_2f format_list
                 primary p0 p1 sim bound dt use_3d = Ok (F sim)) ->
  forall acc,
    detect_loop utc_isoformat format_2f format_list
      primary p0 p1 sims bound dt use_3d acc = Ok (acc ++ flat_map F sims).
Proof.
  induction sims as [| sim sims IH]; intros HF acc.
  - simpl. rewrite app_nil_r. reflexivity.
  - cbn [detect_loop flat_map]. rewrite (HF sim) by (left; reflexivity).
    cbn [bind]. rewrite IH by (intros; apply HF; right; assumption).
    rewrite app_assoc. reflexivity.
Qed.

Lemma report_of_found (primary : Trajectory) (sims : list Trajectory)
      (p0 p1 bound dt : R) (use_3d : bool) (found : list Conflict) :
  time_range primary = Ok (p0, p1) ->
  detect_loop utc_isoformat format_2f format_list
    primary p0 p1 sims bound dt use_3d [] = Ok found ->
  exists report,
    check_spatiotemporal_conflicts utc_isoformat format_2f format_list
      primary sims bound dt use_3d = Ok report /\
    conflicts report = found /\
    (status report = conflict <-> found <> []) /\
    (status report = clear <-> found = []).
Proof.
  intros Htr Hloop. unfold check_spatiotemporal_conflicts.
  rewrite Htr. cbn [bind]. rewrite Hloop. cbn [bind].
  destruct found as [| c found]; eexists; (split; [reflexivity |]); simpl;
    repeat split; try reflexivity; try discriminate; try congruence.
Qed.

Lemma min_distance_record_at (use_3d : bool) (primary sim : Trajectory) (tv : R) :
  min_distance_m (record_at utc_isoformat format_2f format_list use_3d primary sim tv)
  = distance_at use_3d primary sim tv.
Proof. reflexivity. Qed.

(** C1.  On well-formed trajectories and a non-zero step the report lists,
    in intruder order and then grid order, exactly one record for each
    grid instant whose separation is strictly under the buffer.  Hence a
    grid instant of an intruder has its record in the report if and only
    if its separation is strictly under the buffer; every record's
    [min_distance_m] is strictly under the buffer and carries a single
    instant and a single position pair; the number of records is the
    number of violating instants; an instant at exactly the buffer has no
    record. *)
Theorem conflict_record_iff_under_buffer :
  forall (primary : Trajectory) (sims : list Trajectory)
         (safety_buffer_m dt : R) (use_3d : bool),
    well_formed primary -> Forall well_formed sims -> dt <> 0 ->
    exists report,
      check_spatiotemporal_conflicts utc_isoformat format_2f format_list
        primary sims safety_buffer_m dt use_3d = Ok report /\
      conflicts report =
        flat_map (fun sim =>
                    map (record_at utc_isoformat format_2f format_list
                           use_3d primary sim)
                        (violating_instants use_3d primary sim safety_buffer_m dt))
                 sims /\
      (forall sim tv,
          In sim sims -> In tv (sample_grid primary sim dt) ->
          (In (record_at utc_isoformat format_2f format_list use_3d primary sim tv)
              (conflicts report)
           <-> distance_at use_3d primary sim tv < safety_buffer_m)) /\
      Forall (fun c => min_distance_m c < safety_buffer_m /\
                       length (conflict_times c) = 1%nat /\
                       length (conflict_positions c) = 1%nat)
             (conflicts report) /\
      length (conflicts report) =
        list_sum (map (fun sim =>
                         length (violating_instants use_3d primary sim
                                   safety_buffer_m dt)) sims) /\
      (forall sim tv,
          In sim sims -> In tv (sample_grid primary sim dt) ->
          distance_at use_3d primary sim tv = safety_buffer_m ->
          ~ In (record_at utc_isoformat format_2f format_list use_3d primary sim tv)
               (conflicts report)).
Proof.
  intros primary sims bound dt use_3d Hp Hsims Hdt.
  destruct (time_range_well_formed primary Hp) as (p0 & p1 & Htr).
  set (F := fun sim =>
              map (record_at utc_isoformat format_2f format_list use_3d primary sim)
                  (violating_instants use_3d primary sim bound dt)).
  assert (Hloop : detect_loop utc_isoformat format_2f format_list
                    primary p0 p1 sims bound dt use_3d [] = Ok (flat_map F sims)).
  { rewrite (detect_loop_flat_map primary p0 p1 bound dt use_3d F); [reflexivity |].
    intros sim Hin. apply intruder_conflicts_filter; trivial.
    rewrite Forall_forall in Hsims. apply Hsims. exact Hin. }
  destruct (report_of_found primary sims p0 p1 bound dt use_3d _ Htr Hloop)
    as (report & Hrep & Hconf & _).
  exists report. split; [exact Hrep |]. rewrite Hconf.
  assert (Hiff : forall sim tv,
             In sim sims -> In tv (sample_grid primary sim dt) ->
             (In (record_at utc_isoformat format_2f format_list use_3d primary sim tv)
                 (flat_map F sims)
              <-> distance_at use_3d primary sim tv < bound)).
  { intros sim tv Hin Hgrid. rewrite in_flat_map. split.
    - intros (sim' & _ & Hrec). unfold F in Hrec. apply in_map_iff in Hrec.
      destruct Hrec as (tv' & Heq & Hviol).
      unfold violating_instants in Hviol. apply filter_In in Hviol.
      destruct Hviol as [_ Hlt]. apply Rltb_spec in Hlt.
      apply (f_equal min_distance_m) in Heq.
      rewrite !min_distance_record_at in Heq. lra.
    - intros Hlt. exists sim. split; [exact Hin |].
      unfold F. apply in_map. unfold violating_instants. apply filter_In.
      split; [exact Hgrid | apply Rltb_true; exact Hlt]. }
  split; [reflexivity |]. split; [exact Hiff |]. split.
  - apply Forall_forall. intros c Hc. apply in_flat_map in Hc.
    destruct Hc as (sim & _ & Hc). unfold F in Hc. apply in_map_iff in Hc.
    destruct Hc as (tv & <- & Hviol).
    unfold violating_instants in Hviol. apply filter_In in Hviol.
    destruct Hviol as [_ Hlt]. apply Rltb_spec in Hlt.
    rewrite min_distance_record_at. auto.
  - split.
    + clear. induction sims as [| sim sims IH]; [reflexivity |].
      cbn [flat_map map list_sum]. rewrite length_app, IH.
      unfold F at 1. rewrite length_map. reflexivity.
    + intros sim tv Hin Hgrid Heq Hrec.
      apply (Hiff sim tv Hin Hgrid) in Hrec. lra.
Qed.

Lemma detect_loop_app (primary : Trajectory) (p0 p1 bound dt : R) (use_3d : bool)
      (l1 l2 : list Trajectory) (acc : list Conflict) :
  detect_loop utc_isoformat format_2f format_list
    primary p0 p1 (l1 ++ l2) bound dt use_3d acc
  = (mid <- detect_loop utc_isoformat format_2f format_list
              primary p0 p1 l1 bound dt use_3d acc ;;
     detect_loop utc_isoformat format_2f format_list
       primary p0 p1 l2 bound dt use_3d mid).
Proof.
  revert acc. induction l1 as [| sim l1 IH]; intros acc; [reflexivity |].
  cbn [app detect_loop].
  destruct (intruder_conflicts _ _ _ primary p0 p1 sim bound dt use_3d) as [found | e];
    [cbn [bind]; apply IH | reflexivity].
Qed.

(** C2.  An intruder whose overlap with the primary is empty or inverted
    leaves the report unchanged, whatever the step, the buffer and the
    positions: the detector answers as if the intruder were not in the
    list.  When no intruder overlaps the primary the report is [clear]
    with no conflict. *)
Theorem no_overlap_no_conflict :
  (forall (primary : Trajectory) (before : list Trajectory) (sim : Trajectory)
          (after : list Trajectory) (safety_buffer_m dt : R) (use_3d : bool)
          (p0 p1 s0 s1 : R),
      time_range primary = Ok (p0, p1) -> time_range sim = Ok (s0, s1) ->
      Rmin p1 s1 <= Rmax p0 s0 ->
      intruder_conflicts utc_isoformat format_2f format_list
        primary p0 p1 sim safety_buffer_m dt use_3d = Ok [] /\
      check_spatiotemporal_conflicts utc_isoformat format_2f format_list
        primary (before ++ sim :: after) safety_buffer_m dt use_3d
      = check_spatiotemporal_conflicts utc_isoformat format_2f format_list
          primary (before ++ after) safety_buffer_m dt use_3d)
  /\
  (forall (primary : Trajectory) (sims : list Trajectory)
          (safety_buffer_m dt : R) (use_3d : bool) (p0 p1 : R),
      time_range primary = Ok (p0, p1) ->
      Forall (fun sim => exists s0 s1, time_range sim = Ok (s0, s1) /\
                                       Rmin p1 s1 <= Rmax p0 s0) sims ->
      check_spatiotemporal_conflicts utc_isoformat format_2f format_list
        primary sims safety_buffer_m dt use_3d = Ok (mk_Report clear [])).
Proof.
  split.
  - intros primary before sim after bound dt use_3d p0 p1 s0 s1 Hp Hs Hno.
    pose proof (intruder_no_overlap primary sim p0 p1 s0 s1 bound dt use_3d Hs Hno) as Hskip.
    split; [exact Hskip |].
    unfold check_spatiotemporal_conflicts. rewrite Hp. cbn [bind].
    rewrite !detect_loop_app.
    destruct (detect_loop _ _ _ primary p0 p1 before bound dt use_3d []) as [mid | e];
      [| reflexivity].
    cbn [bind detect_loop]. rewrite Hskip. cbn [bind]. rewrite app_nil_r. reflexivity.
  - intros primary sims bound dt use_3d p0 p1 Hp Hall.
    unfold check_spatiotemporal_conflicts. rewrite Hp. cbn [bind].
    rewrite (detect_loop_flat_map primary p0 p1 bound dt use_3d (fun _ => [])).
    + cbn [app]. replace (flat_map (fun _ : Trajectory => @nil Conflict) sims) with (@nil Conflict);
        [reflexivity |].
      clear. induction sims as [| sim sims IH]; [reflexivity | exact IH].
    + intros sim Hin. rewrite Forall_forall in Hall.
      destruct (Hall sim Hin) as (s0 & s1 & Hs & Hno).
      apply (intruder_no_overlap primary sim p0 p1 s0 s1); assumption.
Qed.

(** ** Overlaps shorter than the step *)

Lemma np_arange_positive_head (a b dt : R) :
  a < b -> 0 < dt -> exists rest, np_arange a b dt = Ok (a :: rest).
Proof.
  intros Hab Hdt. unfold np_arange. rewrite Reqb_false by lra.
  destruct (Rceil_bounds ((b - a) / dt)) as [_ Hub].
  assert (Hpos : 0 < (b - a) / dt) by (apply Rdiv_lt_0_compat; lra).
  assert (Hc : (0 < Rceil ((b - a) / dt))%Z) by (apply lt_IZR; lra).
  destruct (Z.to_nat (Rceil ((b - a) / dt))) as [| m] eqn:E; [lia |].
  cbn [seq map]. eexists. f_equal. f_equal. simpl. ring.
Qed.

Lemma np_arange_short (a b dt : R) :
  a < b -> b - a < dt -> np_arange a b dt = Ok [a].
Proof.
  intros Hab Hsh. unfold np_arange. rewrite Reqb_false by lra.
  rewrite (Rceil_unique _ 1).
  - simpl. f_equal. f_equal. ring.
  - simpl. replace (1 - 1) with 0 by ring. apply Rdiv_lt_0_compat; lra.
  - apply Rmult_le_reg_r with dt; [lra |].
    unfold Rdiv. rewrite Rmult_assoc, Rinv_l by lra. lra.
Qed.

Lemma np_arange_negative_step (a b dt : R) :
  a < b -> dt < 0 -> np_arange a b dt = Ok [].
Proof.
  intros Hab Hdt. unfold np_arange. rewrite Reqb_false by lra.
  destruct (Rceil_bounds ((b - a) / dt)) as [Hlb _].
  assert (Hneg : (b - a) / dt < 0).
  { unfold Rdiv. apply Rmult_pos_neg; [lra | apply Rinv_lt_0_compat; exact Hdt]. }
  assert (Hc : (Rceil ((b - a) / dt) <= 0)%Z).
  { apply Z.lt_succ_r. apply lt_IZR. rewrite succ_IZR. lra. }
  replace (Z.to_nat (Rceil ((b - a) / dt))) with O by lia. reflexivity.
Qed.

(** C4 (amended).  When the overlap of an intruder with the primary is
    non-empty but shorter than the step, the grid over the half-open
    overlap is the single instant [overlap_start]; the intruder
    contributes one record if its separation at that instant is strictly
    under the buffer and none otherwise.  For a positive step the grid
    over a non-empty overlap always starts with [overlap_start]; it is
    empty for a negative step. *)
Theorem short_overlap_single_instant :
  forall (primary sim : Trajectory) (safety_buffer_m dt : R) (use_3d : bool)
         (p0 p1 s0 s1 : R),
    well_formed primary -> well_formed sim ->
    time_range primary = Ok (p0, p1) -> time_range sim = Ok (s0, s1) ->
    let overlap_start := Rmax p0 s0 in
    let overlap_end := Rmin p1 s1 in
    overlap_start < overlap_end ->
    (overlap_end - overlap_start < dt ->
     np_arange overlap_start overlap_end dt = Ok [overlap_start] /\
     intruder_conflicts utc_isoformat format_2f format_list
       primary p0 p1 sim safety_buffer_m dt use_3d
     = Ok (if Rltb (distance_at use_3d primary sim overlap_start) safety_buffer_m
           then [record_at utc_isoformat format_2f format_list use_3d
                   primary sim overlap_start]
           else [])) /\
    (0 < dt -> exists rest,
        np_arange overlap_start overlap_end dt = Ok (overlap_start :: rest)) /\
    (dt < 0 -> np_arange overlap_start overlap_end dt = Ok []).
Proof.
  intros primary sim bound dt use_3d p0 p1 s0 s1 Hp Hs Hpr Hsr a b Hab.
  split; [| split].
  - intros Hsh. pose proof (np_arange_short a b dt Hab Hsh) as Hgrid.
    split; [exact Hgrid |].
    rewrite (intruder_conflicts_filter primary sim p0 p1 bound dt use_3d Hp Hs Hpr)
      by lra.
    unfold violating_instants, sample_grid, overlap_of. rewrite Hpr, Hsr.
    fold a b. rewrite Rleb_false by assumption. rewrite Hgrid.
    cbn [filter]. destruct (Rltb _ bound); reflexivity.
  - intros Hdt. apply np_arange_positive_head; assumption.
  - intros Hdt. apply np_arange_negative_step; assumption.
Qed.

End DetectorFacts.

(** ** The detector on the scenarios *)

Lemma check_single_intruder (iso f2 : R -> string) (fl : list R -> string)
      (primary sim : Trajectory) (bound dt p0 p1 : R) (use_3d : bool)
      (found : list Conflict) :
  time_range primary = Ok (p0, p1) ->
  intruder_conflicts iso f2 fl primary p0 p1 sim bound dt use_3d = Ok found ->
  check_spatiotemporal_conflicts iso f2 fl primary [sim] bound dt use_3d
  = Ok (match found with
        | _ :: _ => mk_Report conflict found
        | [] => mk_Report clear []
        end).
Proof.
  intros Hp Hf. unfold check_spatiotemporal_conflicts. rewrite Hp.
  cbn [bind detect_loop]. rewrite Hf. cbn [bind app].
  destruct found; reflexivity.
Qed.

Lemma position_of_two_points (a b tv : R) (p q : vec3) (fid : string) :
  a <= tv < b ->
  position_of (mk_Trajectory [a; b] [p; q] fid) tv = lerp3 a b p q tv.
Proof.
  intros Htv. unfold position_of.
  rewrite (sample_segment _ _ O); [reflexivity | | simpl; lia | simpl; lra].
  split; [reflexivity | simpl; lra].
Qed.

Lemma separation_planar (p s : vec3) :
  separation false p s
  = sqrt ((vx p - vx s) * (vx p - vx s) + (vy p - vy s) * (vy p - vy s)).
Proof.
  unfold separation, norm_row, np_sum. simpl. f_equal. ring.
Qed.

Lemma separation_spatial (p s : vec3) :
  separation true p s
  = sqrt ((vx p - vx s) * (vx p - vx s) + (vy p - vy s) * (vy p - vy s)
          + (vz p - vz s) * (vz p - vz s)).
Proof.
  unfold separation, norm_row, np_sum. simpl. f_equal. ring.
Qed.

Lemma sqrt_of_zero (e : R) : e = 0 -> sqrt e = 0.
Proof. intros ->. apply sqrt_0. Qed.

Lemma overlap_of_ranges (primary sim : Trajectory) (p0 p1 s0 s1 : R) :
  time_range primary = Ok (p0, p1) -> time_range sim = Ok (s0, s1) ->
  overlap_of primary sim = Some (Rmax p0 s0, Rmin p1 s1).
Proof. intros Hp Hs. unfold overlap_of. rewrite Hp, Hs. reflexivity. Qed.

Lemma crossing_well_formed : well_formed crossing_primary /\ well_formed crossing_sim.
Proof. repeat split; discriminate. Qed.

Lemma crossing_grid_has_5 : In 5 (sample_grid crossing_primary crossing_sim 1).
Proof.
  unfold sample_grid.
  rewrite (overlap_of_ranges crossing_primary crossing_sim 0 10 0 10 eq_refl eq_refl).
  assert (E0 : Rmax 0 0 = 0) by (apply Rmax_left; lra).
  assert (E1 : Rmin 10 10 = 10) by (apply Rmin_left; lra).
  rewrite E0, E1. rewrite Rleb_false by lra.
  unfold np_arange. rewrite Reqb_false by lra.
  rewrite (Rceil_unique _ 10) by lra.
  apply in_map_iff. exists 5%nat. split; [simpl; lra |].
  apply in_seq. simpl. lia.
Qed.

Lemma crossing_distance_at_5 : distance_at false crossing_primary crossing_sim 5 = 0.
Proof.
  unfold distance_at, crossing_primary, crossing_sim.
  rewrite !position_of_two_points by lra.
  rewrite separation_planar. unfold lerp3, lerp, vx, vy; simpl.
  apply sqrt_of_zero. field.
Qed.

Lemma conflict_record_iff_under_buffer_witness :
  exists report,
    check_spatiotemporal_conflicts no_text no_text no_text
      crossing_primary [crossing_sim] 1 1 false = Ok report /\
    In (record_at no_text no_text no_text false crossing_primary crossing_sim 5)
       (conflicts report) /\
    Forall (fun c => min_distance_m c < 1) (conflicts report).
Proof.
  destruct (conflict_record_iff_under_buffer no_text no_text no_text
              crossing_primary [crossing_sim] 1 1 false
              (proj1 crossing_well_formed)
              (Forall_cons _ (proj2 crossing_well_formed) (Forall_nil _))
              R1_neq_R0)
    as (report & Hrun & _ & Hiff & Hall & _).
  exists report. split; [exact Hrun |]. split.
  - apply Hiff; [left; reflexivity | exact crossing_grid_has_5 |].
    rewrite crossing_distance_at_5. lra.
  - revert Hall. apply Forall_impl. intros c (H & _). exact H.
Defined.

Lemma no_overlap_no_conflict_witness :
  check_spatiotemporal_conflicts no_text no_text no_text
    crossing_primary [late_sim] 1 1 false = Ok (mk_Report clear []).
Proof.
  apply (proj2 (no_overlap_no_conflict no_text no_text no_text)
           crossing_primary [late_sim] 1 1 false 0 10 eq_refl).
  constructor; [| constructor].
  exists 20, 30. split; [reflexivity |].
  rewrite Rmin_left, Rmax_right by lra. lra.
Defined.

Lemma brief_well_formed : well_formed brief_primary /\ well_formed brief_sim.
Proof. repeat split; discriminate. Qed.

Lemma brief_overlap : Rmax 0 0 = 0 /\ Rmin (1 / 2) (1 / 2) = 1 / 2.
Proof. split; [apply Rmax_left | apply Rmin_left]; lra. Qed.

Lemma brief_distance_at_0 : distance_at false brief_primary brief_sim 0 = 0.
Proof.
  unfold distance_at, brief_primary, brief_sim.
  rewrite !position_of_two_points by lra.
  rewrite separation_planar. unfold lerp3, lerp, vx, vy; simpl.
  apply sqrt_of_zero. field.
Qed.

Lemma short_overlap_single_instant_witness :
  np_arange 0 (1 / 2) 1 = Ok [0] /\
  intruder_conflicts no_text no_text no_text
    brief_primary 0 (1 / 2) brief_sim 1 1 false
  = Ok [record_at no_text no_text no_text false brief_primary brief_sim 0].
Proof.
  destruct brief_overlap as [E0 E1].
  destruct (short_overlap_single_instant no_text no_text no_text
              brief_primary brief_sim 1 1 false 0 (1 / 2) 0 (1 / 2)
              (proj1 brief_well_formed) (proj2 brief_well_formed) eq_refl eq_refl)
    as (Hshort & _); [rewrite E0, E1; lra |].
  rewrite E0, E1 in Hshort.
  destruct Hshort as [Hgrid Hrec]; [lra |].
  split; [exact Hgrid |].
  rewrite Hrec, brief_distance_at_0, Rltb_true by lra. reflexivity.
Defined.

(** C4, as stated, fails: with an overlap of half a second and a step of
    one second [np.arange(0, 0.5, 1)] is [[0]], not empty, and the
    intruder, which is at the primary's position at that instant,
    contributes a record. *)
Lemma short_overlap_counterexample :
  time_range brief_primary = Ok (0, 1 / 2) /\
  time_range brief_sim = Ok (0, 1 / 2) /\
  py_max 0 0 < py_min (1 / 2) (1 / 2) /\
  py_min (1 / 2) (1 / 2) - py_max 0 0 < 1 /\
  np_arange (py_max 0 0) (py_min (1 / 2) (1 / 2)) 1 = Ok [0] /\
  check_spatiotemporal_conflicts no_text no_text no_text
    brief_primary [brief_sim] 1 1 false
  = Ok (mk_Report conflict
          [record_at no_text no_text no_text false brief_primary brief_sim 0]) /\
  min_distance_m (record_at no_text no_text no_text false brief_primary brief_sim 0) = 0.
Proof.
  destruct brief_overlap as [E0 E1].
  rewrite py_max_Rmax, py_min_Rmin, E0, E1.
  split; [reflexivity |]. split; [reflexivity |].
  split; [lra |]. split; [lra |].
  assert (Hgrid : np_arange 0 (1 / 2) 1 = Ok [0]) by (apply np_arange_short; lra).
  split; [exact Hgrid |]. split.
  - rewrite (check_single_intruder no_text no_text no_text brief_primary brief_sim
               1 1 0 (1 / 2) false
               [record_at no_text no_text no_text false brief_primary brief_sim 0]);
      [reflexivity | reflexivity |].
    rewrite (intruder_conflicts_filter no_text no_text no_text brief_primary brief_sim
               0 (1 / 2) 1 1 false
               (proj1 brief_well_formed) (proj2 brief_well_formed) eq_refl)
      by lra.
    unfold violating_instants, sample_grid.
    rewrite (overlap_of_ranges brief_primary brief_sim 0 (1 / 2) 0 (1 / 2) eq_refl eq_refl).
    rewrite E0, E1, Rleb_false by lra. rewrite Hgrid. cbn [filter].
    rewrite brief_distance_at_0, Rltb_true by lra. reflexivity.
  - rewrite min_distance_record_at. apply brief_distance_at_0.
Qed.

(** ** Window-derived timing *)

Lemma strictly_increasing_nth (l : list R) :
  strictly_increasing l <->
  (forall i, (S i < length l)%nat -> nth i l 0 < nth (S i) l 0).
Proof.
  destruct l as [| a l]; [simpl; split; [intros _ i Hi; lia | trivial] |].
  revert a. induction l as [| b l IH]; intros a.
  - simpl. split; [intros _ i Hi; lia | trivial].
  - change (strictly_increasing (a :: b :: l))
      with (a < b /\ strictly_increasing (b :: l)).
    rewrite IH. split.
    + intros [Hab Hrest] i Hi. destruct i as [| i]; [exact Hab |].
      apply (Hrest i). simpl in *. lia.
    + intros H. split; [apply (H O); simpl; lia |].
      intros i Hi. apply (H (S i)). simpl in *. lia.
Qed.

Lemma cumsum_from_length (l : list R) (acc : R) :
  length (cumsum_from acc l) = length l.
Proof.
  revert acc. induction l as [| a l IH]; intros acc; simpl; [reflexivity |].
  rewrite IH. reflexivity.
Qed.

Lemma cumsum_from_step (l : list R) (acc : R) (i : nat) :
  (i < length l)%nat ->
  nth (S i) (acc :: cumsum_from acc l) 0
  = nth i (acc :: cumsum_from acc l) 0 + nth i l 0.
Proof.
  revert acc i. induction l as [| a l IH]; intros acc i Hi; [simpl in Hi; lia |].
  destruct i as [| i]; [reflexivity |].
  change (nth (S (S i)) (acc :: cumsum_from acc (a :: l)) 0)
    with (nth (S i) ((acc + a) :: cumsum_from (acc + a) l) 0).
  rewrite IH by (simpl in Hi; lia). reflexivity.
Qed.

Lemma np_diff_rows_length (ps : list vec3) :
  length (np_diff_rows ps) = (length ps - 1)%nat.
Proof.
  destruct ps as [| a ps]; [reflexivity |].
  revert a. induction ps as [| b ps IH]; intros a; [reflexivity |].
  change (np_diff_rows (a :: b :: ps))
    with ((vx b - vx a, vy b - vy a, vz b - vz a) :: np_diff_rows (b :: ps)).
  cbn [length]. rewrite IH. cbn [length]. lia.
Qed.

Lemma np_diff_rows_nth (ps : list vec3) (i : nat) :
  (S i < length ps)%nat ->
  nth i (np_diff_rows ps) origin
  = (vx (nth (S i) ps origin) - vx (nth i ps origin),
     vy (nth (S i) ps origin) - vy (nth i ps origin),
     vz (nth (S i) ps origin) - vz (nth i ps origin)).
Proof.
  revert i. induction ps as [| a ps IH]; intros i Hi; [simpl in Hi; lia |].
  destruct ps as [| b ps]; [simpl in Hi; lia |].
  destruct i as [| i]; [reflexivity |].
  change (np_diff_rows (a :: b :: ps))
    with ((vx b - vx a, vy b - vy a, vz b - vz a) :: np_diff_rows (b :: ps)).
  change (nth (S i) (_ :: np_diff_rows (b :: ps)) origin)
    with (nth i (np_diff_rows (b :: ps)) origin).
  rewrite IH by (simpl in Hi |- *; lia). reflexivity.
Qed.

Lemma seg_lengths_length (ps : list vec3) :
  length (seg_lengths_of ps) = (length ps - 1)%nat.
Proof. unfold seg_lengths_of. rewrite length_map. apply np_diff_rows_length. Qed.

Lemma norm3_nonneg (d : vec3) : 0 <= norm3 d.
Proof. apply sqrt_pos. Qed.

Lemma norm3_zero (d : vec3) : d = origin -> norm3 d = 0.
Proof.
  intros ->. unfold norm3, origin, vx, vy, vz; simpl.
  apply sqrt_of_zero. ring.
Qed.

Lemma norm3_positive (d : vec3) : d <> origin -> 0 < norm3 d.
Proof.
  intros Hne. unfold norm3. apply sqrt_lt_R0.
  destruct d as [[a b] c]. unfold vx, vy, vz; simpl.
  destruct (Req_dec a 0) as [-> | Ha]; [| nra].
  destruct (Req_dec b 0) as [-> | Hb]; [| nra].
  destruct (Req_dec c 0) as [-> | Hc]; [| nra].
  exfalso. apply Hne. reflexivity.
Qed.

Lemma seg_length_nth (ps : list vec3) (i : nat) :
  (S i < length ps)%nat ->
  nth i (seg_lengths_of ps) 0
  = norm3 (vx (nth (S i) ps origin) - vx (nth i ps origin),
           vy (nth (S i) ps origin) - vy (nth i ps origin),
           vz (nth (S i) ps origin) - vz (nth i ps origin)).
Proof.
  intros Hi. unfold seg_lengths_of.
  rewrite (nth_map_in norm3 _ i 0 origin) by (rewrite np_diff_rows_length; lia).
  rewrite np_diff_rows_nth by assumption. reflexivity.
Qed.

Lemma seg_length_coincident (ps : list vec3) (i : nat) :
  (S i < length ps)%nat -> nth i ps origin = nth (S i) ps origin ->
  nth i (seg_lengths_of ps) 0 = 0.
Proof.
  intros Hi Heq. rewrite seg_length_nth by assumption. rewrite Heq.
  apply norm3_zero. unfold origin. f_equal; [f_equal |]; ring.
Qed.

Lemma consecutive_distinct_nth (ps : list vec3) (i : nat) :
  consecutive_distinct ps -> (S i < length ps)%nat ->
  nth i ps origin <> nth (S i) ps origin.
Proof.
  revert i. induction ps as [| a ps IH]; intros i Hd Hi; [simpl in Hi; lia |].
  destruct ps as [| b ps]; [simpl in Hi; lia |].
  destruct Hd as [Hab Hd]. destruct i as [| i]; [exact Hab |].
  apply (IH i Hd). simpl in Hi |- *. lia.
Qed.

Lemma seg_length_distinct (ps : list vec3) (i : nat) :
  consecutive_distinct ps -> (S i < length ps)%nat ->
  0 < nth i (seg_lengths_of ps) 0.
Proof.
  intros Hd Hi. rewrite seg_length_nth by assumption.
  apply norm3_positive. intros E.
  apply (consecutive_distinct_nth ps i Hd Hi).
  destruct (nth i ps origin) as [[a b] c], (nth (S i) ps origin) as [[a' b'] c'].
  unfold origin, vx, vy, vz in E; simpl in E.
  injection E as E1 E2 E3. f_equal; [f_equal |]; lra.
Qed.

Lemma proportional_times_length (ps : list vec3) (start_s duration_s : R) :
  (1 <= length ps)%nat ->
  length (proportional_times ps start_s duration_s) = length ps.
Proof.
  intros Hn. unfold proportional_times, np_cumsum.
  rewrite !length_map. simpl. rewrite cumsum_from_length, seg_lengths_length. lia.
Qed.

Lemma proportional_times_step (ps : list vec3) (start_s duration_s : R) (i : nat) :
  (S i < length ps)%nat ->
  nth (S i) (proportional_times ps start_s duration_s) 0
  - nth i (proportional_times ps start_s duration_s) 0
  = nth i (seg_lengths_of ps) 0 / np_sum (seg_lengths_of ps) * duration_s.
Proof.
  intros Hi. unfold proportional_times, np_cumsum.
  assert (Hlen : length (0 :: cumsum_from 0 (seg_lengths_of ps)) = length ps).
  { simpl. rewrite cumsum_from_length, seg_lengths_length. lia. }
  rewrite !map_map.
  rewrite (nth_map_in _ _ (S i) 0 0) by (rewrite Hlen; lia).
  rewrite (nth_map_in _ _ i 0 0) by (rewrite Hlen; lia).
  rewrite cumsum_from_step by (rewrite seg_lengths_length; lia).
  unfold Rdiv. ring.
Qed.

Lemma window_mode (wps : list Waypoint) (w : datetime * datetime)
      (max_speed_mps : option R) (fid : string) :
  existsb has_t wps = false -> (2 <= length wps)%nat ->
  interpolate_from_waypoints wps "linear" (Some w) max_speed_mps fid
  = (ts <- _compute_times_from_window (_waypoints_to_positions wps) w max_speed_mps ;;
     Trajectory_new ts (_waypoints_to_positions wps) fid).
Proof.
  intros Hnone Hlen. unfold interpolate_from_waypoints.
  cbn [String.eqb Ascii.eqb Bool.eqb negb].
  destruct (Nat.ltb_spec (length wps) 2) as [Hlt | _]; [lia |].
  rewrite Hnone. reflexivity.
Qed.

Lemma compute_times_proportional (ps : list vec3) (start_dt end_dt : datetime)
      (max_speed_mps : option R) :
  0 < timestamp end_dt - timestamp start_dt ->
  0 < np_sum (seg_lengths_of ps) ->
  match max_speed_mps with
  | Some m => required_speed ps (timestamp end_dt - timestamp start_dt)
              <= m + 1 / 1000000
  | None => True
  end ->
  _compute_times_from_window ps (start_dt, end_dt) max_speed_mps
  = Ok (proportional_times ps (timestamp start_dt)
          (timestamp end_dt - timestamp start_dt)).
Proof.
  intros Hdur Htot Hspeed. unfold _compute_times_from_window.
  rewrite Rleb_false by assumption. rewrite Rleb_false by assumption.
  destruct max_speed_mps as [m |].
  - unfold required_speed in Hspeed. rewrite Rltb_false by assumption. reflexivity.
  - reflexivity.
Qed.

Lemma compute_times_too_fast (ps : list vec3) (start_dt end_dt : datetime) (m : R) :
  0 < timestamp end_dt - timestamp start_dt ->
  0 < np_sum (seg_lengths_of ps) ->
  m + 1 / 1000000 < required_speed ps (timestamp end_dt - timestamp start_dt) ->
  _compute_times_from_window ps (start_dt, end_dt) (Some m)
  = Err (ValueError "Required speed exceeds max_speed_mps").
Proof.
  intros Hdur Htot Hspeed. unfold _compute_times_from_window.
  rewrite Rleb_false by assumption. rewrite Rleb_false by assumption.
  unfold required_speed in Hspeed. rewrite Rltb_true by assumption. reflexivity.
Qed.

Lemma compute_times_Ok_positive (ps : list vec3) (start_dt end_dt : datetime)
      (max_speed_mps : option R) (ts : list R) :
  0 < np_sum (seg_lengths_of ps) ->
  _compute_times_from_window ps (start_dt, end_dt) max_speed_mps = Ok ts ->
  0 < timestamp end_dt - timestamp start_dt /\
  ts = proportional_times ps (timestamp start_dt)
         (timestamp end_dt - timestamp start_dt).
Proof.
  intros Htot. unfold _compute_times_from_window.
  destruct (Rleb (timestamp end_dt - timestamp start_dt) 0) eqn:Ed; [discriminate |].
  apply Rleb_false_iff in Ed. rewrite Rleb_false by assumption.
  destruct (match max_speed_mps with Some _ => _ | None => _ end); [discriminate |].
  intros [= <-]. split; [assumption | reflexivity].
Qed.

Lemma Trajectory_new_not_increasing (ts : list R) (ps : list vec3) (fid : string) (i : nat) :
  length ts = length ps -> (S i < length ts)%nat -> nth (S i) ts 0 <= nth i ts 0 ->
  Trajectory_new ts ps fid = Err (ValueError "times must be strictly increasing").
Proof.
  intros Hlen Hi Hle. unfold Trajectory_new. rewrite Hlen, Nat.eqb_refl. cbn [negb].
  destruct (existsb _ _) eqn:E; [reflexivity |].
  apply diff_check_increasing in E.
  pose proof (proj1 (strictly_increasing_nth ts) E i Hi). lra.
Qed.

Lemma positions_length (wps : list Waypoint) :
  length (_waypoints_to_positions wps) = length wps.
Proof. unfold _waypoints_to_positions. apply length_map. Qed.

Lemma seg_lengths_sum_nonneg (ps : list vec3) : 0 <= np_sum (seg_lengths_of ps).
Proof.
  unfold seg_lengths_of. induction (np_diff_rows ps) as [| d l IH]; simpl; [lra |].
  pose proof (norm3_nonneg d). lra.
Qed.

Lemma distinct_total_positive (ps : list vec3) :
  (2 <= length ps)%nat -> consecutive_distinct ps -> 0 < np_sum (seg_lengths_of ps).
Proof.
  intros Hlen Hd.
  pose proof (seg_length_distinct ps O Hd ltac:(lia)) as Hfirst.
  destruct ps as [| a [| b ps]]; try (simpl in Hlen; lia).
  change (seg_lengths_of (a :: b :: ps))
    with (norm3 (vx b - vx a, vy b - vy a, vz b - vz a) :: seg_lengths_of (b :: ps)) in *.
  cbn [nth] in Hfirst.
  change (0 < norm3 (vx b - vx a, vy b - vy a, vz b - vz a)
              + np_sum (seg_lengths_of (b :: ps))).
  pose proof (seg_lengths_sum_nonneg (b :: ps)). lra.
Qed.

Lemma proportional_times_increasing (ps : list vec3) (start_s duration_s : R) :
  (2 <= length ps)%nat -> consecutive_distinct ps -> 0 < duration_s ->
  strictly_increasing (proportional_times ps start_s duration_s).
Proof.
  intros Hlen Hd Hdur. apply strictly_increasing_nth. intros i Hi.
  rewrite proportional_times_length in Hi by lia.
  pose proof (proportional_times_step ps start_s duration_s i Hi) as Hstep.
  pose proof (seg_length_distinct ps i Hd Hi) as Hseg.
  pose proof (distinct_total_positive ps Hlen Hd) as Htot.
  assert (0 < nth i (seg_lengths_of ps) 0 / np_sum (seg_lengths_of ps) * duration_s).
  { apply Rmult_lt_0_compat; [apply Rdiv_lt_0_compat |]; assumption. }
  lra.
Qed.

(** A zero-length segment inside a path of positive length gives its two
    waypoints the same time, and the constructor refuses the times. *)
Lemma coincident_times_refused (ps : list vec3) (start_s duration_s : R)
      (fid : string) (i : nat) :
  (S i < length ps)%nat -> nth i ps origin = nth (S i) ps origin ->
  nth i (proportional_times ps start_s duration_s) 0
  = nth (S i) (proportional_times ps start_s duration_s) 0 /\
  Trajectory_new (proportional_times ps start_s duration_s) ps fid
  = Err (ValueError "times must be strictly increasing").
Proof.
  intros Hi Heq.
  pose proof (proportional_times_step ps start_s duration_s i Hi) as Hstep.
  rewrite (seg_length_coincident ps i Hi Heq) in Hstep.
  assert (Hsame : nth i (proportional_times ps start_s duration_s) 0
                  = nth (S i) (proportional_times ps start_s duration_s) 0).
  { unfold Rdiv in Hstep. rewrite !Rmult_0_l in Hstep. lra. }
  split; [exact Hsame |].
  apply (Trajectory_new_not_increasing _ _ _ i).
  - apply proportional_times_length. lia.
  - rewrite proportional_times_length by lia. exact Hi.
  - lra.
Qed.

Lemma linspace_nat_increasing (a b : R) (n : nat) :
  a < b -> strictly_increasing (linspace_nat a b n).
Proof.
  intros Hab. apply strictly_increasing_nth. intros i Hi.
  rewrite linspace_nat_length in Hi.
  rewrite !linspace_nat_nth by lia.
  assert (Hpos : 0 < INR (n - 1)) by (apply lt_0_INR; lia).
  assert (Hstep : 0 < (b - a) / INR (n - 1)) by (apply Rdiv_lt_0_compat; lra).
  rewrite S_INR. nra.
Qed.

Lemma np_sum_all_zero (l : list R) :
  (forall j, (j < length l)%nat -> nth j l 0 = 0) -> np_sum l = 0.
Proof.
  induction l as [| a l IH]; intros H; [reflexivity |].
  simpl. rewrite IH by (intros j Hj; apply (H (S j)); simpl; lia).
  pose proof (H O ltac:(simpl; lia)) as H0. simpl in H0. lra.
Qed.

Lemma all_coincident_total (ps : list vec3) :
  (forall j, (S j < length ps)%nat -> nth j ps origin = nth (S j) ps origin) ->
  np_sum (seg_lengths_of ps) = 0.
Proof.
  intros H. apply np_sum_all_zero. intros j Hj.
  rewrite seg_lengths_length in Hj.
  apply seg_length_coincident; [lia | apply H; lia].
Qed.

(** C10.  In window-derived mode a pair of consecutive coincident
    waypoints on a path of positive length makes
    [interpolate_from_waypoints] fail, whatever the window and the speed
    limit: whenever the proportional times are computed the two waypoints
    get the same time and the constructor rejects the sequence as not
    strictly increasing.  When all waypoints coincide the times are
    evenly spaced over the window and the trajectory is built. *)
Theorem coincident_waypoints_fail :
  (forall (wps : list Waypoint) (i : nat),
      existsb has_t wps = false ->
      (S i < length wps)%nat ->
      nth i (_waypoints_to_positions wps) origin
      = nth (S i) (_waypoints_to_positions wps) origin ->
      0 < np_sum (seg_lengths_of (_waypoints_to_positions wps)) ->
      (forall mission_window max_speed_mps fid,
          is_ok (interpolate_from_waypoints wps "linear" mission_window
                   max_speed_mps fid) = false) /\
      (forall w max_speed_mps ts,
          _compute_times_from_window (_waypoints_to_positions wps) w max_speed_mps
          = Ok ts ->
          nth i ts 0 = nth (S i) ts 0 /\
          forall fid,
            interpolate_from_waypoints wps "linear" (Some w) max_speed_mps fid
            = Err (ValueError "times must be strictly increasing")))
  /\
  (forall (wps : list Waypoint) (start_dt end_dt : datetime)
          (max_speed_mps : option R) (fid : string),
      existsb has_t wps = false -> (2 <= length wps)%nat ->
      (forall j, (S j < length wps)%nat ->
                 nth j (_waypoints_to_positions wps) origin
                 = nth (S j) (_waypoints_to_positions wps) origin) ->
      timestamp start_dt < timestamp end_dt ->
      interpolate_from_waypoints wps "linear" (Some (start_dt, end_dt))
        max_speed_mps fid
      = Ok (mk_Trajectory
              (linspace_nat (timestamp start_dt) (timestamp end_dt) (length wps))
              (_waypoints_to_positions wps) fid)).
Proof.
  split.
  - intros wps i Hnone Hi Heq Htot.
    assert (Hlen : (2 <= length wps)%nat) by lia.
    assert (Hi' : (S i < length (_waypoints_to_positions wps))%nat)
      by (rewrite positions_length; exact Hi).
    assert (Hcomputed : forall w ms ts,
               _compute_times_from_window (_waypoints_to_positions wps) w ms = Ok ts ->
               nth i ts 0 = nth (S i) ts 0 /\
               forall fid, interpolate_from_waypoints wps "linear" (Some w) ms fid
                           = Err (ValueError "times must be strictly increasing")).
    { intros [start_dt end_dt] ms ts Hts.
      destruct (compute_times_Ok_positive _ _ _ _ _ Htot Hts) as [_ ->].
      destruct (coincident_times_refused (_waypoints_to_positions wps)
                  (timestamp start_dt) (timestamp end_dt - timestamp start_dt)
                  EmptyString i Hi' Heq) as [Hsame _].
      split; [exact Hsame |]. intros fid.
      rewrite window_mode by assumption. rewrite Hts. cbn [bind].
      apply (coincident_times_refused _ _ _ fid i Hi' Heq). }
    split; [| exact Hcomputed].
    intros [w |] ms fid.
    + destruct (_compute_times_from_window (_waypoints_to_positions wps) w ms)
        as [ts | e] eqn:Hts.
      * rewrite (proj2 (Hcomputed w ms ts Hts) fid). reflexivity.
      * rewrite window_mode by assumption. rewrite Hts. reflexivity.
    + unfold interpolate_from_waypoints.
      cbn [String.eqb Ascii.eqb Bool.eqb negb].
      destruct (Nat.ltb_spec (length wps) 2); [reflexivity |].
      rewrite Hnone. reflexivity.
  - intros wps start_dt end_dt ms fid Hnone Hlen Hall Hlt.
    rewrite window_mode by assumption.
    assert (Htot : np_sum (seg_lengths_of (_waypoints_to_positions wps)) = 0).
    { apply all_coincident_total. intros j Hj. apply Hall.
      rewrite positions_length in Hj. exact Hj. }
    unfold _compute_times_from_window.
    rewrite Rleb_false by lra. rewrite Htot, Rleb_true by lra.
    unfold np_linspace.
    destruct (Z.ltb_spec (Z.of_nat (length (_waypoints_to_positions wps))) 0); [lia |].
    cbn [bind]. rewrite Nat2Z.id, positions_length.
    apply Trajectory_new_Ok. split; [| split; [| reflexivity]].
    + rewrite linspace_nat_length, positions_length. reflexivity.
    + apply linspace_nat_increasing. exact Hlt.
Qed.

Lemma hover_then_go_total :
  np_sum (seg_lengths_of (_waypoints_to_positions hover_then_go)) = 10.
Proof.
  unfold hover_then_go, untimed, _waypoints_to_positions, seg_lengths_of.
  cbn [map x y z np_diff_rows vx vy vz fst snd np_sum fold_right].
  rewrite (norm3_zero (0 - 0, 0 - 0, 0 - 0))
    by (unfold origin; f_equal; [f_equal |]; ring).
  unfold norm3, vx, vy, vz; cbn [fst snd].
  replace ((10 - 0) * (10 - 0) + (0 - 0) * (0 - 0) + (0 - 0) * (0 - 0))
    with (10 * 10) by ring.
  rewrite sqrt_square by lra. ring.
Qed.

Lemma coincident_waypoints_fail_witness :
  is_ok (interpolate_from_waypoints hover_then_go "linear" (Some window_0_10)
           None "primary") = false.
Proof.
  apply (proj1 (proj1 coincident_waypoints_fail hover_then_go O eq_refl
                  ltac:(simpl; lia) eq_refl
                  ltac:(rewrite hover_then_go_total; lra))).
Defined.

(** ** The speed limit *)

(** C7 (amended).  With a window of positive duration, a speed limit and
    a path of positive length, the time assignment of window-derived
    mode fails exactly when the required average speed
    [total_distance / duration] exceeds the limit plus [1e-6].  When, in
    addition, no two consecutive waypoints coincide,
    [interpolate_from_waypoints] fails exactly in that case and
    otherwise builds the trajectory with the proportional times. *)
Theorem speed_limit_decides :
  (forall (ps : list vec3) (start_dt end_dt : datetime) (m : R),
      0 < timestamp end_dt - timestamp start_dt ->
      0 < np_sum (seg_lengths_of ps) ->
      (is_ok (_compute_times_from_window ps (start_dt, end_dt) (Some m)) = false
       <-> m + 1 / 1000000
           < required_speed ps (timestamp end_dt - timestamp start_dt)))
  /\
  (forall (wps : list Waypoint) (start_dt end_dt : datetime) (m : R) (fid : string),
      existsb has_t wps = false -> (2 <= length wps)%nat ->
      0 < timestamp end_dt - timestamp start_dt ->
      consecutive_distinct (_waypoints_to_positions wps) ->
      let ps := _waypoints_to_positions wps in
      let duration_s := timestamp end_dt - timestamp start_dt in
      0 < np_sum (seg_lengths_of ps) /\
      (m + 1 / 1000000 < required_speed ps duration_s ->
       interpolate_from_waypoints wps "linear" (Some (start_dt, end_dt)) (Some m) fid
       = Err (ValueError "Required speed exceeds max_speed_mps")) /\
      (required_speed ps duration_s <= m + 1 / 1000000 ->
       interpolate_from_waypoints wps "linear" (Some (start_dt, end_dt)) (Some m) fid
       = Ok (mk_Trajectory (proportional_times ps (timestamp start_dt) duration_s)
                           ps fid)) /\
      (is_ok (interpolate_from_waypoints wps "linear" (Some (start_dt, end_dt))
                (Some m) fid) = false
       <-> m + 1 / 1000000 < required_speed ps duration_s)).
Proof.
  split.
  - intros ps start_dt end_dt m Hdur Htot.
    destruct (Rlt_dec (m + 1 / 1000000)
                (required_speed ps (timestamp end_dt - timestamp start_dt)))
      as [Hfast | Hslow].
    + rewrite compute_times_too_fast by assumption. simpl. tauto.
    + rewrite compute_times_proportional by (trivial; lra). simpl.
      split; [discriminate | intros; contradiction].
  - intros wps start_dt end_dt m fid Hnone Hlen Hdur Hd ps duration_s.
    assert (Hlen' : (2 <= length ps)%nat) by (unfold ps; rewrite positions_length; exact Hlen).
    pose proof (distinct_total_positive ps Hlen' Hd) as Htot.
    assert (Hfast : m + 1 / 1000000 < required_speed ps duration_s ->
                    interpolate_from_waypoints wps "linear" (Some (start_dt, end_dt))
                      (Some m) fid
                    = Err (ValueError "Required speed exceeds max_speed_mps")).
    { intros H. rewrite window_mode by assumption.
      fold ps. rewrite compute_times_too_fast by assumption. reflexivity. }
    assert (Hslow : required_speed ps duration_s <= m + 1 / 1000000 ->
                    interpolate_from_waypoints wps "linear" (Some (start_dt, end_dt))
                      (Some m) fid
                    = Ok (mk_Trajectory
                            (proportional_times ps (timestamp start_dt) duration_s)
                            ps fid)).
    { intros H. rewrite window_mode by assumption.
      fold ps. rewrite compute_times_proportional by assumption. cbn [bind].
      apply Trajectory_new_Ok. split; [| split; [| reflexivity]].
      - apply proportional_times_length. lia.
      - apply proportional_times_increasing; assumption. }
    split; [exact Htot |]. split; [exact Hfast |]. split; [exact Hslow |].
    destruct (Rlt_dec (m + 1 / 1000000) (required_speed ps duration_s)) as [H | H].
    + rewrite Hfast by assumption. simpl. tauto.
    + rewrite Hslow by lra. simpl. split; [discriminate | intros; contradiction].
Qed.

Lemma straight_path_total :
  np_sum (seg_lengths_of (_waypoints_to_positions straight_path)) = 10.
Proof.
  unfold straight_path, untimed, _waypoints_to_positions, seg_lengths_of.
  cbn [map x y z np_diff_rows vx vy vz fst snd np_sum fold_right].
  unfold norm3, vx, vy, vz; cbn [fst snd].
  replace ((10 - 0) * (10 - 0) + (0 - 0) * (0 - 0) + (0 - 0) * (0 - 0))
    with (10 * 10) by ring.
  rewrite sqrt_square by lra. ring.
Qed.

Lemma straight_path_distinct :
  consecutive_distinct (_waypoints_to_positions straight_path).
Proof.
  simpl. split; [| trivial]. intros E.
  apply (f_equal vx) in E. unfold vx in E. simpl in E. lra.
Qed.

Lemma speed_limit_decides_witness :
  is_ok (interpolate_from_waypoints straight_path "linear" (Some window_0_10)
           (Some 5) "primary") = true /\
  interpolate_from_waypoints straight_path "linear" (Some window_0_10)
    (Some (1 / 2)) "primary"
  = Err (ValueError "Required speed exceeds max_speed_mps").
Proof.
  assert (Hdur : 0 < timestamp (mk_datetime 10) - timestamp (mk_datetime 0))
    by (simpl; lra).
  assert (Hspeed : required_speed (_waypoints_to_positions straight_path)
                     (timestamp (mk_datetime 10) - timestamp (mk_datetime 0)) = 1).
  { unfold required_speed. rewrite straight_path_total. simpl. field. }
  split.
  - destruct (proj2 speed_limit_decides straight_path (mk_datetime 0) (mk_datetime 10)
                5 "primary"%string eq_refl ltac:(simpl; lia) Hdur straight_path_distinct)
      as (_ & _ & Hslow & _).
    unfold window_0_10. rewrite Hslow; [reflexivity |]. rewrite Hspeed. lra.
  - destruct (proj2 speed_limit_decides straight_path (mk_datetime 0) (mk_datetime 10)
                (1 / 2) "primary"%string eq_refl ltac:(simpl; lia) Hdur
                straight_path_distinct)
      as (_ & Hfast & _).
    unfold window_0_10. apply Hfast. rewrite Hspeed. lra.
Defined.

(** C7, as stated, fails: a path that repeats a waypoint has positive
    length and may need no more than the allowed speed, yet it is
    refused, because the repeated waypoint is assigned the same time
    twice. *)
Lemma speed_limit_counterexample :
  existsb has_t hover_then_go = false /\
  0 < np_sum (seg_lengths_of (_waypoints_to_positions hover_then_go)) /\
  required_speed (_waypoints_to_positions hover_then_go) (10 - 0) <= 5 + 1 / 1000000 /\
  interpolate_from_waypoints hover_then_go "linear" (Some window_0_10)
    (Some 5) "primary"
  = Err (ValueError "times must be strictly increasing").
Proof.
  split; [reflexivity |].
  split; [rewrite hover_then_go_total; lra |].
  assert (Hspeed : required_speed (_waypoints_to_positions hover_then_go) (10 - 0)
                   <= 5 + 1 / 1000000).
  { unfold required_speed. rewrite hover_then_go_total.
    replace (10 / (10 - 0)) with 1 by (field; lra). lra. }
  split; [exact Hspeed |].
  unfold window_0_10. rewrite window_mode by (trivial; simpl; lia).
  rewrite compute_times_proportional;
    [| simpl; lra | rewrite hover_then_go_total; lra | exact Hspeed].
  cbn [bind].
  apply (coincident_times_refused _ _ _ _ O); [simpl; lia | reflexivity].
Qed.

(** ** Absolute-time mode *)

Lemma all_timed (wps : list Waypoint) (ds : list datetime) :
  map t wps = map Some ds ->
  forallb has_t wps = true /\
  mapM (fun wp => match t wp with
                  | Some d => Ok (timestamp d)
                  | None => Err AttributeError
                  end) wps = Ok (map timestamp ds).
Proof.
  revert ds. induction wps as [| wp wps IH]; intros ds H.
  - destruct ds; [split; reflexivity | discriminate].
  - destruct ds as [| d ds]; [discriminate |].
    cbn [map] in H. injection H as Hwp Hrest.
    destruct (IH ds Hrest) as [Hall Hmap].
    cbn [forallb mapM map]. unfold has_t at 1. rewrite Hwp, Hall, Hmap.
    split; reflexivity.
Qed.

Lemma absolute_mode (wps : list Waypoint) (ds : list datetime)
      (mission_window : option (datetime * datetime))
      (max_speed_mps : option R) (fid : string) :
  (2 <= length wps)%nat -> map t wps = map Some ds ->
  interpolate_from_waypoints wps "linear" mission_window max_speed_mps fid
  = Trajectory_new (map timestamp ds) (_waypoints_to_positions wps) fid.
Proof.
  intros Hlen Hts. unfold interpolate_from_waypoints.
  cbn [String.eqb Ascii.eqb Bool.eqb negb].
  destruct (Nat.ltb_spec (length wps) 2) as [Hlt | _]; [lia |].
  destruct (all_timed wps ds Hts) as [Hall Hmap].
  assert (Hany : existsb has_t wps = true).
  { destruct wps as [| wp wps]; [simpl in Hlen; lia |].
    cbn [forallb] in Hall. apply andb_true_iff in Hall.
    cbn [existsb]. rewrite (proj1 Hall). reflexivity. }
  rewrite Hany, Hall. cbn [negb]. rewrite Hmap. reflexivity.
Qed.

(** C6 (amended).  For at least two waypoints that all carry a timestamp,
    [interpolate_from_waypoints] is the trajectory constructor applied to
    exactly the waypoints' timestamps, whatever [mission_window] and
    [max_speed_mps] are given.  It builds the trajectory, with those
    times, when the timestamps are strictly increasing, and fails with
    the constructor's error when they are not. *)
Theorem timestamps_used_as_given :
  forall (wps : list Waypoint) (ds : list datetime),
    (2 <= length wps)%nat -> map t wps = map Some ds ->
    (forall mission_window max_speed_mps fid,
        interpolate_from_waypoints wps "linear" mission_window max_speed_mps fid
        = interpolate_from_waypoints wps "linear" None None fid) /\
    (forall mission_window max_speed_mps fid,
        strictly_increasing (map timestamp ds) ->
        interpolate_from_waypoints wps "linear" mission_window max_speed_mps fid
        = Ok (mk_Trajectory (map timestamp ds) (_waypoints_to_positions wps) fid)) /\
    (forall mission_window max_speed_mps fid,
        ~ strictly_increasing (map timestamp ds) ->
        interpolate_from_waypoints wps "linear" mission_window max_speed_mps fid
        = Err (ValueError "times must be strictly increasing")) /\
    (forall mission_window max_speed_mps fid tr,
        interpolate_from_waypoints wps "linear" mission_window max_speed_mps fid
        = Ok tr ->
        times tr = map timestamp ds).
Proof.
  intros wps ds Hlen Hts.
  assert (Hlens : length (map timestamp ds) = length (_waypoints_to_positions wps)).
  { rewrite positions_length, length_map.
    rewrite <- (length_map Some ds), <- Hts, length_map. reflexivity. }
  split; [| split; [| split]].
  - intros mw ms fid. rewrite !(absolute_mode wps ds) by assumption. reflexivity.
  - intros mw ms fid Hinc. rewrite (absolute_mode wps ds) by assumption.
    apply Trajectory_new_Ok. auto.
  - intros mw ms fid Hninc. rewrite (absolute_mode wps ds) by assumption.
    unfold Trajectory_new. rewrite Hlens, Nat.eqb_refl. cbn [negb].
    destruct (existsb _ _) eqn:E; [reflexivity |].
    apply diff_check_increasing in E. contradiction.
  - intros mw ms fid tr H. rewrite (absolute_mode wps ds) in H by assumption.
    apply Trajectory_new_valid in H. tauto.
Qed.

Lemma timestamps_used_as_given_witness :
  interpolate_from_waypoints [timed 0 0 3; timed 10 0 8] "linear"
    (Some window_0_10) (Some 1) "sim"
  = Ok (mk_Trajectory [3; 8] [(0, 0, 0); (10, 0, 0)] "sim").
Proof.
  apply (proj1 (proj2 (timestamps_used_as_given [timed 0 0 3; timed 10 0 8]
                         [mk_datetime 3; mk_datetime 8]
                         ltac:(simpl; lia) eq_refl))
           (Some window_0_10) (Some 1) "sim"%string).
  simpl. lra.
Defined.

(** C6, as stated, fails: two waypoints carrying the same timestamp are
    at least two and all timed, and no trajectory is produced. *)
Lemma equal_timestamps_counterexample :
  (2 <= length same_stamp)%nat /\
  forallb has_t same_stamp = true /\
  interpolate_from_waypoints same_stamp "linear" None None "sim"
  = Err (ValueError "times must be strictly increasing") /\
  interpolate_from_waypoints same_stamp "linear" (Some window_0_10) None "sim"
  = Err (ValueError "times must be strictly increasing").
Proof.
  split; [simpl; lia |]. split; [reflexivity |].
  assert (H : forall mw,
             interpolate_from_waypoints same_stamp "linear" mw None "sim"
             = Err (ValueError "times must be strictly increasing")).
  { intros mw.
    rewrite (absolute_mode same_stamp [mk_datetime 0; mk_datetime 0])
      by (trivial; simpl; lia).
    apply (Trajectory_new_not_increasing _ _ _ O); simpl; try lia; try reflexivity; lra. }
  split; apply H.
Qed.

(** ** [np.union1d], [np.min] and [np.argmin] *)

Lemma insert_sorted_In (v u : R) (l : list R) :
  In u (insert_sorted v l) <-> u = v \/ In u l.
Proof.
  induction l as [| a l IH]; simpl.
  - split; [intros [<- | []]; auto | intros [-> | []]; auto].
  - destruct (Rleb v a); simpl; [| rewrite IH]; intuition congruence.
Qed.

Lemma sort_R_In (u : R) (l : list R) : In u (sort_R l) <-> In u l.
Proof.
  induction l as [| a l IH]; simpl; [tauto |].
  rewrite insert_sorted_In, IH. intuition congruence.
Qed.

Lemma drop_repeats_In (u : R) (l : list R) : In u (drop_repeats l) <-> In u l.
Proof.
  induction l as [| a l IH]; [simpl; tauto |].
  destruct l as [| b l]; [simpl; tauto |].
  change (drop_repeats (a :: b :: l))
    with (if Reqb a b then drop_repeats (b :: l) else a :: drop_repeats (b :: l)).
  unfold Reqb. destruct (Req_dec_T a b) as [-> | Hne].
  - rewrite IH. simpl. tauto.
  - change (In u (a :: drop_repeats (b :: l))) with (a = u \/ In u (drop_repeats (b :: l))).
    rewrite IH. simpl. tauto.
Qed.

Lemma np_union1d_In (u : R) (a b : list R) :
  In u (np_union1d a b) <-> In u a \/ In u b.
Proof.
  unfold np_union1d, np_unique. rewrite drop_repeats_In, sort_R_In. apply in_app_iff.
Qed.

Lemma argmin_from_value (l : list R) (best_i i : nat) (best : R) :
  snd (argmin_from best_i best i l)
  = fold_left (fun m u => if Rltb u m then u else m) l best.
Proof.
  revert best_i i best. induction l as [| d l IH]; intros best_i i best; [reflexivity |].
  cbn [argmin_from fold_left]. destruct (Rltb d best); apply IH.
Qed.

Lemma fold_min_le_start (l : list R) (best : R) :
  fold_left (fun m u => if Rltb u m then u else m) l best <= best.
Proof.
  revert best. induction l as [| d l IH]; intros best; [simpl; lra |].
  cbn [fold_left]. destruct (Rltb d best) eqn:E.
  - apply Rltb_spec in E. specialize (IH d). lra.
  - apply IH.
Qed.

Lemma fold_min_le_all (l : list R) (best u : R) :
  In u l -> fold_left (fun m v => if Rltb v m then v else m) l best <= u.
Proof.
  revert best. induction l as [| d l IH]; intros best Hin; [contradiction |].
  cbn [fold_left]. destruct Hin as [-> | Hin]; [| apply IH; exact Hin].
  destruct (Rltb u best) eqn:E.
  - apply fold_min_le_start.
  - apply Rltb_false_iff in E. pose proof (fold_min_le_start l best). lra.
Qed.

Lemma argmin_from_index (l pre : list R) (best_i : nat) (best : R) :
  nth_error (pre ++ l) best_i = Some best ->
  nth_error (pre ++ l) (fst (argmin_from best_i best (length pre) l))
  = Some (snd (argmin_from best_i best (length pre) l)).
Proof.
  revert pre best_i best. induction l as [| d l IH]; intros pre best_i best Hb;
    [exact Hb |].
  cbn [argmin_from].
  specialize (IH (pre ++ [d])).
  rewrite <- app_assoc, length_app in IH. simpl in IH. rewrite Nat.add_1_r in IH.
  destruct (Rltb d best).
  - apply IH. rewrite nth_error_app2 by lia. rewrite Nat.sub_diag. reflexivity.
  - apply IH. exact Hb.
Qed.

Lemma np_min_argmin (l : list R) :
  l <> [] ->
  exists m k,
    np_min l = Ok m /\ np_argmin l = Ok k /\
    nth_error l k = Some m /\ (forall u, In u l -> m <= u).
Proof.
  destruct l as [| d l]; [contradiction |]. intros _.
  exists (fold_left (fun m u => if Rltb u m then u else m) l d),
         (fst (argmin_from 0 d 1 l)).
  split; [reflexivity |]. split; [reflexivity |]. split.
  - rewrite <- (argmin_from_value l 0 1 d).
    apply (argmin_from_index l [d] 0 d). reflexivity.
  - intros u [<- | Hin]; [apply fold_min_le_start | apply fold_min_le_all; exact Hin].
Qed.

Lemma index_at_map {A B : Type} (f : A -> B) (l : list A) (k : nat) (b : B) :
  nth_error (map f l) k = Some b ->
  exists a, index_at l k = Ok a /\ index_at (map f l) k = Ok (f a) /\ b = f a.
Proof.
  intros H. unfold index_at. rewrite H. rewrite nth_error_map in H.
  destruct (nth_error l k) as [a |]; [| discriminate].
  injection H as <-. eauto.
Qed.

(** ** The pairwise spatial checker *)

Lemma valid_well_formed (tr : Trajectory) (t0 t1 : R) :
  valid tr -> time_range tr = Ok (t0, t1) -> well_formed tr.
Proof.
  intros [Hlen _] Htr. split; [| exact Hlen].
  unfold nonempty. intros E. unfold time_range in Htr. rewrite E in Htr. discriminate.
Qed.

Lemma uniform_grid_linspace (tr : Trajectory) (t0 t1 : R) :
  valid tr -> time_range tr = Ok (t0, t1) -> t0 < t1 ->
  exists poss,
    sample_uniform tr 1 = Ok (uniform_grid tr, poss) /\
    uniform_grid tr = linspace_nat t0 t1 (Z.to_nat (n_steps_of t0 t1 1)) /\
    uniform_grid tr <> [].
Proof.
  intros Hv Htr Hlt.
  destruct (sample_uniform_unfold tr 1 t0 t1 Hv Htr Hlt ltac:(lra)) as [Hfl Hsu].
  cbv zeta in Hsu. unfold uniform_grid. rewrite Hsu.
  eexists. split; [reflexivity |]. split; [reflexivity |].
  intros E. apply (f_equal (@length R)) in E.
  rewrite linspace_nat_length in E. unfold n_steps_of in E. simpl in E. lia.
Qed.

Lemma resampled_planar (tr : Trajectory) (tv : R) :
  well_formed tr ->
  (p <- sample_position_at tr (TFloat tv) ;; Ok (firstn 2 (row_of p)))
  = Ok (planar (position_of tr tv)).
Proof.
  intros [Hne Hlen]. rewrite sample_position_at_position_of by assumption. reflexivity.
Qed.

Lemma spatial_check_characterised (traj_A traj_B : Trajectory) (buffer_m : R)
      (use_3d : bool) (a0 a1 b0 b1 : R) :
  valid traj_A -> valid traj_B ->
  time_range traj_A = Ok (a0, a1) -> time_range traj_B = Ok (b0, b1) ->
  a0 < a1 -> b0 < b1 ->
  exists (m : R) (k : nat) (tmin : R),
    check_spatial_conflict traj_A traj_B buffer_m use_3d
    = Ok (Rltb m buffer_m,
          mk_Details m (planar (position_of traj_A tmin))
                     (planar (position_of traj_B tmin))
                     tmin tmin (Rltb m buffer_m)) /\
    nth_error (common_instants traj_A traj_B) k = Some tmin /\
    m = distance_at false traj_A traj_B tmin /\
    (forall tv, In tv (common_instants traj_A traj_B) ->
                m <= distance_at false traj_A traj_B tv).
Proof.
  intros HvA HvB HrA HrB HltA HltB.
  pose proof (valid_well_formed traj_A a0 a1 HvA HrA) as HwA.
  pose proof (valid_well_formed traj_B b0 b1 HvB HrB) as HwB.
  destruct (uniform_grid_linspace traj_A a0 a1 HvA HrA HltA) as (possA & HsA & _ & HneA).
  destruct (uniform_grid_linspace traj_B b0 b1 HvB HrB HltB) as (possB & HsB & _ & _).
  unfold check_spatial_conflict. rewrite HsA, HsB. cbn [bind].
  fold (common_instants traj_A traj_B).
  set (common := common_instants traj_A traj_B).
  rewrite (mapM_total _ (fun tv => planar (position_of traj_A tv)))
    by (intros; apply resampled_planar; assumption).
  cbn [bind].
  rewrite (mapM_total _ (fun tv => planar (position_of traj_B tv)))
    by (intros; apply resampled_planar; assumption).
  cbn [bind]. rewrite combine_map_same, map_map. cbn [fst snd].
  change (map (fun tv => norm_row (sub_rows (planar (position_of traj_A tv))
                                            (planar (position_of traj_B tv)))) common)
    with (map (distance_at false traj_A traj_B) common).
  assert (Hne : map (distance_at false traj_A traj_B) common <> []).
  { intros E. apply map_eq_nil in E.
    destruct (uniform_grid traj_A) as [| g0 gA] eqn:Eg; [contradiction |].
    assert (Hin : In g0 common).
    { unfold common, common_instants. apply np_union1d_In. left. rewrite Eg. left. reflexivity. }
    rewrite E in Hin. contradiction. }
  destruct (np_min_argmin _ Hne) as (m & k & Hmin & Harg & Hnth & Hle).
  rewrite Hmin, Harg. cbn [bind].
  destruct (index_at_map _ _ _ _ Hnth) as (tmin & Ht & _ & Hm).
  rewrite Ht. cbn [bind].
  assert (HkA : index_at (map (fun tv => planar (position_of traj_A tv)) common) k
                = Ok (planar (position_of traj_A tmin))).
  { unfold index_at in *. rewrite nth_error_map.
    destruct (nth_error common k); [| discriminate]. injection Ht as ->. reflexivity. }
  assert (HkB : index_at (map (fun tv => planar (position_of traj_B tv)) common) k
                = Ok (planar (position_of traj_B tmin))).
  { unfold index_at in *. rewrite nth_error_map.
    destruct (nth_error common k); [| discriminate]. injection Ht as ->. reflexivity. }
  rewrite HkA, HkB. cbn [bind].
  exists m, k, tmin. split; [reflexivity |]. split.
  - unfold index_at in Ht. destruct (nth_error common k); [| discriminate].
    injection Ht as ->. reflexivity.
  - split; [exact Hm |]. intros tv Hin. apply Hle. apply in_map. exact Hin.
Qed.

Lemma spatial_check_report (traj_A traj_B : Trajectory) (buffer_m : R)
      (use_3d : bool) (a0 a1 b0 b1 : R) :
  valid traj_A -> valid traj_B ->
  time_range traj_A = Ok (a0, a1) -> time_range traj_B = Ok (b0, b1) ->
  a0 < a1 -> b0 < b1 ->
  exists (flag : bool) (det : Details) (pA pB : vec3),
    check_spatial_conflict traj_A traj_B buffer_m use_3d = Ok (flag, det) /\
    In (t_A_at_min det) (common_instants traj_A traj_B) /\
    t_B_at_min det = t_A_at_min det /\
    sample_position_at traj_A (TFloat (t_A_at_min det)) = Ok pA /\
    sample_position_at traj_B (TFloat (t_A_at_min det)) = Ok pB /\
    min_position_A det = [vx pA; vy pA] /\
    min_position_B det = [vx pB; vy pB] /\
    d_min_distance_m det = planar_distance pA pB /\
    (forall tv qA qB,
        In tv (common_instants traj_A traj_B) ->
        sample_position_at traj_A (TFloat tv) = Ok qA ->
        sample_position_at traj_B (TFloat tv) = Ok qB ->
        d_min_distance_m det <= planar_distance qA qB) /\
    conflict_detected det = flag /\
    (flag = true <-> d_min_distance_m det < buffer_m).
Proof.
  intros HvA HvB HrA HrB HltA HltB.
  destruct (valid_well_formed traj_A a0 a1 HvA HrA) as [HneA HlenA].
  destruct (valid_well_formed traj_B b0 b1 HvB HrB) as [HneB HlenB].
  destruct (spatial_check_characterised traj_A traj_B buffer_m use_3d a0 a1 b0 b1
              HvA HvB HrA HrB HltA HltB) as (m & k & tmin & Hrun & Hnth & Hm & Hle).
  eexists; eexists; exists (position_of traj_A tmin), (position_of traj_B tmin).
  split; [exact Hrun |]. cbn [t_A_at_min t_B_at_min min_position_A min_position_B
                              d_min_distance_m conflict_detected].
  split; [apply (nth_error_In _ k); exact Hnth |].
  split; [reflexivity |].
  split; [apply sample_position_at_position_of; assumption |].
  split; [apply sample_position_at_position_of; assumption |].
  split; [reflexivity |]. split; [reflexivity |].
  split; [rewrite Hm; apply separation_planar |].
  split.
  - intros tv qA qB Hin HqA HqB. specialize (Hle tv Hin).
    unfold distance_at, position_of in Hle. rewrite HqA, HqB in Hle.
    rewrite separation_planar in Hle. exact Hle.
  - split; [reflexivity | apply Rltb_spec].
Qed.

(** C8.  On two trajectories satisfying the invariant,
    [check_spatial_conflict] samples each on its one-second uniform
    grid, compares at the union of the two grids, and reports: one
    minimising instant, recorded for both sides, that belongs to the
    union; the first two coordinates of the positions
    [sample_position_at] gives there; their planar distance, which is
    at most the planar distance at every instant of the union; and a
    flag that is true exactly when that distance is strictly under the
    buffer. *)
Theorem spatial_check_union_minimum :
  forall (traj_A traj_B : Trajectory) (buffer_m : R) (use_3d : bool)
         (a0 a1 b0 b1 : R),
    valid traj_A -> valid traj_B ->
    time_range traj_A = Ok (a0, a1) -> time_range traj_B = Ok (b0, b1) ->
    a0 < a1 -> b0 < b1 ->
    (exists possA possB,
        sample_uniform traj_A 1 = Ok (uniform_grid traj_A, possA) /\
        sample_uniform traj_B 1 = Ok (uniform_grid traj_B, possB)) /\
    (forall tv, In tv (common_instants traj_A traj_B)
                <-> In tv (uniform_grid traj_A) \/ In tv (uniform_grid traj_B)) /\
    exists (flag : bool) (det : Details) (pA pB : vec3),
      check_spatial_conflict traj_A traj_B buffer_m use_3d = Ok (flag, det) /\
      In (t_A_at_min det) (common_instants traj_A traj_B) /\
      t_B_at_min det = t_A_at_min det /\
      sample_position_at traj_A (TFloat (t_A_at_min det)) = Ok pA /\
      sample_position_at traj_B (TFloat (t_A_at_min det)) = Ok pB /\
      min_position_A det = [vx pA; vy pA] /\
      min_position_B det = [vx pB; vy pB] /\
      d_min_distance_m det = planar_distance pA pB /\
      (forall tv qA qB,
          In tv (common_instants traj_A traj_B) ->
          sample_position_at traj_A (TFloat tv) = Ok qA ->
          sample_position_at traj_B (TFloat tv) = Ok qB ->
          d_min_distance_m det <= planar_distance qA qB) /\
      conflict_detected det = flag /\
      (flag = true <-> d_min_distance_m det < buffer_m).
Proof.
  intros traj_A traj_B buffer_m use_3d a0 a1 b0 b1 HvA HvB HrA HrB HltA HltB.
  split; [| split].
  - destruct (uniform_grid_linspace traj_A a0 a1 HvA HrA HltA) as (possA & HsA & _).
    destruct (uniform_grid_linspace traj_B b0 b1 HvB HrB HltB) as (possB & HsB & _).
    exists possA, possB. split; assumption.
  - intros tv. apply np_union1d_In.
  - apply (spatial_check_report traj_A traj_B buffer_m use_3d a0 a1 b0 b1); assumption.
Qed.

Lemma crossing_valid : valid crossing_primary /\ valid crossing_sim.
Proof. split; (split; [reflexivity | simpl; lra]). Qed.

Lemma crossing_common_has_5 : In 5 (common_instants crossing_primary crossing_sim).
Proof.
  apply np_union1d_In. left.
  destruct (uniform_grid_linspace crossing_primary 0 10 (proj1 crossing_valid) eq_refl
              ltac:(lra)) as (_ & _ & -> & _).
  assert (En : n_steps_of 0 10 1 = 11%Z).
  { unfold n_steps_of. rewrite (Rfloor_unique _ 10); [reflexivity | lra | lra]. }
  rewrite En.
  replace 5 with (nth 5 (linspace_nat 0 10 (Z.to_nat 11)) 0).
  - apply nth_In. rewrite linspace_nat_length. simpl. lia.
  - rewrite linspace_nat_nth by (simpl; lia). simpl. field.
Qed.

Lemma spatial_check_union_minimum_witness :
  exists det,
    check_spatial_conflict crossing_primary crossing_sim 1 false = Ok (true, det) /\
    t_B_at_min det = t_A_at_min det /\
    d_min_distance_m det < 1.
Proof.
  destruct (spatial_check_union_minimum crossing_primary crossing_sim 1 false 0 10 0 10
              (proj1 crossing_valid) (proj2 crossing_valid) eq_refl eq_refl
              ltac:(lra) ltac:(lra))
    as (_ & _ & flag & det & pA & pB & Hrun & _ & Hsame & _ & _ & _ & _ & _ & Hle & _ & Hflag).
  assert (Hlt : d_min_distance_m det < 1).
  { assert (H5 : d_min_distance_m det
                 <= planar_distance (lerp3 0 10 (0, 0, 0) (10, 0, 0) 5)
                                    (lerp3 0 10 (5, -5, 0) (5, 5, 0) 5)).
    { apply (Hle 5); [exact crossing_common_has_5 | |].
      - apply (sample_segment crossing_primary (TFloat 5) O (proj1 crossing_valid));
          simpl; [lia | lra].
      - apply (sample_segment crossing_sim (TFloat 5) O (proj2 crossing_valid));
          simpl; [lia | lra]. }
    assert (E : planar_distance (lerp3 0 10 (0, 0, 0) (10, 0, 0) 5)
                                (lerp3 0 10 (5, -5, 0) (5, 5, 0) 5) = 0).
    { unfold planar_distance, lerp3, lerp, vx, vy; simpl.
      apply sqrt_of_zero. field. }
    lra. }
  exists det. apply Hflag in Hlt. subst flag. split; [exact Hrun |].
  split; [exact Hsame | apply Hflag; reflexivity].
Defined.

(** C9.  [check_spatial_conflict] returns the same result with
    [use_3d=True] as with [use_3d=False]; with 3D requested, the distance
    it reports is still the planar distance of the sampled positions,
    whatever their altitudes. *)
Theorem use_3d_never_consulted :
  (forall (traj_A traj_B : Trajectory) (buffer_m : R),
      check_spatial_conflict traj_A traj_B buffer_m true
      = check_spatial_conflict traj_A traj_B buffer_m false)
  /\
  (forall (traj_A traj_B : Trajectory) (buffer_m : R) (a0 a1 b0 b1 : R),
      valid traj_A -> valid traj_B ->
      time_range traj_A = Ok (a0, a1) -> time_range traj_B = Ok (b0, b1) ->
      a0 < a1 -> b0 < b1 ->
      exists (flag : bool) (det : Details) (pA pB : vec3),
        check_spatial_conflict traj_A traj_B buffer_m true = Ok (flag, det) /\
        sample_position_at traj_A (TFloat (t_A_at_min det)) = Ok pA /\
        sample_position_at traj_B (TFloat (t_B_at_min det)) = Ok pB /\
        d_min_distance_m det = planar_distance pA pB).
Proof.
  split; [reflexivity |].
  intros traj_A traj_B buffer_m a0 a1 b0 b1 HvA HvB HrA HrB HltA HltB.
  destruct (spatial_check_report traj_A traj_B buffer_m true a0 a1 b0 b1
              HvA HvB HrA HrB HltA HltB)
    as (flag & det & pA & pB & Hrun & _ & Hsame & HpA & HpB & _ & _ & Hd & _).
  exists flag, det, pA, pB. rewrite Hsame. auto.
Qed.

Lemma stacked_valid : valid low_flight /\ valid high_flight.
Proof. split; (split; [reflexivity | simpl; lra]). Qed.

Lemma uniform_grid_has_start (tr : Trajectory) (t0 t1 : R) :
  valid tr -> time_range tr = Ok (t0, t1) -> t0 < t1 -> In t0 (uniform_grid tr).
Proof.
  intros Hv Htr Hlt.
  destruct (uniform_grid_linspace tr t0 t1 Hv Htr Hlt) as (_ & _ & Hlin & Hne).
  rewrite Hlin in Hne |- *.
  destruct (Z.to_nat (n_steps_of t0 t1 1)) as [| [| n]].
  - contradiction.
  - left. reflexivity.
  - unfold linspace_nat. apply in_or_app. left.
    apply in_map_iff. exists O. split; [simpl; ring | apply in_seq; simpl; lia].
Qed.

Lemma use_3d_never_consulted_witness :
  exists (det : Details) (pA pB : vec3),
    check_spatial_conflict low_flight high_flight 1 true = Ok (true, det) /\
    sample_position_at low_flight (TFloat (t_A_at_min det)) = Ok pA /\
    sample_position_at high_flight (TFloat (t_B_at_min det)) = Ok pB /\
    d_min_distance_m det = planar_distance pA pB /\
    d_min_distance_m det < 1.
Proof.
  destruct (proj2 use_3d_never_consulted low_flight high_flight 1 0 10 0 10
              (proj1 stacked_valid) (proj2 stacked_valid) eq_refl eq_refl
              ltac:(lra) ltac:(lra))
    as (flag & det & pA & pB & Hrun & HpA & HpB & Hd).
  destruct (spatial_check_report low_flight high_flight 1 true 0 10 0 10
              (proj1 stacked_valid) (proj2 stacked_valid) eq_refl eq_refl
              ltac:(lra) ltac:(lra))
    as (flag' & det' & _ & _ & Hrun' & _ & _ & _ & _ & _ & _ & _ & Hle & _ & Hflag).
  rewrite Hrun in Hrun'. injection Hrun' as <- <-.
  assert (Hlt : d_min_distance_m det < 1).
  { assert (H0 : d_min_distance_m det <= planar_distance (0, 0, 0) (0, 0, 100)).
    { apply (Hle 0).
      - apply np_union1d_In. left.
        apply (uniform_grid_has_start low_flight 0 10 (proj1 stacked_valid) eq_refl).
        lra.
      - apply (sample_clamp_first low_flight (TFloat 0) 0); try reflexivity; simpl; lra.
      - apply (sample_clamp_first high_flight (TFloat 0) 0); try reflexivity; simpl; lra. }
    assert (E : planar_distance (0, 0, 0) (0, 0, 100) = 0).
    { unfold planar_distance, vx, vy; simpl. apply sqrt_of_zero. ring. }
    lra. }
  assert (flag = true) by (apply Hflag; exact Hlt). subst flag.
  exists det, pA, pB. auto.
Defined.

(** * Further properties of the code *)

(** ** What a built trajectory satisfies *)

Lemma mapM_length {A B : Type} (f : A -> result B) (l : list A) (out : list B) :
  mapM f l = Ok out -> length out = length l.
Proof.
  revert out. induction l as [| a l IH]; intros out H; simpl in H.
  - injection H as <-. reflexivity.
  - destruct (f a) as [b | e]; [| discriminate]. cbn [bind] in H.
    destruct (mapM f l) as [bs | e]; [| discriminate]. cbn [bind] in H.
    injection H as <-. simpl. rewrite (IH bs eq_refl). reflexivity.
Qed.

Lemma compute_times_length (ps : list vec3) (w : datetime * datetime)
      (max_speed_mps : option R) (ts : list R) :
  (1 <= length ps)%nat ->
  _compute_times_from_window ps w max_speed_mps = Ok ts -> length ts = length ps.
Proof.
  intros Hn. destruct w as [start_dt end_dt]. unfold _compute_times_from_window.
  destruct (Rleb (timestamp end_dt - timestamp start_dt) 0); [discriminate |].
  destruct (Rleb (np_sum (seg_lengths_of ps)) 0).
  - unfold np_linspace. destruct (Z.ltb_spec (Z.of_nat (length ps)) 0); [discriminate |].
    intros [= <-]. rewrite linspace_nat_length. apply Nat2Z.id.
  - destruct (match max_speed_mps with Some _ => _ | None => _ end); [discriminate |].
    intros [= <-]. apply (proportional_times_length ps); exact Hn.
Qed.

(** X1.  Whatever the mode, a trajectory that [interpolate_from_waypoints]
    returns was asked for with the linear method, has one time per
    waypoint and at least two of them, strictly increasing; its positions
    are the waypoints' coordinates with a missing altitude read as 0; it
    carries the identifier passed in; and the waypoints were either all
    timed or all untimed. *)
Theorem built_trajectory_invariant :
  forall (wps : list Waypoint) (method : string)
         (mission_window : option (datetime * datetime))
         (max_speed_mps : option R) (fid : string) (tr : Trajectory),
    interpolate_from_waypoints wps method mission_window max_speed_mps fid = Ok tr ->
    method = "linear"%string /\
    valid tr /\
    (2 <= length (times tr))%nat /\
    length (times tr) = length wps /\
    positions tr = _waypoints_to_positions wps /\
    flight_id tr = fid /\
    (forallb has_t wps = true \/ existsb has_t wps = false).
Proof.
  intros wps method mw ms fid tr. unfold interpolate_from_waypoints.
  destruct (String.eqb_spec method "linear") as [-> | Hm]; [| discriminate].
  cbn [negb]. destruct (Nat.ltb_spec (length wps) 2) as [Hlt | Hlen]; [discriminate |].
  intros H. apply bind_Ok_inv in H. destruct H as (ts & Hts & Hnew).
  apply Trajectory_new_Ok in Hnew. destruct Hnew as (Hlens & Hinc & ->).
  rewrite positions_length in Hlens.
  split; [reflexivity |]. split; [split; simpl; [rewrite positions_length |]; assumption |].
  simpl. split; [lia |]. split; [exact Hlens |]. split; [reflexivity |].
  split; [reflexivity |].
  destruct (existsb has_t wps); [| right; reflexivity].
  destruct (forallb has_t wps); [left; reflexivity | discriminate].
Qed.

Lemma built_trajectory_invariant_witness :
  valid (mk_Trajectory [0; 10] (_waypoints_to_positions straight_path) "primary") /\
  positions (mk_Trajectory [0; 10] (_waypoints_to_positions straight_path) "primary")
  = [(0, 0, 0); (10, 0, 0)].
Proof.
  destruct (built_trajectory_invariant straight_path "linear" (Some window_0_10)
              None "primary" _
              (two_waypoint_build_ok (untimed 0 0) (untimed 10 0)
                 (mk_datetime 0) (mk_datetime 10) "primary" eq_refl eq_refl
                 ltac:(simpl; lra)))
    as (_ & Hv & _ & _ & Hp & _).
  split; [exact Hv | exact Hp].
Defined.

(** ** What [interpolate_from_waypoints] refuses *)

(** X2.  The refusals, in the order the code tests them: a method other
    than linear is not implemented, whatever the waypoints; fewer than two
    waypoints are refused; a list mixing timed and untimed waypoints is
    refused whatever the window; untimed waypoints need a window, and the
    window needs a positive duration whatever the speed limit. *)
Theorem interpolate_refusals :
  (forall wps method mw ms fid,
      method <> "linear"%string ->
      interpolate_from_waypoints wps method mw ms fid
      = Err (NotImplementedError
               "Only linear interpolation is supported at this stage")) /\
  (forall wps mw ms fid,
      (length wps < 2)%nat ->
      interpolate_from_waypoints wps "linear" mw ms fid
      = Err (ValueError "Need at least 2 waypoints to build a trajectory")) /\
  (forall wps mw ms fid w_timed w_untimed,
      (2 <= length wps)%nat ->
      In w_timed wps -> t w_timed <> None ->
      In w_untimed wps -> t w_untimed = None ->
      interpolate_from_waypoints wps "linear" mw ms fid
      = Err (ValueError "Either all or none of the waypoints must have t set")) /\
  (forall wps ms fid,
      (2 <= length wps)%nat -> existsb has_t wps = false ->
      interpolate_from_waypoints wps "linear" None ms fid
      = Err (ValueError "mission_window is required when waypoints have no times")) /\
  (forall wps start_dt end_dt ms fid,
      (2 <= length wps)%nat -> existsb has_t wps = false ->
      timestamp end_dt <= timestamp start_dt ->
      interpolate_from_waypoints wps "linear" (Some (start_dt, end_dt)) ms fid
      = Err (ValueError "mission_window duration must be positive")).
Proof.
  split; [| split; [| split; [| split]]].
  - intros wps method mw ms fid Hm. unfold interpolate_from_waypoints.
    destruct (String.eqb_spec method "linear"); [contradiction | reflexivity].
  - intros wps mw ms fid Hlen. unfold interpolate_from_waypoints.
    cbn [String.eqb Ascii.eqb Bool.eqb negb].
    destruct (Nat.ltb_spec (length wps) 2); [reflexivity | lia].
  - intros wps mw ms fid wt wu Hlen Hin_t Ht Hin_u Hu.
    unfold interpolate_from_waypoints.
    cbn [String.eqb Ascii.eqb Bool.eqb negb].
    destruct (Nat.ltb_spec (length wps) 2); [lia |].
    assert (Hany : existsb has_t wps = true).
    { apply existsb_exists. exists wt. split; [exact Hin_t |].
      unfold has_t. destruct (t wt); [reflexivity | contradiction]. }
    assert (Hall : forallb has_t wps = false).
    { destruct (forallb has_t wps) eqn:E; [| reflexivity].
      rewrite forallb_forall in E. specialize (E wu Hin_u).
      unfold has_t in E. rewrite Hu in E. discriminate. }
    rewrite Hany, Hall. reflexivity.
  - intros wps ms fid Hlen Hnone. unfold interpolate_from_waypoints.
    cbn [String.eqb Ascii.eqb Bool.eqb negb].
    destruct (Nat.ltb_spec (length wps) 2); [lia |].
    rewrite Hnone. reflexivity.
  - intros wps start_dt end_dt ms fid Hlen Hnone Hdur.
    rewrite window_mode by assumption. unfold _compute_times_from_window.
    rewrite Rleb_true by lra. reflexivity.
Qed.

Lemma interpolate_refusals_witness :
  interpolate_from_waypoints straight_path "cubic" (Some window_0_10) None "primary"
  = Err (NotImplementedError "Only linear interpolation is supported at this stage") /\
  interpolate_from_waypoints [untimed 0 0; timed 10 0 5] "linear"
    (Some window_0_10) None "primary"
  = Err (ValueError "Either all or none of the waypoints must have t set") /\
  interpolate_from_waypoints straight_path "linear"
    (Some (mk_datetime 10, mk_datetime 10)) None "primary"
  = Err (ValueError "mission_window duration must be positive").
Proof.
  destruct interpolate_refusals as (Hm & _ & Hmixed & _ & Hdur).
  split; [apply Hm; discriminate |].
  split.
  - apply (Hmixed _ _ _ _ (timed 10 0 5) (untimed 0 0));
      [simpl; lia | right; left; reflexivity | discriminate
       | left; reflexivity | reflexivity].
  - apply Hdur; [simpl; lia | reflexivity | simpl; lra].
Defined.

(** ** The times of window-derived mode *)

Lemma cumsum_from_last (l : list R) (acc : R) :
  last (cumsum_from acc l) acc = acc + np_sum l.
Proof.
  revert acc. induction l as [| a l IH]; intros acc; [simpl; ring |].
  cbn [cumsum_from]. rewrite last_cons_head, IH. simpl. ring.
Qed.

Lemma index_last_map {A B : Type} (f : A -> B) (l : list A) (a : A) :
  index_last l = Ok a -> index_last (map f l) = Ok (f a).
Proof.
  destruct l as [| u l]; [discriminate |]. simpl. intros [= <-].
  rewrite last_map. reflexivity.
Qed.

Lemma proportional_times_ends (ps : list vec3) (start_s duration_s : R) :
  0 < np_sum (seg_lengths_of ps) ->
  index_first (proportional_times ps start_s duration_s) = Ok start_s /\
  index_last (proportional_times ps start_s duration_s) = Ok (start_s + duration_s).
Proof.
  intros Htot. unfold proportional_times, np_cumsum. rewrite map_map.
  set (g := fun c => start_s + c / np_sum (seg_lengths_of ps) * duration_s).
  cbn [map index_first index_last].
  rewrite (last_map g), cumsum_from_last. unfold g.
  split; f_equal; field; lra.
Qed.

Lemma window_mode_inv (wps : list Waypoint) (w : datetime * datetime)
      (max_speed_mps : option R) (fid : string) (tr : Trajectory) :
  existsb has_t wps = false ->
  interpolate_from_waypoints wps "linear" (Some w) max_speed_mps fid = Ok tr ->
  (2 <= length wps)%nat /\
  exists ts,
    _compute_times_from_window (_waypoints_to_positions wps) w max_speed_mps = Ok ts /\
    strictly_increasing ts /\
    tr = mk_Trajectory ts (_waypoints_to_positions wps) fid.
Proof.
  intros Hnone H.
  assert (Hlen : (2 <= length wps)%nat).
  { revert H. unfold interpolate_from_waypoints.
    cbn [String.eqb Ascii.eqb Bool.eqb negb].
    destruct (Nat.ltb_spec (length wps) 2); [discriminate | intros _; assumption]. }
  split; [exact Hlen |].
  rewrite window_mode in H by assumption.
  apply bind_Ok_inv in H. destruct H as (ts & Hts & Hnew).
  apply Trajectory_new_Ok in Hnew. destruct Hnew as (_ & Hinc & ->).
  exists ts. auto.
Qed.

Lemma linspace_nat_ends (a b : R) (n : nat) :
  (2 <= n)%nat ->
  index_first (linspace_nat a b n) = Ok a /\ index_last (linspace_nat a b n) = Ok b.
Proof.
  intros Hn. destruct n as [| [| n]]; try lia.
  unfold linspace_nat. cbn [seq map app index_first index_last]. split.
  - f_equal. simpl. ring.
  - f_equal. rewrite <- (last_cons_head _ (INR 0 * ((b - a) / INR (S n)) + a) 0).
    rewrite app_comm_cons. apply last_last.
Qed.

(** X3.  In window-derived mode every trajectory that is built spans
    exactly the mission window: its first time is the window start and
    its last time the window end, whether the times were spread by path
    length or, for coincident waypoints, evenly. *)
Theorem window_times_span_window :
  forall (wps : list Waypoint) (start_dt end_dt : datetime)
         (max_speed_mps : option R) (fid : string) (tr : Trajectory),
    existsb has_t wps = false ->
    interpolate_from_waypoints wps "linear" (Some (start_dt, end_dt))
      max_speed_mps fid = Ok tr ->
    timestamp start_dt < timestamp end_dt /\
    time_range tr = Ok (timestamp start_dt, timestamp end_dt).
Proof.
  intros wps start_dt end_dt ms fid tr Hnone H.
  destruct (window_mode_inv wps _ ms fid tr Hnone H) as (Hlen & ts & Hts & _ & ->).
  unfold time_range. cbn [times].
  revert Hts. unfold _compute_times_from_window.
  destruct (Rleb (timestamp end_dt - timestamp start_dt) 0) eqn:Ed; [discriminate |].
  apply Rleb_false_iff in Ed. split; [lra |].
  destruct (Rleb (np_sum (seg_lengths_of (_waypoints_to_positions wps))) 0) eqn:Et.
  - unfold np_linspace in Hts.
    destruct (Z.ltb_spec (Z.of_nat (length (_waypoints_to_positions wps))) 0);
      [discriminate |].
    injection Hts as <-. rewrite Nat2Z.id, positions_length.
    destruct (linspace_nat_ends (timestamp start_dt) (timestamp end_dt)
                (length wps) Hlen) as [-> ->].
    reflexivity.
  - apply Rleb_false_iff in Et.
    destruct (match ms with Some _ => _ | None => _ end); [discriminate |].
    change (Ok (proportional_times (_waypoints_to_positions wps) (timestamp start_dt)
                  (timestamp end_dt - timestamp start_dt)) = Ok ts) in Hts.
    injection Hts as <-.
    destruct (proportional_times_ends (_waypoints_to_positions wps)
                (timestamp start_dt) (timestamp end_dt - timestamp start_dt) Et)
      as [-> ->].
    cbn [bind]. f_equal. f_equal. ring.
Qed.

Lemma window_times_span_window_witness :
  time_range (mk_Trajectory [0; 10] (_waypoints_to_positions straight_path) "primary")
  = Ok (0, 10).
Proof.
  exact (proj2 (window_times_span_window straight_path (mk_datetime 0)
                  (mk_datetime 10) None "primary" _ eq_refl
                  (two_waypoint_build_ok (untimed 0 0) (untimed 10 0)
                     (mk_datetime 0) (mk_datetime 10) "primary" eq_refl eq_refl
                     ltac:(simpl; lra)))).
Defined.

(** ** Sampling through the recorded points *)

Lemma index_last_nth {A : Type} (l : list A) (d : A) :
  l <> [] -> index_last l = Ok (nth (length l - 1) l d).
Proof.
  destruct l as [| a l]; [contradiction |]. intros _. simpl. f_equal.
  rewrite Nat.sub_0_r. revert a. induction l as [| b l IH]; intros a; [reflexivity |].
  rewrite last_cons_head. simpl length. specialize (IH b).
  destruct l as [| c l]; [reflexivity |].
  rewrite last_cons_head in IH |- *. simpl in IH |- *. exact IH.
Qed.

Lemma lerp_at_start (a b fa fb : R) : lerp a b fa fb a = fa.
Proof. unfold lerp. replace (a - a) with 0 by ring. ring. Qed.

Lemma lerp3_at_start (a b : R) (p q : vec3) : lerp3 a b p q a = p.
Proof.
  unfold lerp3. rewrite !lerp_at_start. destruct p as [[u v] w]. reflexivity.
Qed.

Lemma sample_at_knot (tr : Trajectory) (i : nat) :
  valid tr -> (i < length (times tr))%nat ->
  sample_position_at tr (TFloat (nth i (times tr) 0))
  = Ok (nth i (positions tr) origin).
Proof.
  intros Hv Hi.
  destruct (Nat.lt_ge_cases (S i) (length (times tr))) as [Hin | Hlast].
  - rewrite (sample_segment tr _ i Hv Hin).
    + simpl seconds_of. rewrite lerp3_at_start. reflexivity.
    + simpl seconds_of. split; [lra |].
      apply (proj1 (strictly_increasing_nth (times tr)) (proj2 Hv) i Hin).
  - assert (Ei : i = (length (times tr) - 1)%nat) by lia.
    destruct Hv as [Hlen Hinc].
    apply (sample_clamp_last tr _ (nth i (times tr) 0)); [split; assumption | | | simpl; lra].
    + rewrite Ei at 1. apply index_last_nth. intros E. rewrite E in Hi. simpl in Hi. lia.
    + rewrite Ei, Hlen. apply index_last_nth.
      intros E. rewrite E in Hlen. rewrite Hlen in Hi. simpl in Hi. lia.
Qed.

(** X4.  The interpolation passes through the recorded points: sampled at
    its [i]-th recorded time, a trajectory satisfying the invariant
    returns its [i]-th recorded position; in particular the two ends of
    its time range give its first and last recorded positions. *)
Theorem sample_at_recorded_time :
  forall (tr : Trajectory),
    valid tr ->
    (forall i, (i < length (times tr))%nat ->
               sample_position_at tr (TFloat (nth i (times tr) 0))
               = Ok (nth i (positions tr) origin)) /\
    (forall t0 t1 p0 p1,
        time_range tr = Ok (t0, t1) ->
        index_first (positions tr) = Ok p0 -> index_last (positions tr) = Ok p1 ->
        sample_position_at tr (TFloat t0) = Ok p0 /\
        sample_position_at tr (TFloat t1) = Ok p1).
Proof.
  intros tr Hv. split.
  - intros i Hi. apply sample_at_knot; assumption.
  - intros t0 t1 p0 p1 Htr Hp0 Hp1.
    unfold time_range in Htr.
    apply bind_Ok_inv in Htr. destruct Htr as (a & Ha & Htr).
    apply bind_Ok_inv in Htr. destruct Htr as (b & Hb & [= -> ->]).
    split.
    + apply (sample_clamp_first tr _ t0); [assumption | assumption | simpl; lra].
    + apply (sample_clamp_last tr _ t1); [assumption | assumption | assumption | simpl; lra].
Qed.

Lemma sample_at_recorded_time_witness :
  sample_position_at crossing_sim (TFloat 10) = Ok (5, 5, 0).
Proof.
  exact (proj1 (sample_at_recorded_time crossing_sim (proj2 crossing_valid)) 1%nat
           ltac:(simpl; lia)).
Defined.

Lemma lerp_between (a b fa fb v : R) :
  a <= v -> v < b -> Rmin fa fb <= lerp a b fa fb v <= Rmax fa fb.
Proof.
  intros Hav Hvb. unfold lerp.
  set (lam := (v - a) / (b - a)).
  assert (H0 : 0 <= lam).
  { unfold lam. apply Rmult_le_pos; [lra |]. apply Rlt_le, Rinv_0_lt_compat. lra. }
  assert (H1 : lam <= 1).
  { unfold lam. apply Rmult_le_reg_r with (b - a); [lra |].
    unfold Rdiv. rewrite Rmult_assoc, Rinv_l by lra. lra. }
  replace ((fb - fa) / (b - a) * (v - a) + fa) with (fa + (fb - fa) * lam)
    by (unfold lam; field; lra).
  unfold Rmin, Rmax. destruct (Rle_dec fa fb); nra.
Qed.

(** X5.  No overshoot: within a segment of the time sequence each sampled
    coordinate lies between that coordinate at the two ends of the
    segment. *)
Theorem sample_stays_within_segment :
  forall (tr : Trajectory) (j : nat) (tv : R),
    valid tr -> (S j < length (times tr))%nat ->
    nth j (times tr) 0 <= tv <= nth (S j) (times tr) 0 ->
    exists p,
      sample_position_at tr (TFloat tv) = Ok p /\
      let a := nth j (positions tr) origin in
      let b := nth (S j) (positions tr) origin in
      Rmin (vx a) (vx b) <= vx p <= Rmax (vx a) (vx b) /\
      Rmin (vy a) (vy b) <= vy p <= Rmax (vy a) (vy b) /\
      Rmin (vz a) (vz b) <= vz p <= Rmax (vz a) (vz b).
Proof.
  intros tr j tv Hv Hj [Hlo Hhi].
  destruct (Rlt_dec tv (nth (S j) (times tr) 0)) as [Hlt | Hge].
  - eexists. split; [apply (sample_segment tr (TFloat tv) j Hv Hj); simpl; lra |].
    cbv zeta. unfold lerp3, vx at 3, vy at 3, vz at 3. cbn [fst snd seconds_of].
    repeat split; apply lerp_between; assumption.
  - assert (E : tv = nth (S j) (times tr) 0) by lra. subst tv.
    exists (nth (S j) (positions tr) origin).
    split; [apply sample_at_knot; [assumption | lia] |].
    cbv zeta. unfold Rmin, Rmax.
    repeat split;
      match goal with
      | |- context [Rle_dec ?u ?v] => destruct (Rle_dec u v); lra
      end.
Qed.

Lemma sample_stays_within_segment_witness :
  exists p,
    sample_position_at crossing_sim (TFloat 3) = Ok p /\
    Rmin (-5) 5 <= vy p <= Rmax (-5) 5.
Proof.
  destruct (sample_stays_within_segment crossing_sim O 3 (proj2 crossing_valid)
              ltac:(simpl; lia) ltac:(simpl; lra)) as (p & Hp & _ & Hy & _).
  exists p. split; [exact Hp | exact Hy].
Defined.

(** ** The two sampling routes agree *)

Lemma interp_val_below (t0 : R) (ts : list R) (f0 : R) (fs : list R) (v : R) :
  length ts = length fs -> increasing_from t0 ts -> v <= t0 ->
  interp_val v (t0 :: ts) (f0 :: fs) = f0.
Proof.
  intros Hlen Hinc Hv. destruct (Rlt_dec v t0) as [Hlt | Hge].
  - unfold interp_val, np_interp. simpl length. rewrite Hlen, Nat.eqb_refl.
    cbn [negb]. rewrite Rltb_true by assumption. reflexivity.
  - assert (v = t0) by lra. subst v. apply interp_val_at_start; assumption.
Qed.

Lemma sample_position_at_interp (tr : Trajectory) (tv : R) :
  valid tr -> nonempty tr ->
  sample_position_at tr (TFloat tv)
  = Ok (interp_val tv (times tr) (map vx (positions tr)),
        interp_val tv (times tr) (map vy (positions tr)),
        interp_val tv (times tr) (map vz (positions tr))).
Proof.
  intros [Hlen Hinc] Hne. unfold nonempty in Hne.
  destruct tr as [ts ps fid]; simpl in *.
  destruct ts as [| t0 ts]; [contradiction |].
  destruct ps as [| p0 ps]; [discriminate |].
  injection Hlen as Hlen. simpl in Hinc.
  unfold sample_position_at. cbn [times positions index_first index_last bind map].
  destruct (Rleb tv t0) eqn:E0.
  - apply Rleb_spec in E0.
    rewrite !interp_val_below; try (rewrite length_map); try assumption.
    destruct p0 as [[a b] c]. reflexivity.
  - apply Rleb_false_iff in E0.
    destruct (Rleb (last ts t0) tv) eqn:E1.
    + apply Rleb_spec in E1.
      rewrite !interp_val_at_end; try (rewrite length_map); try assumption.
      rewrite !last_map. destruct (last ps p0) as [[a b] c]. reflexivity.
    + change (vx p0 :: map vx ps) with (map vx (p0 :: ps)).
      change (vy p0 :: map vy ps) with (map vy (p0 :: ps)).
      change (vz p0 :: map vz ps) with (map vz (p0 :: ps)).
      rewrite !np_interp_val;
        try (rewrite length_map; simpl; rewrite Hlen; reflexivity);
        try discriminate.
      reflexivity.
Qed.

(** X6.  [sample_uniform] and [sample_position_at] agree: the positions
    [sample_uniform] returns are those [sample_position_at] gives, one by
    one, at the times of the returned grid. *)
Theorem sample_uniform_agrees_with_sample_position_at :
  forall (tr : Trajectory) (dt_s t0 t1 : R),
    valid tr -> time_range tr = Ok (t0, t1) -> t0 < t1 -> 0 < dt_s ->
    exists (grid : list R) (poss : list vec3),
      sample_uniform tr dt_s = Ok (grid, poss) /\
      mapM (fun tv => sample_position_at tr (TFloat tv)) grid = Ok poss.
Proof.
  intros tr dt_s t0 t1 Hv Htr Hlt Hdt.
  destruct (sample_uniform_unfold tr dt_s t0 t1 Hv Htr Hlt Hdt) as [_ Hsu].
  cbv zeta in Hsu. eexists; eexists. split; [exact Hsu |].
  apply mapM_total. intros tv _. apply sample_position_at_interp; [exact Hv |].
  exact (proj1 (valid_well_formed tr t0 t1 Hv Htr)).
Qed.

Lemma sample_uniform_agrees_with_sample_position_at_witness :
  exists (grid : list R) (poss : list vec3),
    sample_uniform crossing_sim 1 = Ok (grid, poss) /\
    mapM (fun tv => sample_position_at crossing_sim (TFloat tv)) grid = Ok poss.
Proof.
  exact (sample_uniform_agrees_with_sample_position_at crossing_sim 1 0 10
           (proj2 crossing_valid) eq_refl ltac:(lra) ltac:(lra)).
Defined.

Lemma linspace_nat_bounds (a b : R) (n : nat) (u : R) :
  a < b -> In u (linspace_nat a b n) -> a <= u <= b.
Proof.
  intros Hab Hin. destruct n as [| [| n]]; [contradiction | |].
  - destruct Hin as [<- | []]. lra.
  - destruct (In_nth _ _ 0 Hin) as (i & Hi & <-).
    rewrite linspace_nat_length in Hi.
    rewrite linspace_nat_nth by lia.
    replace (S (S n) - 1)%nat with (S n) by lia.
    assert (Hpos : 0 < INR (S n)) by (apply lt_0_INR; lia).
    assert (Hile : INR i <= INR (S n)) by (apply le_INR; lia).
    assert (Hi0 : 0 <= INR i) by apply pos_INR.
    assert (Hstep : 0 < (b - a) / INR (S n)) by (apply Rdiv_lt_0_compat; lra).
    assert (Hfull : INR (S n) * ((b - a) / INR (S n)) = b - a) by (field; lra).
    split; [nra |].
    assert (INR i * ((b - a) / INR (S n)) <= INR (S n) * ((b - a) / INR (S n)))
      by (apply Rmult_le_compat_r; lra).
    lra.
Qed.

(** X7.  The grid of [sample_uniform] starts at the trajectory's first
    time, is strictly increasing and stays inside the time range. *)
Theorem sample_uniform_grid_shape :
  forall (tr : Trajectory) (dt_s t0 t1 : R),
    valid tr -> time_range tr = Ok (t0, t1) -> t0 < t1 -> 0 < dt_s ->
    exists (grid : list R) (poss : list vec3),
      sample_uniform tr dt_s = Ok (grid, poss) /\
      index_first grid = Ok t0 /\
      strictly_increasing grid /\
      Forall (fun tv => t0 <= tv <= t1) grid.
Proof.
  intros tr dt_s t0 t1 Hv Htr Hlt Hdt.
  destruct (sample_uniform_unfold tr dt_s t0 t1 Hv Htr Hlt Hdt) as [Hfl Hsu].
  cbv zeta in Hsu. eexists; eexists. split; [exact Hsu |].
  split; [| split].
  - destruct (Z.to_nat (n_steps_of t0 t1 dt_s)) as [| [| n]] eqn:En.
    + unfold n_steps_of in En. lia.
    + reflexivity.
    + apply linspace_nat_ends. lia.
  - apply linspace_nat_increasing. exact Hlt.
  - apply Forall_forall. intros u Hu.
    apply (linspace_nat_bounds t0 t1 _ u Hlt Hu).
Qed.

Lemma sample_uniform_grid_shape_witness :
  exists (grid : list R) (poss : list vec3),
    sample_uniform crossing_sim 1 = Ok (grid, poss) /\
    index_first grid = Ok 0 /\
    strictly_increasing grid /\
    Forall (fun tv => 0 <= tv <= 10) grid.
Proof.
  exact (sample_uniform_grid_shape crossing_sim 1 0 10
           (proj2 crossing_valid) eq_refl ltac:(lra) ltac:(lra)).
Defined.

(** ** Trajectories too short to sample *)

Section ShortTrajectories.

Variable utc_isoformat : R -> string.
Variable format_2f : R -> string.
Variable format_list : list R -> string.

(** X8.  A non-positive step is refused before the trajectory is looked
    at.  A trajectory of a single sample passes the constructor, but its
    time range is empty: uniform sampling refuses it, and with it the
    spatial check and the closest approach that are given it as first
    trajectory; the spatio-temporal detector takes it as an intruder
    without overlap and reports nothing for it. *)
Theorem single_sample_trajectory :
  (forall (tr : Trajectory) (dt_s : R),
      dt_s <= 0 -> sample_uniform tr dt_s = Err (ValueError "dt_s must be positive")) /\
  (forall (t0 : R) (p : vec3) (fid : string),
      let tr := mk_Trajectory [t0] [p] fid in
      Trajectory_new [t0] [p] fid = Ok tr /\
      (forall dt_s, 0 < dt_s ->
                    sample_uniform tr dt_s = Err (ValueError "Invalid time range")) /\
      (forall other buffer_m use_3d,
          check_spatial_conflict tr other buffer_m use_3d
          = Err (ValueError "Invalid time range")) /\
      (forall other, closest_approach tr other = Err (ValueError "Invalid time range")) /\
      (forall primary p0 p1 safety_buffer_m dt use_3d,
          intruder_conflicts utc_isoformat format_2f format_list
            primary p0 p1 tr safety_buffer_m dt use_3d = Ok [])).
Proof.
  split.
  - intros tr dt_s Hdt. unfold sample_uniform. rewrite Rleb_true by assumption.
    reflexivity.
  - intros t0 p fid tr.
    assert (Hsu : forall dt_s, 0 < dt_s ->
                    sample_uniform tr dt_s = Err (ValueError "Invalid time range")).
    { intros dt_s Hdt. unfold sample_uniform. rewrite Rleb_false by assumption.
      unfold tr, time_range. cbn [times index_first index_last bind last].
      rewrite Rleb_true by lra. reflexivity. }
    split; [reflexivity |]. split; [exact Hsu |]. split; [| split].
    + intros other buffer_m use_3d. unfold check_spatial_conflict.
      rewrite Hsu by lra. reflexivity.
    + intros other. unfold closest_approach. rewrite Hsu by lra. reflexivity.
    + intros primary p0 p1 bound dt use_3d.
      apply (intruder_no_overlap utc_isoformat format_2f format_list
               primary tr p0 p1 t0 t0); [reflexivity |].
      unfold Rmin, Rmax. destruct (Rle_dec p1 t0), (Rle_dec p0 t0); lra.
Qed.

End ShortTrajectories.

Lemma single_sample_trajectory_witness :
  sample_uniform crossing_sim (-1) = Err (ValueError "dt_s must be positive") /\
  sample_uniform crossing_sim 0 = Err (ValueError "dt_s must be positive").
Proof.
  split; apply (proj1 (single_sample_trajectory no_text no_text no_text)); lra.
Defined.

(** ** The report of the detector *)

Lemma mapM_Ok_In {A B : Type} (f : A -> result B) (l : list A) (out : list B) :
  mapM f l = Ok out -> forall b, In b out -> exists a, In a l /\ f a = Ok b.
Proof.
  revert out. induction l as [| a l IH]; intros out H b Hb; simpl in H.
  - injection H as <-. contradiction.
  - destruct (f a) as [b0 | e] eqn:Ea; [| discriminate]. cbn [bind] in H.
    destruct (mapM f l) as [bs | e]; [| discriminate]. cbn [bind] in H.
    injection H as <-. destruct Hb as [<- | Hb].
    + exists a. split; [left; reflexivity | exact Ea].
    + destruct (IH bs eq_refl b Hb) as (a' & Hin & Hf).
      exists a'. split; [right; exact Hin | exact Hf].
Qed.

Lemma where_lt_from_In (dists : list R) (bound : R) (i idx : nat) :
  In idx (where_lt_from i dists bound) ->
  exists d, nth_error dists (idx - i) = Some d /\ d < bound /\ (i <= idx)%nat.
Proof.
  revert i. induction dists as [| d ds IH]; intros i Hin; [contradiction |].
  cbn [where_lt_from] in Hin.
  assert (Hrest : In idx (where_lt_from (S i) ds bound) ->
                  exists d', nth_error (d :: ds) (idx - i) = Some d' /\ d' < bound
                             /\ (i <= idx)%nat).
  { intros H. destruct (IH (S i) H) as (d' & Hn & Hlt & Hle).
    exists d'. replace (idx - i)%nat with (S (idx - S i)) by lia.
    split; [exact Hn | split; [exact Hlt | lia]]. }
  destruct (Rltb d bound) eqn:E; [| apply Hrest; exact Hin].
  destruct Hin as [<- | Hin]; [| apply Hrest; exact Hin].
  exists d. rewrite Nat.sub_diag. apply Rltb_spec in E. auto.
Qed.

Lemma norm_row_nonneg (d : list R) : 0 <= norm_row d.
Proof. apply sqrt_pos. Qed.

Section DetectorReport.

Variable utc_isoformat : R -> string.
Variable format_2f : R -> string.
Variable format_list : list R -> string.


Lemma check_Ok_inv (primary : Trajectory) (sims : list Trajectory)
      (bound dt : R) (use_3d : bool) (report : Report) :
  check_spatiotemporal_conflicts utc_isoformat format_2f format_list
    primary sims bound dt use_3d = Ok report ->
  exists p0 p1,
    time_range primary = Ok (p0, p1) /\
    detect_loop utc_isoformat format_2f format_list
      primary p0 p1 sims bound dt use_3d [] = Ok (conflicts report) /\
    (status report = conflict <-> conflicts report <> []) /\
    (status report = clear <-> conflicts report = []).
Proof.
  unfold check_spatiotemporal_conflicts. intros H.
  apply bind_Ok_inv in H. destruct H as ([p0 p1] & Hp & H).
  apply bind_Ok_inv in H. destruct H as (found & Hloop & H).
  exists p0, p1. split; [exact Hp |].
  destruct found as [| c found]; injection H as <-; simpl;
    (split; [exact Hloop |]); split; split; try discriminate; try reflexivity;
    intros; congruence.
Qed.

(** X9.  In every report the detector returns, the status is [conflict]
    exactly when the conflict list is not empty and [clear] exactly when
    it is empty.  A primary without samples is an error even when there
    is no intruder to compare it with; a primary with samples and no
    intruder is clear. *)
Theorem report_status_matches_conflicts :
  (forall primary sims safety_buffer_m dt use_3d report,
      check_spatiotemporal_conflicts utc_isoformat format_2f format_list
        primary sims safety_buffer_m dt use_3d = Ok report ->
      (status report = conflict <-> conflicts report <> []) /\
      (status report = clear <-> conflicts report = [])) /\
  (forall primary sims safety_buffer_m dt use_3d,
      times primary = [] ->
      check_spatiotemporal_conflicts utc_isoformat format_2f format_list
        primary sims safety_buffer_m dt use_3d = Err IndexError) /\
  (forall primary safety_buffer_m dt use_3d,
      times primary <> [] ->
      check_spatiotemporal_conflicts utc_isoformat format_2f format_list
        primary [] safety_buffer_m dt use_3d = Ok (mk_Report clear [])).
Proof.
  split; [| split].
  - intros primary sims bound dt use_3d report H.
    destruct (check_Ok_inv primary sims bound dt use_3d report H)
      as (p0 & p1 & _ & _ & H1 & H2).
    split; assumption.
  - intros primary sims bound dt use_3d Hempty.
    unfold check_spatiotemporal_conflicts, time_range. rewrite Hempty. reflexivity.
  - intros primary bound dt use_3d Hne.
    unfold check_spatiotemporal_conflicts, time_range.
    destruct (times primary) as [| a l]; [contradiction |]. reflexivity.
Qed.


End DetectorReport.

Lemma late_sim_report :
  check_spatiotemporal_conflicts no_text no_text no_text
    crossing_primary [late_sim] 1 1 false = Ok (mk_Report clear []).
Proof.
  rewrite (check_single_intruder no_text no_text no_text crossing_primary late_sim
             1 1 0 10 false []); [reflexivity | reflexivity |].
  apply (intruder_no_overlap no_text no_text no_text crossing_primary late_sim
           0 10 20 30); [reflexivity |].
  rewrite Rmin_left, Rmax_right by lra. lra.
Qed.

Lemma report_status_matches_conflicts_witness :
  status (mk_Report clear []) = clear <-> conflicts (mk_Report clear []) = [].
Proof.
  exact (proj2 (proj1 (report_status_matches_conflicts no_text no_text no_text)
                  crossing_primary [late_sim] 1 1 false _ late_sim_report)).
Defined.


(** ** What a record of the report holds *)

Lemma detect_loop_Ok_In (iso f2 : R -> string) (fl : list R -> string)
      (primary : Trajectory) (p0 p1 bound dt : R) (use_3d : bool)
      (sims : list Trajectory) (acc out : list Conflict) :
  detect_loop iso f2 fl primary p0 p1 sims bound dt use_3d acc = Ok out ->
  forall c, In c out ->
    In c acc \/
    exists sim found,
      In sim sims /\
      intruder_conflicts iso f2 fl primary p0 p1 sim bound dt use_3d = Ok found /\
      In c found.
Proof.
  revert acc. induction sims as [| sim sims IH]; intros acc H c Hc.
  - simpl in H. injection H as <-. left. exact Hc.
  - cbn [detect_loop] in H.
    destruct (intruder_conflicts iso f2 fl primary p0 p1 sim bound dt use_3d)
      as [f0 | e] eqn:E; [| discriminate].
    cbn [bind] in H. destruct (IH _ H c Hc) as [Hacc | (sim' & found & Hin & Hf & Hcf)].
    + apply in_app_or in Hacc. destruct Hacc as [Ha | Hf0]; [left; exact Ha |].
      right. exists sim, f0. split; [left; reflexivity | split; assumption].
    + right. exists sim', found. split; [right; exact Hin | split; assumption].
Qed.

Lemma grid_conflicts_Ok_In (iso f2 : R -> string) (fl : list R -> string)
      (primary sim : Trajectory) (bound : R) (use_3d : bool) (grid : list R)
      (found : list Conflict) (c : Conflict) :
  grid_conflicts iso f2 fl primary sim bound use_3d grid = Ok found -> In c found ->
  exists tv pp sp d,
    c = conflict_details iso f2 fl sim tv (row_of pp) (row_of sp) d /\
    In tv grid /\ 0 <= d < bound.
Proof.
  unfold grid_conflicts. intros H Hc.
  apply bind_Ok_inv in H. destruct H as (psamples & Hps & H).
  apply bind_Ok_inv in H. destruct H as (ssamples & Hss & H).
  cbv zeta in H.
  destruct (mapM_Ok_In _ _ _ H c Hc) as (idx & Hidx & Hentry).
  unfold conflict_entry in Hentry.
  apply bind_Ok_inv in Hentry. destruct Hentry as (tv & Htv & Hentry).
  apply bind_Ok_inv in Hentry. destruct Hentry as (p & Hp & Hentry).
  apply bind_Ok_inv in Hentry. destruct Hentry as (s & Hs & Hentry).
  apply bind_Ok_inv in Hentry. destruct Hentry as (d & Hd & Hentry).
  injection Hentry as <-.
  assert (Hin_of : forall (A : Type) (l : list A) (a : A),
             index_at l idx = Ok a -> In a l).
  { intros A l a Ha. unfold index_at in Ha.
    destruct (nth_error l idx) eqn:E; [| discriminate].
    injection Ha as <-. apply (nth_error_In _ _ E). }
  assert (Hrow : forall tr samples row,
             mapM (fun tv => q <- sample_position_at tr (TFloat tv) ;; Ok (row_of q)) grid
             = Ok samples ->
             In row samples -> exists q, row = row_of q).
  { intros tr samples row Hm Hr.
    destruct (mapM_Ok_In _ _ _ Hm row Hr) as (u & _ & Hu).
    apply bind_Ok_inv in Hu. destruct Hu as (q & _ & [= <-]). eauto. }
  destruct (Hrow primary psamples p Hps (Hin_of _ _ _ Hp)) as (pp & ->).
  destruct (Hrow sim ssamples s Hss (Hin_of _ _ _ Hs)) as (sp & ->).
  exists tv, pp, sp, d. split; [reflexivity |]. split; [apply (Hin_of _ _ _ Htv) |].
  unfold where_lt in Hidx. apply where_lt_from_In in Hidx.
  destruct Hidx as (d' & Hn & Hlt & _). rewrite Nat.sub_0_r in Hn.
  unfold index_at in Hd. rewrite Hn in Hd. injection Hd as <-.
  split; [| exact Hlt].
  apply nth_error_In in Hn. apply in_map_iff in Hn.
  destruct Hn as (ab & <- & _). apply norm_row_nonneg.
Qed.

Section RecordContents.

Variable utc_isoformat : R -> string.
Variable format_2f : R -> string.
Variable format_list : list R -> string.

(** X11.  Every record of every report the detector returns is
    attributed to one of the intruders of the list and stamped with one
    instant, the same in [conflict_times] and [time_of_min]; it holds one
    pair of positions of three coordinates each, also when the distance
    is planar; and its distance is at least 0 and strictly under the
    buffer. *)
Theorem record_contents :
  forall primary sims safety_buffer_m dt use_3d report,
    check_spatiotemporal_conflicts utc_isoformat format_2f format_list
      primary sims safety_buffer_m dt use_3d = Ok report ->
    Forall (fun c =>
              (exists sim, In sim sims /\ c_flight_id c = flight_id sim) /\
              conflict_times c = [time_of_min c] /\
              (exists pp sp, conflict_positions c = [(row_of pp, row_of sp)]) /\
              0 <= min_distance_m c < safety_buffer_m)
           (conflicts report).
Proof.
  intros primary sims bound dt use_3d report H.
  destruct (check_Ok_inv utc_isoformat format_2f format_list _ _ _ _ _ _ H)
    as (p0 & p1 & _ & Hloop & _).
  apply Forall_forall. intros c Hc.
  destruct (detect_loop_Ok_In _ _ _ _ _ _ _ _ _ _ _ _ Hloop c Hc)
    as [[] | (sim & found & Hin & Hf & Hcf)].
  assert (Hgrid : exists grid,
             grid_conflicts utc_isoformat format_2f format_list
               primary sim bound use_3d grid = Ok found).
  { revert Hf. unfold intruder_conflicts. intros Hf.
    apply bind_Ok_inv in Hf. destruct Hf as ([s0 s1] & _ & Hf).
    destruct (Rleb _ _); [injection Hf as <-; contradiction |].
    apply bind_Ok_inv in Hf. destruct Hf as (grid & _ & Hf).
    destruct grid as [| g0 grid]; [injection Hf as <-; contradiction |].
    eauto. }
  destruct Hgrid as (grid & Hgrid).
  destruct (grid_conflicts_Ok_In _ _ _ _ _ _ _ _ _ c Hgrid Hcf)
    as (tv & pp & sp & d & -> & _ & Hd).
  split; [exists sim; split; [exact Hin | reflexivity] |].
  split; [reflexivity |]. split; [exists pp, sp; reflexivity |]. exact Hd.
Qed.

End RecordContents.

Lemma brief_report :
  check_spatiotemporal_conflicts no_text no_text no_text
    brief_primary [brief_sim] 1 1 false
  = Ok (mk_Report conflict
          [record_at no_text no_text no_text false brief_primary brief_sim 0]).
Proof.
  destruct brief_overlap as [E0 E1].
  rewrite (check_single_intruder no_text no_text no_text brief_primary brief_sim
             1 1 0 (1 / 2) false
             [record_at no_text no_text no_text false brief_primary brief_sim 0]);
    [reflexivity | reflexivity |].
  rewrite (intruder_conflicts_filter no_text no_text no_text brief_primary brief_sim
             0 (1 / 2) 1 1 false
             (proj1 brief_well_formed) (proj2 brief_well_formed) eq_refl)
    by lra.
  unfold violating_instants, sample_grid.
  rewrite (overlap_of_ranges brief_primary brief_sim 0 (1 / 2) 0 (1 / 2) eq_refl eq_refl).
  rewrite E0, E1, Rleb_false by lra.
  rewrite (np_arange_short 0 (1 / 2) 1) by lra. cbn [filter].
  rewrite brief_distance_at_0, Rltb_true by lra. reflexivity.
Qed.

Lemma record_contents_witness :
  Forall (fun c =>
            (exists sim, In sim [brief_sim] /\ c_flight_id c = flight_id sim) /\
            conflict_times c = [time_of_min c] /\
            (exists pp sp, conflict_positions c = [(row_of pp, row_of sp)]) /\
            0 <= min_distance_m c < 1)
         [record_at no_text no_text no_text false brief_primary brief_sim 0].
Proof.
  exact (record_contents no_text no_text no_text
           brief_primary [brief_sim] 1 1 false _ brief_report).
Defined.

(** ** Two or three dimensions, larger or smaller buffers *)

Lemma separation_planar_le_spatial (p s : vec3) :
  separation false p s <= separation true p s.
Proof.
  rewrite separation_planar, separation_spatial.
  apply sqrt_le_1_alt.
  set (a := (vx p - vx s) * (vx p - vx s)).
  set (b := (vy p - vy s) * (vy p - vy s)).
  set (c := (vz p - vz s) * (vz p - vz s)).
  assert (0 <= c) by (unfold c; apply Rle_0_sqr).
  lra.
Qed.

Lemma separation_nonneg (use_3d : bool) (p s : vec3) : 0 <= separation use_3d p s.
Proof. unfold separation. apply norm_row_nonneg. Qed.

Lemma filter_length_le {A : Type} (f g : A -> bool) (l : list A) :
  (forall a, In a l -> f a = true -> g a = true) ->
  (length (filter f l) <= length (filter g l))%nat.
Proof.
  induction l as [| a l IH]; intros H; [simpl; lia |].
  assert (IH' := IH (fun b Hb => H b (or_intror Hb))).
  cbn [filter]. destruct (f a) eqn:Ef.
  - rewrite (H a (or_introl eq_refl) Ef). simpl. lia.
  - destruct (g a); simpl; lia.
Qed.

Lemma flat_map_length_le {A B : Type} (F G : A -> list B) (l : list A) :
  (forall a, In a l -> (length (F a) <= length (G a))%nat) ->
  (length (flat_map F l) <= length (flat_map G l))%nat.
Proof.
  induction l as [| a l IH]; intros H; [simpl; lia |].
  cbn [flat_map]. rewrite !length_app.
  pose proof (H a (or_introl eq_refl)).
  pose proof (IH (fun b Hb => H b (or_intror Hb))). lia.
Qed.

Section DetectorOrder.

Variable utc_isoformat : R -> string.
Variable format_2f : R -> string.
Variable format_list : list R -> string.

Lemma detector_runs (primary : Trajectory) (sims : list Trajectory)
      (bound dt : R) (use_3d : bool) :
  well_formed primary -> Forall well_formed sims -> dt <> 0 ->
  exists report,
    check_spatiotemporal_conflicts utc_isoformat format_2f format_list
      primary sims bound dt use_3d = Ok report /\
    conflicts report =
      flat_map (fun sim =>
                  map (record_at utc_isoformat format_2f format_list
                         use_3d primary sim)
                      (violating_instants use_3d primary sim bound dt)) sims /\
    (status report = conflict <-> conflicts report <> []) /\
    (status report = clear <-> conflicts report = []).
Proof.
  intros Hp Hsims Hdt.
  destruct (time_range_well_formed primary Hp) as (p0 & p1 & Htr).
  destruct (report_of_found utc_isoformat format_2f format_list
              primary sims p0 p1 bound dt use_3d
              (flat_map (fun sim =>
                           map (record_at utc_isoformat format_2f format_list
                                  use_3d primary sim)
                               (violating_instants use_3d primary sim bound dt)) sims)
              Htr) as (report & Hrun & Hc & Hs1 & Hs2).
  - rewrite (detect_loop_flat_map utc_isoformat format_2f format_list
               primary p0 p1 bound dt use_3d
               (fun sim => map (record_at utc_isoformat format_2f format_list
                                  use_3d primary sim)
                               (violating_instants use_3d primary sim bound dt)));
      [reflexivity |].
    intros sim Hin. apply intruder_conflicts_filter; trivial.
    rewrite Forall_forall in Hsims. apply Hsims. exact Hin.
  - exists report. rewrite Hc. auto.
Qed.

(** X12.  Asking for 3D distances never adds a conflict: on the same
    inputs every grid instant that violates the buffer in 3D violates it
    in 2D, the 3D report has at most as many records as the 2D report,
    and a 3D [conflict] status implies a 2D one. *)
Theorem three_d_reports_no_more :
  forall primary sims safety_buffer_m dt,
    well_formed primary -> Forall well_formed sims -> dt <> 0 ->
    exists r3 r2,
      check_spatiotemporal_conflicts utc_isoformat format_2f format_list
        primary sims safety_buffer_m dt true = Ok r3 /\
      check_spatiotemporal_conflicts utc_isoformat format_2f format_list
        primary sims safety_buffer_m dt false = Ok r2 /\
      (forall sim tv,
          In tv (violating_instants true primary sim safety_buffer_m dt) ->
          In tv (violating_instants false primary sim safety_buffer_m dt)) /\
      (length (conflicts r3) <= length (conflicts r2))%nat /\
      (status r3 = conflict -> status r2 = conflict).
Proof.
  intros primary sims bound dt Hp Hsims Hdt.
  destruct (detector_runs primary sims bound dt true Hp Hsims Hdt)
    as (r3 & Hr3 & Hc3 & Hs3 & _).
  destruct (detector_runs primary sims bound dt false Hp Hsims Hdt)
    as (r2 & Hr2 & Hc2 & Hs2 & _).
  assert (Himp : forall sim tv,
             Rltb (distance_at true primary sim tv) bound = true ->
             Rltb (distance_at false primary sim tv) bound = true).
  { intros sim tv H. apply Rltb_spec in H. apply Rltb_true.
    pose proof (separation_planar_le_spatial (position_of primary tv)
                  (position_of sim tv)).
    unfold distance_at in *. lra. }
  assert (Hlen : (length (conflicts r3) <= length (conflicts r2))%nat).
  { rewrite Hc3, Hc2. apply flat_map_length_le. intros sim _.
    rewrite !length_map. unfold violating_instants.
    apply filter_length_le. intros tv _. apply Himp. }
  exists r3, r2. split; [exact Hr3 |]. split; [exact Hr2 |]. split; [| split].
  - intros sim tv Hin. unfold violating_instants in *.
    apply filter_In in Hin. destruct Hin as [Hg Hlt].
    apply filter_In. split; [exact Hg | apply Himp; exact Hlt].
  - exact Hlen.
  - intros H3. apply Hs2. apply Hs3 in H3.
    destruct (conflicts r3) as [| c3 l3]; [contradiction |].
    destruct (conflicts r2); [simpl in Hlen; lia | discriminate].
Qed.

(** X13.  The buffer orders the reports: with a buffer of 0 or less the
    report is clear, since no distance is negative; and enlarging the
    buffer keeps every violating instant and so never shortens the
    report. *)
Theorem buffer_orders_reports :
  forall primary sims dt use_3d,
    well_formed primary -> Forall well_formed sims -> dt <> 0 ->
    (forall safety_buffer_m,
        safety_buffer_m <= 0 ->
        check_spatiotemporal_conflicts utc_isoformat format_2f format_list
          primary sims safety_buffer_m dt use_3d = Ok (mk_Report clear [])) /\
    (forall small large,
        small <= large ->
        exists r_small r_large,
          check_spatiotemporal_conflicts utc_isoformat format_2f format_list
            primary sims small dt use_3d = Ok r_small /\
          check_spatiotemporal_conflicts utc_isoformat format_2f format_list
            primary sims large dt use_3d = Ok r_large /\
          (forall sim tv,
              In tv (violating_instants use_3d primary sim small dt) ->
              In tv (violating_instants use_3d primary sim large dt)) /\
          (length (conflicts r_small) <= length (conflicts r_large))%nat).
Proof.
  intros primary sims dt use_3d Hp Hsims Hdt. split.
  - intros bound Hb.
    destruct (detector_runs primary sims bound dt use_3d Hp Hsims Hdt)
      as (r & Hr & Hc & _ & Hs).
    assert (Hnil : conflicts r = []).
    { rewrite Hc. clear - Hb. induction sims as [| sim sims IH]; [reflexivity |].
      cbn [flat_map]. rewrite IH, app_nil_r.
      unfold violating_instants.
      replace (filter _ (sample_grid primary sim dt)) with (@nil R); [reflexivity |].
      symmetry. induction (sample_grid primary sim dt) as [| tv g IHg]; [reflexivity |].
      cbn [filter]. rewrite Rltb_false; [exact IHg |].
      pose proof (separation_nonneg use_3d (position_of primary tv) (position_of sim tv)).
      unfold distance_at. lra. }
    rewrite Hr. clear Hr Hc. destruct r as [st cs]. simpl in Hnil, Hs.
    rewrite (proj2 Hs Hnil), Hnil. reflexivity.
  - intros small large Hle.
    destruct (detector_runs primary sims small dt use_3d Hp Hsims Hdt)
      as (rs & Hrs & Hcs & _).
    destruct (detector_runs primary sims large dt use_3d Hp Hsims Hdt)
      as (rl & Hrl & Hcl & _).
    assert (Himp : forall sim tv,
               Rltb (distance_at use_3d primary sim tv) small = true ->
               Rltb (distance_at use_3d primary sim tv) large = true).
    { intros sim tv H. apply Rltb_spec in H. apply Rltb_true. lra. }
    exists rs, rl. split; [exact Hrs |]. split; [exact Hrl |]. split.
    + intros sim tv Hin. unfold violating_instants in *.
      apply filter_In in Hin. destruct Hin as [Hg Hlt].
      apply filter_In. split; [exact Hg | apply Himp; exact Hlt].
    + rewrite Hcs, Hcl. apply flat_map_length_le. intros sim _.
      rewrite !length_map. unfold violating_instants.
      apply filter_length_le. intros tv _. apply Himp.
Qed.

End DetectorOrder.

Lemma three_d_reports_no_more_witness :
  exists r3 r2,
    check_spatiotemporal_conflicts no_text no_text no_text
      crossing_primary [crossing_sim] 1 1 true = Ok r3 /\
    check_spatiotemporal_conflicts no_text no_text no_text
      crossing_primary [crossing_sim] 1 1 false = Ok r2 /\
    (length (conflicts r3) <= length (conflicts r2))%nat.
Proof.
  destruct (three_d_reports_no_more no_text no_text no_text
              crossing_primary [crossing_sim] 1 1
              (proj1 crossing_well_formed)
              (Forall_cons _ (proj2 crossing_well_formed) (Forall_nil _))
              R1_neq_R0)
    as (r3 & r2 & H3 & H2 & _ & Hlen & _).
  exists r3, r2. auto.
Defined.

Lemma buffer_orders_reports_witness :
  check_spatiotemporal_conflicts no_text no_text no_text
    crossing_primary [crossing_sim] 0 1 false = Ok (mk_Report clear []).
Proof.
  apply (proj1 (buffer_orders_reports no_text no_text no_text
                  crossing_primary [crossing_sim] 1 false
                  (proj1 crossing_well_formed)
                  (Forall_cons _ (proj2 crossing_well_formed) (Forall_nil _))
                  R1_neq_R0)).
  lra.
Defined.

(** ** Where the sampled instants lie *)

Lemma np_arange_In (a b dt : R) (grid : list R) (u : R) :
  0 < dt -> np_arange a b dt = Ok grid -> In u grid ->
  a <= u < b /\ exists k : nat, u = a + INR k * dt.
Proof.
  intros Hdt. unfold np_arange. rewrite Reqb_false by lra.
  intros [= <-] Hin. apply in_map_iff in Hin. destruct Hin as (k & <- & Hk).
  apply in_seq in Hk. destruct Hk as [_ Hk]. simpl in Hk.
  split; [| exists k; reflexivity].
  destruct (Rceil_bounds ((b - a) / dt)) as [Hlo _].
  assert (Hkz : (Z.of_nat k <= Rceil ((b - a) / dt) - 1)%Z) by lia.
  apply IZR_le in Hkz. rewrite minus_IZR, <- INR_IZR_INZ in Hkz. simpl in Hkz.
  assert (Hk0 : 0 <= INR k) by apply pos_INR.
  assert (Hlt : INR k < (b - a) / dt) by lra.
  assert (INR k * dt < (b - a) / dt * dt) by (apply Rmult_lt_compat_r; lra).
  replace ((b - a) / dt * dt) with (b - a) in H by (field; lra).
  split; nra.
Qed.

Section SampledInstants.

Variable utc_isoformat : R -> string.
Variable format_2f : R -> string.
Variable format_list : list R -> string.

(** X14.  With a positive step, every record an intruder contributes is
    taken at an instant [overlap_start + k * dt] of the half-open
    overlap: at or after the later of the two start times and strictly
    before the earlier of the two end times. *)
Theorem records_lie_in_overlap :
  forall primary sim p0 p1 s0 s1 safety_buffer_m dt use_3d found,
    time_range sim = Ok (s0, s1) -> 0 < dt ->
    intruder_conflicts utc_isoformat format_2f format_list
      primary p0 p1 sim safety_buffer_m dt use_3d = Ok found ->
    Forall (fun c =>
              exists tv pp sp d,
                c = conflict_details utc_isoformat format_2f format_list
                      sim tv (row_of pp) (row_of sp) d /\
                Rmax p0 s0 <= tv < Rmin p1 s1 /\
                exists k : nat, tv = Rmax p0 s0 + INR k * dt)
           found.
Proof.
  intros primary sim p0 p1 s0 s1 bound dt use_3d found Hs Hdt.
  unfold intruder_conflicts. rewrite Hs. cbn [bind].
  rewrite py_max_Rmax, py_min_Rmin.
  destruct (Rleb (Rmin p1 s1) (Rmax p0 s0)); [intros [= <-]; constructor |].
  destruct (np_arange (Rmax p0 s0) (Rmin p1 s1) dt) as [grid | e] eqn:Eg;
    [| discriminate].
  cbn [bind]. destruct grid as [| g0 grid]; [intros [= <-]; constructor |].
  intros Hgc. apply Forall_forall. intros c Hc.
  destruct (grid_conflicts_Ok_In _ _ _ _ _ _ _ _ _ c Hgc Hc)
    as (tv & pp & sp & d & -> & Hin & _).
  exists tv, pp, sp, d. split; [reflexivity |].
  exact (np_arange_In _ _ _ _ tv Hdt Eg Hin).
Qed.

End SampledInstants.

Lemma brief_intruder :
  intruder_conflicts no_text no_text no_text
    brief_primary 0 (1 / 2) brief_sim 1 1 false
  = Ok [record_at no_text no_text no_text false brief_primary brief_sim 0].
Proof.
  destruct brief_overlap as [E0 E1].
  rewrite (intruder_conflicts_filter no_text no_text no_text brief_primary brief_sim
             0 (1 / 2) 1 1 false
             (proj1 brief_well_formed) (proj2 brief_well_formed) eq_refl)
    by lra.
  unfold violating_instants, sample_grid.
  rewrite (overlap_of_ranges brief_primary brief_sim 0 (1 / 2) 0 (1 / 2) eq_refl eq_refl).
  rewrite E0, E1, Rleb_false by lra.
  rewrite (np_arange_short 0 (1 / 2) 1) by lra. cbn [filter].
  rewrite brief_distance_at_0, Rltb_true by lra. reflexivity.
Qed.

Lemma records_lie_in_overlap_witness :
  Forall (fun c =>
            exists tv pp sp d,
              c = conflict_details no_text no_text no_text
                    brief_sim tv (row_of pp) (row_of sp) d /\
              Rmax 0 0 <= tv < Rmin (1 / 2) (1 / 2) /\
              exists k : nat, tv = Rmax 0 0 + INR k * 1)
         [record_at no_text no_text no_text false brief_primary brief_sim 0].
Proof.
  exact (records_lie_in_overlap no_text no_text no_text
           brief_primary brief_sim 0 (1 / 2) 0 (1 / 2) 1 1 false _
           eq_refl ltac:(lra) brief_intruder).
Defined.

(** ** The spatial check and the closest approach *)

Lemma spatial_check_via_closest (traj_A traj_B : Trajectory) (buffer_m : R)
      (use_3d : bool) :
  check_spatial_conflict traj_A traj_B buffer_m use_3d
  = (approach <- closest_approach traj_A traj_B ;; Ok (flagged buffer_m approach)).
Proof.
  unfold check_spatial_conflict, closest_approach.
  destruct (sample_uniform traj_A 1) as [[gA qA] | e]; [| reflexivity]. cbn [bind].
  destruct (sample_uniform traj_B 1) as [[gB qB] | e]; [| reflexivity]. cbn [bind].
  destruct (mapM _ (np_union1d gA gB)) as [pa | e]; [| reflexivity]. cbn [bind].
  destruct (mapM _ (np_union1d gA gB)) as [pb | e]; [| reflexivity]. cbn [bind].
  destruct (np_min _) as [m | e]; [| reflexivity]. cbn [bind].
  destruct (np_argmin _) as [k | e]; [| reflexivity]. cbn [bind].
  destruct (index_at (np_union1d gA gB) k) as [tv | e]; [| reflexivity]. cbn [bind].
  destruct (index_at pa k) as [posA | e]; [| reflexivity]. cbn [bind].
  destruct (index_at pb k) as [posB | e]; reflexivity.
Qed.

Lemma closest_approach_explicit (traj_A traj_B : Trajectory) (a0 a1 b0 b1 : R)
      (m : R) (k : nat) (tmin : R) :
  valid traj_A -> valid traj_B ->
  time_range traj_A = Ok (a0, a1) -> time_range traj_B = Ok (b0, b1) ->
  a0 < a1 -> b0 < b1 ->
  np_min (map (distance_at false traj_A traj_B) (common_instants traj_A traj_B)) = Ok m ->
  np_argmin (map (distance_at false traj_A traj_B) (common_instants traj_A traj_B)) = Ok k ->
  nth_error (common_instants traj_A traj_B) k = Some tmin ->
  closest_approach traj_A traj_B
  = Ok (m, tmin, tmin, planar (position_of traj_A tmin), planar (position_of traj_B tmin)).
Proof.
  intros HvA HvB HrA HrB HltA HltB Hmin Harg Hnth.
  pose proof (valid_well_formed traj_A a0 a1 HvA HrA) as HwA.
  pose proof (valid_well_formed traj_B b0 b1 HvB HrB) as HwB.
  destruct (uniform_grid_linspace traj_A a0 a1 HvA HrA HltA) as (possA & HsA & _).
  destruct (uniform_grid_linspace traj_B b0 b1 HvB HrB HltB) as (possB & HsB & _).
  unfold closest_approach. rewrite HsA, HsB. cbn [bind].
  fold (common_instants traj_A traj_B).
  set (common := common_instants traj_A traj_B) in *.
  rewrite (mapM_total _ (fun tv => planar (position_of traj_A tv)))
    by (intros; apply resampled_planar; assumption).
  cbn [bind].
  rewrite (mapM_total _ (fun tv => planar (position_of traj_B tv)))
    by (intros; apply resampled_planar; assumption).
  cbn [bind]. rewrite combine_map_same, map_map. cbn [fst snd].
  change (map (fun tv => norm_row (sub_rows (planar (position_of traj_A tv))
                                            (planar (position_of traj_B tv)))) common)
    with (map (distance_at false traj_A traj_B) common).
  rewrite Hmin, Harg. cbn [bind].
  unfold index_at. rewrite !nth_error_map, Hnth. reflexivity.
Qed.

Lemma closest_approach_runs (traj_A traj_B : Trajectory) (a0 a1 b0 b1 : R) :
  valid traj_A -> valid traj_B ->
  time_range traj_A = Ok (a0, a1) -> time_range traj_B = Ok (b0, b1) ->
  a0 < a1 -> b0 < b1 ->
  exists (m : R) (k : nat) (tmin : R),
    np_min (map (distance_at false traj_A traj_B) (common_instants traj_A traj_B)) = Ok m /\
    np_argmin (map (distance_at false traj_A traj_B) (common_instants traj_A traj_B)) = Ok k /\
    nth_error (common_instants traj_A traj_B) k = Some tmin /\
    m = distance_at false traj_A traj_B tmin /\
    (forall tv, In tv (common_instants traj_A traj_B) ->
                m <= distance_at false traj_A traj_B tv).
Proof.
  intros HvA HvB HrA HrB HltA HltB.
  assert (Hne : map (distance_at false traj_A traj_B) (common_instants traj_A traj_B)
                <> []).
  { intros E. apply map_eq_nil in E.
    pose proof (uniform_grid_has_start traj_A a0 a1 HvA HrA HltA) as Hin.
    assert (Hc : In a0 (common_instants traj_A traj_B))
      by (apply np_union1d_In; left; exact Hin).
    rewrite E in Hc. contradiction. }
  destruct (np_min_argmin _ Hne) as (m & k & Hmin & Harg & Hnth & Hle).
  destruct (index_at_map _ _ _ _ Hnth) as (tmin & Ht & _ & Hm).
  exists m, k, tmin. split; [exact Hmin |]. split; [exact Harg |]. split.
  - unfold index_at in Ht.
    destruct (nth_error (common_instants traj_A traj_B) k); [| discriminate].
    injection Ht as ->. reflexivity.
  - split; [exact Hm |]. intros tv Hin. apply Hle. apply in_map. exact Hin.
Qed.

(** X15.  [check_spatial_conflict] is [closest_approach] followed by the
    comparison with the buffer, on every pair of trajectories, errors
    included.  On trajectories satisfying the invariant the closest
    approach exists, its two instants are one instant of the comparison
    grid, and its distance is the planar distance there, not negative
    and not above the planar distance at any comparison instant. *)
Theorem closest_approach_then_threshold :
  (forall traj_A traj_B buffer_m use_3d,
      check_spatial_conflict traj_A traj_B buffer_m use_3d
      = (approach <- closest_approach traj_A traj_B ;;
         Ok (flagged buffer_m approach))) /\
  (forall traj_A traj_B a0 a1 b0 b1,
      valid traj_A -> valid traj_B ->
      time_range traj_A = Ok (a0, a1) -> time_range traj_B = Ok (b0, b1) ->
      a0 < a1 -> b0 < b1 ->
      exists m tmin,
        closest_approach traj_A traj_B
        = Ok (m, tmin, tmin,
              planar (position_of traj_A tmin), planar (position_of traj_B tmin)) /\
        In tmin (common_instants traj_A traj_B) /\
        m = planar_distance (position_of traj_A tmin) (position_of traj_B tmin) /\
        0 <= m /\
        (forall tv, In tv (common_instants traj_A traj_B) ->
                    m <= planar_distance (position_of traj_A tv)
                                         (position_of traj_B tv))).
Proof.
  split; [exact spatial_check_via_closest |].
  intros traj_A traj_B a0 a1 b0 b1 HvA HvB HrA HrB HltA HltB.
  destruct (closest_approach_runs traj_A traj_B a0 a1 b0 b1 HvA HvB HrA HrB HltA HltB)
    as (m & k & tmin & Hmin & Harg & Hnth & Hm & Hle).
  exists m, tmin.
  split; [apply (closest_approach_explicit traj_A traj_B a0 a1 b0 b1 m k); assumption |].
  split; [apply (nth_error_In _ k); exact Hnth |].
  split; [rewrite Hm; apply separation_planar |].
  split; [rewrite Hm; apply separation_nonneg |].
  intros tv Hin. specialize (Hle tv Hin). unfold distance_at in Hle.
  rewrite separation_planar in Hle. exact Hle.
Qed.

Lemma closest_approach_then_threshold_witness :
  exists m tmin,
    closest_approach crossing_primary crossing_sim
    = Ok (m, tmin, tmin, planar (position_of crossing_primary tmin),
          planar (position_of crossing_sim tmin)) /\
    0 <= m.
Proof.
  destruct (proj2 closest_approach_then_threshold crossing_primary crossing_sim
              0 10 0 10 (proj1 crossing_valid) (proj2 crossing_valid)
              eq_refl eq_refl ltac:(lra) ltac:(lra))
    as (m & tmin & Hrun & _ & _ & Hpos & _).
  exists m, tmin. auto.
Defined.

(** X16.  On trajectories satisfying the invariant, what
    [check_spatial_conflict] reports besides the flag (distance, instant,
    positions) is the same for every buffer and either value of
    [use_3d]; the flag is set exactly for the buffers above the
    distance, so a buffer of 0 or less never raises it and a larger
    buffer never lowers it. *)
Theorem spatial_flag_depends_on_buffer_only :
  forall traj_A traj_B a0 a1 b0 b1,
    valid traj_A -> valid traj_B ->
    time_range traj_A = Ok (a0, a1) -> time_range traj_B = Ok (b0, b1) ->
    a0 < a1 -> b0 < b1 ->
    exists m tmin pA pB,
      0 <= m /\
      (forall buffer_m use_3d,
          check_spatial_conflict traj_A traj_B buffer_m use_3d
          = Ok (Rltb m buffer_m,
                mk_Details m pA pB tmin tmin (Rltb m buffer_m))) /\
      (forall buffer_m, buffer_m <= 0 -> Rltb m buffer_m = false) /\
      (forall small large,
          small <= large -> Rltb m small = true -> Rltb m large = true).
Proof.
  intros traj_A traj_B a0 a1 b0 b1 HvA HvB HrA HrB HltA HltB.
  destruct (closest_approach_runs traj_A traj_B a0 a1 b0 b1 HvA HvB HrA HrB HltA HltB)
    as (m & k & tmin & Hmin & Harg & Hnth & Hm & _).
  pose proof (closest_approach_explicit traj_A traj_B a0 a1 b0 b1 m k tmin
                HvA HvB HrA HrB HltA HltB Hmin Harg Hnth) as Hrun.
  assert (Hpos : 0 <= m) by (rewrite Hm; apply separation_nonneg).
  exists m, tmin, (planar (position_of traj_A tmin)), (planar (position_of traj_B tmin)).
  split; [exact Hpos |]. split; [| split].
  - intros buffer_m use_3d. rewrite spatial_check_via_closest, Hrun. reflexivity.
  - intros buffer_m Hb. apply Rltb_false. lra.
  - intros small large Hle H. apply Rltb_spec in H. apply Rltb_true. lra.
Qed.

Lemma spatial_flag_depends_on_buffer_only_witness :
  exists m tmin pA pB,
    0 <= m /\
    check_spatial_conflict low_flight high_flight 0 true
    = Ok (false, mk_Details m pA pB tmin tmin false).
Proof.
  destruct (spatial_flag_depends_on_buffer_only low_flight high_flight 0 10 0 10
              (proj1 stacked_valid) (proj2 stacked_valid) eq_refl eq_refl
              ltac:(lra) ltac:(lra))
    as (m & tmin & pA & pB & Hpos & Hrun & Hzero & _).
  exists m, tmin, pA, pB. split; [exact Hpos |].
  rewrite Hrun, (Hzero 0) by lra. reflexivity.
Defined.

(** ** The comparison instants are a sorted set *)

Lemma insert_sorted_nondecreasing_from (v a : R) (l : list R) :
  a <= v -> nondecreasing_from a l -> nondecreasing_from a (insert_sorted v l).
Proof.
  revert a. induction l as [| b l IH]; intros a Hav Hl.
  - simpl. auto.
  - destruct Hl as [Hab Hl]. cbn [insert_sorted].
    destruct (Rleb v b) eqn:E.
    + apply Rleb_spec in E. simpl. auto.
    + apply Rleb_false_iff in E. split; [exact Hab |].
      apply IH; [lra | exact Hl].
Qed.

Lemma insert_sorted_nondecreasing (v : R) (l : list R) :
  nondecreasing l -> nondecreasing (insert_sorted v l).
Proof.
  destruct l as [| b l]; [simpl; trivial |]. intros Hl. cbn [insert_sorted].
  destruct (Rleb v b) eqn:E.
  - apply Rleb_spec in E. simpl. auto.
  - apply Rleb_false_iff in E.
    apply insert_sorted_nondecreasing_from; [lra | exact Hl].
Qed.

Lemma sort_R_nondecreasing (l : list R) : nondecreasing (sort_R l).
Proof.
  induction l as [| a l IH]; [simpl; trivial |].
  apply insert_sorted_nondecreasing. exact IH.
Qed.

Lemma drop_repeats_head (a : R) (l : list R) :
  exists rest, drop_repeats (a :: l) = a :: rest.
Proof.
  revert a. induction l as [| b l IH]; intros a; [exists []; reflexivity |].
  change (drop_repeats (a :: b :: l))
    with (if Reqb a b then drop_repeats (b :: l) else a :: drop_repeats (b :: l)).
  unfold Reqb. destruct (Req_dec_T a b) as [-> | _]; [apply IH | eauto].
Qed.

Lemma drop_repeats_increasing (l : list R) :
  nondecreasing l -> strictly_increasing (drop_repeats l).
Proof.
  induction l as [| a l IH]; [simpl; trivial |].
  destruct l as [| b l]; [simpl; trivial |].
  intros [Hab Hl].
  change (drop_repeats (a :: b :: l))
    with (if Reqb a b then drop_repeats (b :: l) else a :: drop_repeats (b :: l)).
  unfold Reqb. destruct (Req_dec_T a b) as [-> | Hne]; [apply IH; exact Hl |].
  destruct (drop_repeats_head b l) as [rest E].
  specialize (IH Hl). rewrite E in IH |- *.
  simpl. split; [lra | exact IH].
Qed.

Lemma increasing_from_In (l : list R) (a u : R) :
  increasing_from a l -> In u l -> a < u.
Proof.
  intros Hinc Hin. destruct (In_nth _ _ 0 Hin) as (j & Hj & <-).
  apply increasing_from_nth; assumption.
Qed.

Lemma strictly_increasing_unique (l1 l2 : list R) :
  strictly_increasing l1 -> strictly_increasing l2 ->
  (forall u, In u l1 <-> In u l2) -> l1 = l2.
Proof.
  revert l2. induction l1 as [| a l1 IH]; intros l2 H1 H2 Hsame.
  - destruct l2 as [| b l2]; [reflexivity |].
    exfalso. apply (proj2 (Hsame b)). left. reflexivity.
  - destruct l2 as [| b l2].
    + exfalso. apply (proj1 (Hsame a)). left. reflexivity.
    + simpl in H1, H2.
      assert (Eab : a = b).
      { destruct (proj1 (Hsame a) (or_introl eq_refl)) as [E | Ha2]; [congruence |].
        destruct (proj2 (Hsame b) (or_introl eq_refl)) as [E | Hb1]; [congruence |].
        pose proof (increasing_from_In l2 b a H2 Ha2).
        pose proof (increasing_from_In l1 a b H1 Hb1). lra. }
      subst b. f_equal. apply IH.
      * destruct l1; simpl in *; tauto.
      * destruct l2; simpl in *; tauto.
      * intros u. split; intros Hu.
        -- destruct (proj1 (Hsame u) (or_intror Hu)) as [E | ok]; [| exact ok].
           pose proof (increasing_from_In l1 a u H1 Hu). lra.
        -- destruct (proj2 (Hsame u) (or_intror Hu)) as [E | ok]; [| exact ok].
           pose proof (increasing_from_In l2 a u H2 Hu). lra.
Qed.

Lemma np_union1d_increasing (a b : list R) : strictly_increasing (np_union1d a b).
Proof.
  unfold np_union1d, np_unique. apply drop_repeats_increasing, sort_R_nondecreasing.
Qed.

Lemma np_union1d_comm (a b : list R) : np_union1d a b = np_union1d b a.
Proof.
  apply strictly_increasing_unique; try apply np_union1d_increasing.
  intros u. rewrite !np_union1d_In. tauto.
Qed.

Lemma separation_sym (use_3d : bool) (p s : vec3) :
  separation use_3d p s = separation use_3d s p.
Proof.
  destruct use_3d; [rewrite !separation_spatial | rewrite !separation_planar];
    f_equal; ring.
Qed.

(** X17.  The comparison instants of two trajectories are strictly
    increasing, each instant once, and do not depend on the order of the
    two trajectories; on trajectories satisfying the invariant, swapping
    the two arguments of [closest_approach] swaps the two positions and
    changes neither the distance nor the instant, and the spatial check
    raises the same flag. *)
Theorem spatial_check_symmetric :
  (forall traj_A traj_B,
      strictly_increasing (common_instants traj_A traj_B) /\
      common_instants traj_A traj_B = common_instants traj_B traj_A) /\
  (forall traj_A traj_B a0 a1 b0 b1,
      valid traj_A -> valid traj_B ->
      time_range traj_A = Ok (a0, a1) -> time_range traj_B = Ok (b0, b1) ->
      a0 < a1 -> b0 < b1 ->
      exists m tmin pA pB,
        closest_approach traj_A traj_B = Ok (m, tmin, tmin, pA, pB) /\
        closest_approach traj_B traj_A = Ok (m, tmin, tmin, pB, pA) /\
        forall buffer_m use_3d,
          check_spatial_conflict traj_A traj_B buffer_m use_3d
          = Ok (Rltb m buffer_m, mk_Details m pA pB tmin tmin (Rltb m buffer_m)) /\
          check_spatial_conflict traj_B traj_A buffer_m use_3d
          = Ok (Rltb m buffer_m, mk_Details m pB pA tmin tmin (Rltb m buffer_m))).
Proof.
  split.
  - intros traj_A traj_B. split; [apply np_union1d_increasing | apply np_union1d_comm].
  - intros traj_A traj_B a0 a1 b0 b1 HvA HvB HrA HrB HltA HltB.
    destruct (closest_approach_runs traj_A traj_B a0 a1 b0 b1 HvA HvB HrA HrB HltA HltB)
      as (m & k & tmin & Hmin & Harg & Hnth & _).
    pose proof (closest_approach_explicit traj_A traj_B a0 a1 b0 b1 m k tmin
                  HvA HvB HrA HrB HltA HltB Hmin Harg Hnth) as HAB.
    assert (Ec : common_instants traj_B traj_A = common_instants traj_A traj_B)
      by apply np_union1d_comm.
    assert (Ed : map (distance_at false traj_B traj_A) (common_instants traj_B traj_A)
                 = map (distance_at false traj_A traj_B) (common_instants traj_A traj_B)).
    { rewrite Ec. apply map_ext. intros tv. apply separation_sym. }
    assert (HBA : closest_approach traj_B traj_A
                  = Ok (m, tmin, tmin, planar (position_of traj_B tmin),
                        planar (position_of traj_A tmin))).
    { apply (closest_approach_explicit traj_B traj_A b0 b1 a0 a1 m k tmin);
        try assumption; rewrite ?Ed, ?Ec; assumption. }
    exists m, tmin, (planar (position_of traj_A tmin)), (planar (position_of traj_B tmin)).
    split; [exact HAB |]. split; [exact HBA |].
    intros buffer_m use_3d. rewrite !spatial_check_via_closest, HAB, HBA.
    split; reflexivity.
Qed.

Lemma spatial_check_symmetric_witness :
  exists m tmin pA pB,
    closest_approach crossing_primary crossing_sim = Ok (m, tmin, tmin, pA, pB) /\
    closest_approach crossing_sim crossing_primary = Ok (m, tmin, tmin, pB, pA).
Proof.
  destruct (proj2 spatial_check_symmetric crossing_primary crossing_sim 0 10 0 10
              (proj1 crossing_valid) (proj2 crossing_valid) eq_refl eq_refl
              ltac:(lra) ltac:(lra))
    as (m & tmin & pA & pB & HAB & HBA & _).
  exists m, tmin, pA, pB. auto.
Defined.

(** ** analyzer.py: the risk score *)

Lemma score_cases (d th : R) :
  (th <= d /\ naive_conflict_score d th = 0) \/
  (d < th /\ d <= 0 /\ naive_conflict_score d th = 1) \/
  (0 < d < th /\ naive_conflict_score d th = (th - d) / th).
Proof.
  unfold naive_conflict_score.
  destruct (Rleb th d) eqn:E1.
  - apply Rleb_spec in E1. left. auto.
  - apply Rleb_false_iff in E1. destruct (Rleb d 0) eqn:E2.
    + apply Rleb_spec in E2. right. left. auto.
    + apply Rleb_false_iff in E2. right. right. split; [lra | reflexivity].
Qed.

Lemma score_fraction (d th : R) : 0 < d < th -> 0 < (th - d) / th < 1.
Proof.
  intros [Hd Hth]. split.
  - apply Rdiv_lt_0_compat; lra.
  - apply Rmult_lt_reg_r with th; [lra |].
    unfold Rdiv. rewrite Rmult_assoc, Rinv_l by lra. lra.
Qed.

(** X18.  [naive_conflict_score] lies in [[0, 1]] for every distance and
    every threshold, zero or negative thresholds included: the quotient
    is only formed with a threshold above a positive distance.  It is 0
    exactly from the threshold on and 1 exactly for distances that are
    below the threshold and not positive. *)
Theorem score_in_unit_interval :
  forall distance_m threshold_m : R,
    0 <= naive_conflict_score distance_m threshold_m <= 1 /\
    (naive_conflict_score distance_m threshold_m = 0 <-> threshold_m <= distance_m) /\
    (naive_conflict_score distance_m threshold_m = 1
     <-> distance_m < threshold_m /\ distance_m <= 0).
Proof.
  intros d th.
  destruct (score_cases d th) as [[H ->] | [(H1 & H2 & ->) | [H ->]]].
  - split; [lra |]. split; [tauto |]. split; [lra | intros [? ?]; lra].
  - split; [lra |]. split; [split; intros; lra | tauto].
  - pose proof (score_fraction d th H). split; [lra |].
    split; split; intros; lra.
Qed.

(** X19.  For a fixed threshold the score never increases with the
    distance. *)
Theorem score_decreases_with_distance :
  forall threshold_m nearer farther : R,
    nearer <= farther ->
    naive_conflict_score farther threshold_m <= naive_conflict_score nearer threshold_m.
Proof.
  intros th d1 d2 Hle.
  destruct (score_cases d1 th) as [[H1 ->] | [(H1 & H1' & ->) | [H1 ->]]];
  destruct (score_cases d2 th) as [[H2 ->] | [(H2 & H2' & ->) | [H2 ->]]];
    try lra;
    try (pose proof (score_fraction d1 th H1));
    try (pose proof (score_fraction d2 th H2));
    try lra.
  unfold Rdiv. apply Rmult_le_compat_r; [| lra].
  apply Rlt_le, Rinv_0_lt_compat. lra.
Qed.

Lemma score_decreases_with_distance_witness :
  naive_conflict_score 40 50 <= naive_conflict_score 10 50.
Proof.
  apply score_decreases_with_distance. lra.
Defined.

(** ** models.py: the time bounds of a flight *)

Lemma min_datetime_spec (ds : list datetime) (d0 : datetime) :
  In (min_datetime d0 ds) (d0 :: ds) /\
  forall d, In d (d0 :: ds) -> timestamp (min_datetime d0 ds) <= timestamp d.
Proof.
  unfold min_datetime. revert d0. induction ds as [| d1 ds IH]; intros d0.
  - simpl. split; [auto |]. intros d [<- | []]. lra.
  - cbn [fold_left]. destruct (Rltb (timestamp d1) (timestamp d0)) eqn:E.
    + apply Rltb_spec in E. destruct (IH d1) as [Hin Hle].
      split; [right; exact Hin |].
      intros d [<- | Hd]; [| apply Hle; exact Hd].
      specialize (Hle d1 (or_introl eq_refl)). lra.
    + apply Rltb_false_iff in E. destruct (IH d0) as [Hin Hle].
      split; [destruct Hin as [<- | Hin]; [left; reflexivity | right; right; exact Hin] |].
      intros d [<- | [<- | Hd]].
      * apply Hle. left. reflexivity.
      * specialize (Hle d0 (or_introl eq_refl)). lra.
      * apply Hle. right. exact Hd.
Qed.

Lemma max_datetime_spec (ds : list datetime) (d0 : datetime) :
  In (max_datetime d0 ds) (d0 :: ds) /\
  forall d, In d (d0 :: ds) -> timestamp d <= timestamp (max_datetime d0 ds).
Proof.
  unfold max_datetime. revert d0. induction ds as [| d1 ds IH]; intros d0.
  - simpl. split; [auto |]. intros d [<- | []]. lra.
  - cbn [fold_left]. destruct (Rltb (timestamp d0) (timestamp d1)) eqn:E.
    + apply Rltb_spec in E. destruct (IH d1) as [Hin Hle].
      split; [right; exact Hin |].
      intros d [<- | Hd]; [| apply Hle; exact Hd].
      specialize (Hle d1 (or_introl eq_refl)). lra.
    + apply Rltb_false_iff in E. destruct (IH d0) as [Hin Hle].
      split; [destruct Hin as [<- | Hin]; [left; reflexivity | right; right; exact Hin] |].
      intros d [<- | [<- | Hd]].
      * apply Hle. left. reflexivity.
      * specialize (Hle d0 (or_introl eq_refl)). lra.
      * apply Hle. right. exact Hd.
Qed.

Lemma timed_waypoints_In (wps : list Waypoint) (d : datetime) :
  In d (flat_map (fun wp => match t wp with Some u => [u] | None => [] end) wps)
  <-> exists wp, In wp wps /\ t wp = Some d.
Proof.
  rewrite in_flat_map. split; intros (wp & Hin & H); exists wp; (split; [exact Hin |]).
  - destruct (t wp) as [u |]; [destruct H as [-> | []]; reflexivity | contradiction].
  - rewrite H. left. reflexivity.
Qed.

(** X20.  [time_bounds] fails exactly when no waypoint of the flight is
    timed.  Otherwise its two results are waypoint times of the flight,
    the first not after and the second not before the time of any timed
    waypoint; untimed waypoints are passed over. *)
Theorem time_bounds_enclose_waypoint_times :
  forall (f : SimulatedFlight),
    (existsb has_t (sf_waypoints f) = false <->
     time_bounds f = Err (ValueError "SimulatedFlight has no waypoint times")) /\
    (forall lo hi,
        time_bounds f = Ok (lo, hi) ->
        (exists wp, In wp (sf_waypoints f) /\ t wp = Some lo) /\
        (exists wp, In wp (sf_waypoints f) /\ t wp = Some hi) /\
        (forall wp d, In wp (sf_waypoints f) -> t wp = Some d ->
                      timestamp lo <= timestamp d <= timestamp hi) /\
        timestamp lo <= timestamp hi).
Proof.
  intros f. unfold time_bounds.
  set (tms := flat_map (fun wp => match t wp with Some u => [u] | None => [] end)
                       (sf_waypoints f)).
  assert (Hin : forall d, In d tms <-> exists wp, In wp (sf_waypoints f) /\ t wp = Some d)
    by (intros d; apply timed_waypoints_In).
  split.
  - split.
    + intros Hnone. destruct tms as [| d0 ds] eqn:E; [reflexivity |].
      exfalso. destruct (proj1 (Hin d0) (or_introl eq_refl)) as (wp & Hwp & Ht).
      assert (existsb has_t (sf_waypoints f) = true).
      { apply existsb_exists. exists wp. split; [exact Hwp |].
        unfold has_t. rewrite Ht. reflexivity. }
      congruence.
    + intros Herr. destruct tms as [| d0 ds] eqn:E; [| discriminate].
      destruct (existsb has_t (sf_waypoints f)) eqn:Ex; [| reflexivity].
      exfalso. apply existsb_exists in Ex. destruct Ex as (wp & Hwp & Ht).
      unfold has_t in Ht. destruct (t wp) as [d |] eqn:Etw; [| discriminate].
      apply (proj2 (Hin d)). exists wp. auto.
  - intros lo hi H. destruct tms as [| d0 ds] eqn:E; [discriminate |].
    injection H as <- <-.
    destruct (min_datetime_spec ds d0) as [Hmin_in Hmin_le].
    destruct (max_datetime_spec ds d0) as [Hmax_in Hmax_le].
    split; [apply Hin; exact Hmin_in |].
    split; [apply Hin; exact Hmax_in |].
    split.
    + intros wp d Hwp Ht.
      assert (Hd : In d (d0 :: ds)) by (apply Hin; exists wp; auto).
      split; [apply Hmin_le | apply Hmax_le]; exact Hd.
    + specialize (Hmin_le d0 (or_introl eq_refl)).
      specialize (Hmax_le d0 (or_introl eq_refl)). lra.
Qed.

Lemma time_bounds_enclose_waypoint_times_witness :
  time_bounds (mk_SimulatedFlight "S001" [timed 0 0 3; untimed 5 5; timed 10 0 8] [])
  = Ok (mk_datetime 3, mk_datetime 8) /\
  timestamp (mk_datetime 3) <= timestamp (mk_datetime 8).
Proof.
  assert (H : time_bounds (mk_SimulatedFlight "S001"
                             [timed 0 0 3; untimed 5 5; timed 10 0 8] [])
              = Ok (mk_datetime 3, mk_datetime 8)).
  { unfold time_bounds, min_datetime, max_datetime. simpl.
    rewrite Rltb_false by lra. rewrite Rltb_true by lra. reflexivity. }
  split; [exact H |].
  exact (proj2 (proj2 (proj2 (proj2 (time_bounds_enclose_waypoint_times _) _ _ H)))).
Defined.

(** ** analyzer.py: the orchestration *)

Lemma mapM_Ok_each {A B : Type} (f : A -> result B) (l : list A) (out : list B) :
  mapM f l = Ok out -> forall a, In a l -> exists b, f a = Ok b /\ In b out.
Proof.
  revert out. induction l as [| a0 l IH]; intros out H a Ha; [contradiction |].
  simpl in H. destruct (f a0) as [b0 | e] eqn:E0; [| discriminate]. cbn [bind] in H.
  destruct (mapM f l) as [bs | e]; [| discriminate]. cbn [bind] in H.
  injection H as <-. destruct Ha as [<- | Ha].
  - exists b0. split; [exact E0 | left; reflexivity].
  - destruct (IH bs eq_refl a Ha) as (b & Hb & Hin).
    exists b. split; [exact Hb | right; exact Hin].
Qed.

Lemma all_timed_datetimes (wps : list Waypoint) :
  forallb has_t wps = true -> exists ds, map t wps = map Some ds.
Proof.
  induction wps as [| wp wps IH]; intros H; [exists []; reflexivity |].
  cbn [forallb] in H. apply andb_true_iff in H. destruct H as [Hwp Hrest].
  destruct (IH Hrest) as [ds Hds]. unfold has_t in Hwp.
  destruct (t wp) as [d |] eqn:E; [| discriminate].
  exists (d :: ds). cbn [map]. rewrite E, Hds. reflexivity.
Qed.



Section AnalyzerFacts.

Variable load_primary : string -> result PrimaryMission.
Variable load_simulated_flights : string -> result (list SimulatedFlight).
Variable utc_isoformat : R -> string.
Variable format_2f : R -> string.
Variable format_list : list R -> string.


(** X22.  [analyze_mission] returns only for inputs the builders accept:
    the mission has at least two waypoints and, when they are untimed, a
    window that starts before it ends; every loaded flight has at least
    two waypoints, all of them timed, with strictly increasing times. *)
Theorem analysis_needs_timed_flights :
  forall primary_json flights_json safety_buffer dt use_3d outcome,
    analyze_mission load_primary load_simulated_flights
      utc_isoformat format_2f format_list
      primary_json flights_json safety_buffer dt use_3d = Ok outcome ->
    exists mission flights,
      load_primary primary_json = Ok mission /\
      load_simulated_flights flights_json = Ok flights /\
      (2 <= length (pm_waypoints mission))%nat /\
      (existsb has_t (pm_waypoints mission) = false ->
       timestamp (start mission) < timestamp (end_ mission)) /\
      Forall (fun flight =>
                (2 <= length (sf_waypoints flight))%nat /\
                exists ds,
                  map t (sf_waypoints flight) = map Some ds /\
                  strictly_increasing (map timestamp ds))
             flights.
Proof.
  intros pj fj bound dt use_3d outcome H. unfold analyze_mission in H.
  apply bind_Ok_inv in H. destruct H as (mission & Hm & H).
  apply bind_Ok_inv in H. destruct H as (flights & Hf & H).
  apply bind_Ok_inv in H. destruct H as (ptraj & Hp & H).
  apply bind_Ok_inv in H. destruct H as (trajs & Hb & _).
  assert (Hlen_of : forall wps mw ms fid tr,
             interpolate_from_waypoints wps "linear" mw ms fid = Ok tr ->
             (2 <= length wps)%nat).
  { intros wps mw ms fid tr Hi. revert Hi. unfold interpolate_from_waypoints.
    cbn [String.eqb Ascii.eqb Bool.eqb negb].
    destruct (Nat.ltb_spec (length wps) 2); [discriminate | intros _; assumption]. }
  exists mission, flights. split; [exact Hm |]. split; [exact Hf |].
  split; [apply (Hlen_of _ _ _ _ _ Hp) |]. split.
  - intros Hnone.
    destruct (window_mode_inv _ _ _ _ _ Hnone Hp) as (_ & ts & Hts & _).
    revert Hts. unfold _compute_times_from_window.
    destruct (Rleb (timestamp (end_ mission) - timestamp (start mission)) 0) eqn:E;
      [discriminate |].
    apply Rleb_false_iff in E. intros _. lra.
  - apply Forall_forall. intros flight Hin.
    unfold build_sim_trajs in Hb.
    destruct (mapM_Ok_each _ _ _ Hb flight Hin) as (tr & Htr & _).
    apply bind_Ok_inv in Htr. destruct Htr as ([lo hi] & Hbounds & Hi).
    pose proof (Hlen_of _ _ _ _ _ Hi) as Hlen. split; [exact Hlen |].
    assert (Hany : existsb has_t (sf_waypoints flight) = true).
    { destruct (existsb has_t (sf_waypoints flight)) eqn:E; [reflexivity |].
      exfalso. revert Hbounds. unfold time_bounds.
      destruct (flat_map _ (sf_waypoints flight)) as [| d0 ds] eqn:Et; [discriminate |].
      intros _.
      assert (Hd0 : In d0 (d0 :: ds)) by (left; reflexivity).
      rewrite <- Et in Hd0. apply timed_waypoints_In in Hd0.
      destruct Hd0 as (wp & Hwp & Ht).
      assert (existsb has_t (sf_waypoints flight) = true).
      { apply existsb_exists. exists wp. split; [exact Hwp |].
        unfold has_t. rewrite Ht. reflexivity. }
      congruence. }
    assert (Hall : forallb has_t (sf_waypoints flight) = true).
    { revert Hi. unfold interpolate_from_waypoints.
      cbn [String.eqb Ascii.eqb Bool.eqb negb].
      destruct (Nat.ltb_spec (length (sf_waypoints flight)) 2); [discriminate |].
      rewrite Hany. destruct (forallb has_t (sf_waypoints flight));
        [reflexivity | discriminate]. }
    destruct (all_timed_datetimes _ Hall) as [ds Hds].
    exists ds. split; [exact Hds |].
    rewrite (absolute_mode _ ds) in Hi by assumption.
    apply Trajectory_new_Ok in Hi. tauto.
Qed.

End AnalyzerFacts.

Lemma demo_analysis :
  analyze_mission load_demo_mission load_demo_flights no_text no_text no_text
    "mission.json" "flights.json" 1 1 false
  = Ok ("clear"%string, mk_Report clear []).
Proof.
  unfold analyze_mission, load_demo_mission, load_demo_flights. cbn [bind].
  change (pm_waypoints demo_mission) with [untimed 0 0; untimed 10 0].
  change (start demo_mission) with (mk_datetime 0).
  change (end_ demo_mission) with (mk_datetime 10).
  change (dict_get (constraints demo_mission) "max_speed_mps") with (@None R).
  rewrite two_waypoint_build_ok by (try reflexivity; simpl; lra).
  cbn [bind].
  assert (Hb : build_sim_trajs [demo_flight]
               = Ok [mk_Trajectory [20; 30] [(5, -5, 0); (5, 5, 0)] "primary"]).
  { unfold build_sim_trajs. cbn [mapM].
    assert (Htb : time_bounds demo_flight = Ok (mk_datetime 20, mk_datetime 30)).
    { unfold time_bounds, min_datetime, max_datetime. simpl.
      rewrite Rltb_false by lra. rewrite Rltb_true by lra. reflexivity. }
    rewrite Htb. cbn [bind].
    rewrite (absolute_mode (sf_waypoints demo_flight) [mk_datetime 20; mk_datetime 30])
      by (trivial; simpl; lia).
    assert (Hnew : Trajectory_new (map timestamp [mk_datetime 20; mk_datetime 30])
                     (_waypoints_to_positions (sf_waypoints demo_flight)) "primary"
                   = Ok (mk_Trajectory [20; 30] [(5, -5, 0); (5, 5, 0)] "primary")).
    { apply Trajectory_new_Ok. split; [reflexivity |]. split; [simpl; lra | reflexivity]. }
    rewrite Hnew. reflexivity. }
  rewrite Hb. cbn [bind].
  assert (Ha : attach_ids [mk_Trajectory [20; 30] [(5, -5, 0); (5, 5, 0)] "primary"]
                          [demo_flight] = Ok [late_sim]).
  { unfold attach_ids. cbn [combine mapM fst snd times positions].
    assert (Hnew : Trajectory_new [20; 30] [(5, -5, 0); (5, 5, 0)]
                     (sf_flight_id demo_flight) = Ok late_sim).
    { apply Trajectory_new_Ok. split; [reflexivity |]. split; [simpl; lra | reflexivity]. }
    rewrite Hnew. reflexivity. }
  rewrite Ha. cbn [bind].
  change (mk_Trajectory [timestamp (mk_datetime 0); timestamp (mk_datetime 10)]
            (_waypoints_to_positions [untimed 0 0; untimed 10 0]) "primary")
    with crossing_primary.
  rewrite late_sim_report. reflexivity.
Qed.


Lemma analysis_needs_timed_flights_witness :
  exists mission flights,
    load_demo_mission "mission.json" = Ok mission /\
    load_demo_flights "flights.json" = Ok flights /\
    Forall (fun flight =>
              (2 <= length (sf_waypoints flight))%nat /\
              exists ds,
                map t (sf_waypoints flight) = map Some ds /\
                strictly_increasing (map timestamp ds))
           flights.
Proof.
  destruct (analysis_needs_timed_flights load_demo_mission load_demo_flights
              no_text no_text no_text "mission.json" "flights.json" 1 1 false
              _ demo_analysis)
    as (mission & flights & Hm & Hf & _ & _ & Hall).
  exists mission, flights. auto.
Defined.

(** ** temporal.py: the normalised report *)

Lemma report_item_conflict_dict (c : Conflict) : report_item (conflict_dict c) = conflict_dict c.
Proof. reflexivity. Qed.




Section FormattedReport.

Variable utc_isoformat : R -> string.
Variable format_2f : R -> string.
Variable format_list : list R -> string.

(** X24.  Formatting the conflicts of a report the detector returned
    gives back that report: the same status and, item by item, the
    dictionaries the detector built. *)
Theorem format_conflict_report_keeps_detector_report :
  forall primary sims safety_buffer_m dt use_3d report,
    check_spatiotemporal_conflicts utc_isoformat format_2f format_list
      primary sims safety_buffer_m dt use_3d = Ok report ->
    format_conflict_report (map conflict_dict (conflicts report))
    = (status report, map conflict_dict (conflicts report)).
Proof.
  intros primary sims bound dt use_3d report H.
  destruct (check_Ok_inv utc_isoformat format_2f format_list _ _ _ _ _ _ H)
    as (_ & _ & _ & _ & Hs1 & Hs2).
  destruct (conflicts report) as [| c cs] eqn:E.
  - rewrite (proj2 Hs2 eq_refl). reflexivity.
  - rewrite (proj2 Hs1 ltac:(discriminate)).
    cbn [map format_conflict_report]. f_equal.
    rewrite report_item_conflict_dict. f_equal.
    rewrite map_map. apply map_ext. intros a. apply report_item_conflict_dict.
Qed.

End FormattedReport.

Lemma format_conflict_report_keeps_detector_report_witness :
  format_conflict_report
    (map conflict_dict
         [record_at no_text no_text no_text false brief_primary brief_sim 0])
  = (conflict,
     map conflict_dict
         [record_at no_text no_text no_text false brief_primary brief_sim 0]).
Proof.
  exact (format_conflict_report_keeps_detector_report no_text no_text no_text
           brief_primary [brief_sim] 1 1 false _ brief_report).
Defined.


Lemma score_in_unit_interval_witness :
  0 <= naive_conflict_score 10 50 <= 1 /\ naive_conflict_score 60 50 = 0.
Proof.
  split; [exact (proj1 (score_in_unit_interval 10 50)) |].
  apply (proj1 (proj2 (score_in_unit_interval 60 50))). lra.
Defined.

(** ** The constructor's checks *)

(** X25.  The constructor compares the lengths before it looks at the
    order: times and positions of different lengths are a length error
    even when the times are also out of order; with equal lengths, times
    that are not strictly increasing are an order error; and exactly the
    remaining inputs are accepted, unchanged, among them the empty
    trajectory and the trajectory of a single sample. *)
Theorem constructor_checks :
  forall (ts : list R) (ps : list vec3) (fid : string),
    (length ts <> length ps ->
     Trajectory_new ts ps fid = Err (ValueError "times and positions length mismatch")) /\
    (length ts = length ps -> ~ strictly_increasing ts ->
     Trajectory_new ts ps fid = Err (ValueError "times must be strictly increasing")) /\
    (length ts = length ps -> strictly_increasing ts ->
     Trajectory_new ts ps fid = Ok (mk_Trajectory ts ps fid)) /\
    (length ts = length ps -> (length ts <= 1)%nat ->
     Trajectory_new ts ps fid = Ok (mk_Trajectory ts ps fid)).
Proof.
  intros ts ps fid.
  assert (Hinc : length ts = length ps -> strictly_increasing ts ->
                 Trajectory_new ts ps fid = Ok (mk_Trajectory ts ps fid)).
  { intros Hlen Hs. apply Trajectory_new_Ok. auto. }
  split; [| split; [| split]].
  - intros Hne. unfold Trajectory_new.
    destruct (Nat.eqb_spec (length ts) (length ps)); [contradiction | reflexivity].
  - intros Hlen Hnot. unfold Trajectory_new. rewrite Hlen, Nat.eqb_refl. cbn [negb].
    destruct (existsb _ _) eqn:E; [reflexivity |].
    apply diff_check_increasing in E. contradiction.
  - exact Hinc.
  - intros Hlen Hshort. apply Hinc; [exact Hlen |].
    destruct ts as [| a [| b ts]]; simpl in *; trivial; lia.
Qed.

Lemma constructor_checks_witness :
  Trajectory_new [5; 1] [(0, 0, 0)] "primary"
  = Err (ValueError "times and positions length mismatch") /\
  Trajectory_new [] [] "primary" = Ok (mk_Trajectory [] [] "primary").
Proof.
  split.
  - apply (proj1 (constructor_checks [5; 1] [(0, 0, 0)] "primary")). simpl. lia.
  - apply (proj2 (proj2 (proj2 (constructor_checks [] [] "primary"))));
      [reflexivity | simpl; lia].
Defined.

(** ** Speed along a window-derived trajectory *)

(** X26.  A trajectory built in window-derived mode over a path of
    positive length is flown at constant speed: on every segment the
    length of the segment is the required average speed
    [total_distance / duration] times the time spent on it. *)
Theorem window_mode_speed_is_constant :
  forall (wps : list Waypoint) (start_dt end_dt : datetime)
         (max_speed_mps : option R) (fid : string) (tr : Trajectory) (i : nat),
    existsb has_t wps = false ->
    0 < np_sum (seg_lengths_of (_waypoints_to_positions wps)) ->
    interpolate_from_waypoints wps "linear" (Some (start_dt, end_dt))
      max_speed_mps fid = Ok tr ->
    (S i < length wps)%nat ->
    nth i (seg_lengths_of (positions tr)) 0
    = required_speed (positions tr) (timestamp end_dt - timestamp start_dt)
      * (nth (S i) (times tr) 0 - nth i (times tr) 0) /\
    match max_speed_mps with
    | Some m => required_speed (positions tr) (timestamp end_dt - timestamp start_dt)
                <= m + 1 / 1000000
    | None => True
    end.
Proof.
  intros wps start_dt end_dt ms fid tr i Hnone Htot H Hi.
  destruct (window_mode_inv wps _ ms fid tr Hnone H) as (_ & ts & Hts & _ & ->).
  cbn [positions times].
  destruct (compute_times_Ok_positive _ _ _ _ _ Htot Hts) as [Hdur ->].
  split.
  - rewrite proportional_times_step by (rewrite positions_length; exact Hi).
    unfold required_speed. field. lra.
  - revert Hts. unfold _compute_times_from_window.
    rewrite Rleb_false by lra. rewrite Rleb_false by lra.
    destruct ms as [m |]; [| trivial].
    destruct (Rltb (m + 1 / 1000000) _) eqn:E; [discriminate |].
    apply Rltb_false_iff in E. intros _. exact E.
Qed.

Lemma window_mode_speed_is_constant_witness :
  nth 0 (seg_lengths_of (_waypoints_to_positions straight_path)) 0
  = required_speed (_waypoints_to_positions straight_path) (10 - 0) * (10 - 0).
Proof.
  exact (proj1 (window_mode_speed_is_constant straight_path (mk_datetime 0)
                  (mk_datetime 10) None "primary" _ O eq_refl
                  ltac:(rewrite straight_path_total; lra)
                  (two_waypoint_build_ok (untimed 0 0) (untimed 10 0)
                     (mk_datetime 0) (mk_datetime 10) "primary" eq_refl eq_refl
                     ltac:(simpl; lra))
                  ltac:(simpl; lia))).
Defined.

(** ** A negative step *)

Section NegativeStep.

Variable utc_isoformat : R -> string.
Variable format_2f : R -> string.
Variable format_list : list R -> string.

(** X27.  The step is not validated: with a negative [dt] the grid over
    every overlap is empty, so on well-formed trajectories the detector
    answers [clear] with no conflict, however close the flights are. *)
Theorem negative_step_reports_clear :
  forall primary sims safety_buffer_m dt use_3d,
    well_formed primary -> Forall well_formed sims -> dt < 0 ->
    check_spatiotemporal_conflicts utc_isoformat format_2f format_list
      primary sims safety_buffer_m dt use_3d = Ok (mk_Report clear []).
Proof.
  intros primary sims bound dt use_3d Hp Hsims Hdt.
  destruct (time_range_well_formed primary Hp) as (p0 & p1 & Htr).
  unfold check_spatiotemporal_conflicts. rewrite Htr. cbn [bind].
  rewrite (detect_loop_flat_map utc_isoformat format_2f format_list
             primary p0 p1 bound dt use_3d (fun _ => [])).
  - cbn [app]. replace (flat_map (fun _ : Trajectory => @nil Conflict) sims)
      with (@nil Conflict); [reflexivity |].
    clear. induction sims as [| sim sims IH]; [reflexivity | exact IH].
  - intros sim Hin. rewrite Forall_forall in Hsims.
    destruct (time_range_well_formed sim (Hsims sim Hin)) as (s0 & s1 & Hs).
    unfold intruder_conflicts. rewrite Hs. cbn [bind].
    rewrite py_max_Rmax, py_min_Rmin.
    destruct (Rleb (Rmin p1 s1) (Rmax p0 s0)) eqn:E; [reflexivity |].
    apply Rleb_false_iff in E.
    rewrite np_arange_negative_step by assumption. reflexivity.
Qed.

End NegativeStep.

Lemma negative_step_reports_clear_witness :
  check_spatiotemporal_conflicts no_text no_text no_text
    crossing_primary [crossing_sim] 1 (-1) false = Ok (mk_Report clear []).
Proof.
  apply negative_step_reports_clear;
    [exact (proj1 crossing_well_formed)
    | exact (Forall_cons _ (proj2 crossing_well_formed) (Forall_nil _))
    | lra].
Defined.
